(** * JetStream control plane (server/jetstream.go): a shallow embedding

    The development follows the Go source function by function.  Go's
    [int64] and [int] (64 bit) values are integers of [Z] wrapped to the
    two's complement range after every arithmetic operation; Go strings
    and byte slices are [string]s (sequences of 8-bit characters); Go maps
    are finite maps; objects that the code shares through pointers
    ([*jsAccount], [*StreamTemplate]) live in explicit stores indexed by
    addresses. *)

From Stdlib Require Import ZArith Lia List String Ascii Bool.
From stdpp Require Import base option gmap strings list fin_maps.

Local Open Scope Z_scope.
Local Open Scope string_scope.
Local Open Scope list_scope.

(* ===================================================================== *)
(** ** Machine integers *)
(* ===================================================================== *)

Definition MinInt64 : Z := - 2 ^ 63.
Definition MaxInt64 : Z := 2 ^ 63 - 1.

(** Membership in the range of Go's [int64]. *)
Definition is_int64 (z : Z) : Prop := MinInt64 <= z <= MaxInt64.

(** Two's complement wrap-around of an unbounded integer to 64 bits. *)
Definition wrap64 (z : Z) : Z := (z + 2 ^ 63) mod 2 ^ 64 - 2 ^ 63.

(** Go's [+], [-] and [*] on [int64] (and on [int] of a 64-bit target). *)
Definition add64 (a b : Z) : Z := wrap64 (a + b).
Definition sub64 (a b : Z) : Z := wrap64 (a - b).
Definition mul64 (a b : Z) : Z := wrap64 (a * b).

(* ===================================================================== *)
(** ** Strings: [CanonicalName], [isValidName], hexadecimal encoding *)
(* ===================================================================== *)

(** [strings.ReplaceAll(s, old, new)] when [old] and [new] are one byte
    long: every occurrence of the byte is replaced. *)
Fixpoint ReplaceAll (s : string) (old new : ascii) : string :=
  match s with
  | EmptyString => EmptyString
  | String c s' =>
      String (if Ascii.eqb c old then new else c) (ReplaceAll s' old new)
  end.

(** Membership of a byte in a string. *)
Fixpoint IndexByte (chars : string) (c : ascii) : bool :=
  match chars with
  | EmptyString => false
  | String d chars' => Ascii.eqb c d || IndexByte chars' c
  end.

(** [strings.ContainsAny(s, chars)] for ASCII [chars]: some byte of
    [s] is one of [chars]. *)
Fixpoint ContainsAny (s chars : string) : bool :=
  match s with
  | EmptyString => false
  | String c s' => IndexByte chars c || ContainsAny s' chars
  end.

(** func isValidName(name string) bool *)
Definition isValidName (name : string) : bool :=
  if String.eqb name "" then false
  else negb (ContainsAny name ".*>").

(** func CanonicalName(name string) string *)
Definition CanonicalName (name : string) : string :=
  ReplaceAll name "." "_".

(** The tokens of a subject: the pieces between its ['.'] separators
    (as [strings.Split(s, ".")] computes them).  The first component is the
    token being read, the result lists the completed tokens. *)
Fixpoint tokens_from (cur : string) (s : string) : list string :=
  match s with
  | EmptyString => [cur]
  | String c s' =>
      if Ascii.eqb c "." then cur :: tokens_from "" s'
      else tokens_from (cur +:+ String c "") s'
  end.

Definition tokens (s : string) : list string := tokens_from "" s.

(** [strings.Join(l, ".")]. *)
Fixpoint join_dot (l : list string) : string :=
  match l with
  | [] => ""
  | [t] => t
  | t :: l' => t +:+ "." +:+ join_dot l'
  end.

(** One lowercase hexadecimal digit. *)
Definition hexdigit (n : N) : ascii :=
  (if n <? 10 then ascii_of_N (48 + n) else ascii_of_N (87 + n))%N.

(** [hex.EncodeToString]: two lowercase digits per byte, high nibble
    first. *)
Fixpoint hex_EncodeToString (src : string) : string :=
  match src with
  | EmptyString => EmptyString
  | String c src' =>
      let n := N_of_ascii c in
      String (hexdigit (n / 16)) (String (hexdigit (n mod 16))
        (hex_EncodeToString src'))
  end.

(* ===================================================================== *)
(** ** Data model *)
(* ===================================================================== *)

(** The errors the control plane returns.  Each constructor stands for one
    error value or message of the source; [ErrCollaborator] carries an error
    produced outside this file (storage engine, operating system, messaging
    server). *)
Inductive error : Type :=
  | ErrNotRegistered                 (* jetstream account not registered *)
  | ErrJetStreamNotEnabled
  | ErrJetStreamNotEnabledForAccount
  | ErrJetStreamStreamNotFound
  | ErrSystemAccount    (* jetstream can not be enabled on the system account *)
  | ErrAlreadyEnabled   (* jetstream already enabled for account *)
  | ErrInsufficientMemory   (* insufficient memory resources available *)
  | ErrInsufficientStorage  (* insufficient storage resources available *)
  | ErrMaxStreams           (* maximum number of streams reached *)
  | ErrMaxConsumers         (* maximum consumers exceeds account limit *)
  | ErrServiceImports       (* Error setting up jetstream service imports *)
  | ErrMkdirStreams         (* could not create storage streams directory *)
  | ErrHashKey              (* highwayhash: invalid key size *)
  | ErrTemplateConfigName   (* template config name should be empty *)
  | ErrTemplateNameTooLong
  | ErrTemplateExists
  | ErrTemplateNotFound
  | ErrNoTemplate
  | ErrTemplateNotEnabled
  | ErrNoSysAccount
  | ErrNilTemplate
  | ErrTemplateStoreDelete  (* error deleting template from store *)
  | ErrCollaborator (what : string).

#[global] Instance error_eq_dec : EqDecision error.
Proof. solve_decision. Defined.

(** Modelled from the spec: the type [StorageType] and its constants are
    declared outside this file; the spec speaks of memory and store (file)
    storage.  [checkBytesLimits] switches on the two constants without a
    default case, so a third value stands for every other number the Go type
    admits. *)
Inductive StorageType : Type :=
  | FileStorage
  | MemoryStorage
  | OtherStorage.

#[global] Instance StorageType_eq_dec : EqDecision StorageType.
Proof. solve_decision. Defined.

(** type JetStreamConfig struct *)
Record JetStreamConfig : Type := mkJetStreamConfig {
  cfgMaxMemory : Z;     (* MaxMemory int64 *)
  cfgMaxStore : Z;      (* MaxStore  int64 *)
  StoreDir : string
}.

(** type JetStreamAccountLimits struct *)
Record JetStreamAccountLimits : Type := mkLimits {
  MaxMemory : Z;        (* int64 *)
  MaxStore : Z;         (* int64 *)
  MaxStreams : Z;       (* int *)
  MaxConsumers : Z      (* int *)
}.

(** Modelled from the spec: the type [StreamConfig] is declared by the
    stream engine, outside this file.  These are the fields this file reads
    or writes (the spec's [config.name], [config.subjects],
    [config.template], [max_bytes], [replicas], the storage type and the
    consumer cap). *)
Record StreamConfig : Type := mkStreamConfig {
  scName : string;
  scSubjects : list string;
  scMaxConsumers : Z;   (* int *)
  scMaxBytes : Z;       (* int64 *)
  scReplicas : Z;       (* int *)
  scStorage : StorageType;
  scTemplate : string
}.

(** type StreamTemplateConfig struct *)
Record StreamTemplateConfig : Type := mkStreamTemplateConfig {
  tcName : string;
  tcConfig : StreamConfig;
  tcMaxStreams : Z      (* uint32 *)
}.

(** Accounts are identified by name, addresses of [jsAccount] and
    [StreamTemplate] objects by positive numbers. *)
Abbreviation AccId := string (only parsing).
Abbreviation JsaPtr := positive (only parsing).
Abbreviation TmplPtr := positive (only parsing).

(** type StreamTemplate struct.  [t_jsa] is the pointer [t.jsa]; [t_client]
    is the internal client [t.tc], given by the account it is bound to
    ([None] for nil). *)
Record StreamTemplate : Type := mkStreamTemplate {
  t_client : option AccId;
  t_jsa : option JsaPtr;
  t_config : StreamTemplateConfig;
  t_streams : list string
}.

(** Modelled from the spec: the type [Stream] belongs to the stream
    engine; this file looks only into its configuration, [mset.config]. *)
Record Stream : Type := mkStream {
  stream_config : StreamConfig
}.

(** Modelled from the spec: the template store (interface [TemplateStore],
    declared outside this file) that an account creates with its first
    template: file-backed if the skeleton's storage is disk, memory-backed
    otherwise. *)
Inductive TemplateStore : Type :=
  | TemplateFileStore (dir : string)
  | TemplateMemStore.

(** type jsAccount struct.  [templates] is [None] for a nil map. *)
Record jsAccount : Type := mkJsAccount {
  account : AccId;
  limits : JetStreamAccountLimits;
  jsaMemReserved : Z;
  memUsed : Z;
  jsaStoreReserved : Z;
  storeUsed : Z;
  storeDir : string;
  streams : gmap string Stream;
  templates : option (gmap string TmplPtr);
  store : option TemplateStore
}.

(** type jetStream struct: the server-wide ledger. *)
Record jetStream : Type := mkJetStream {
  config : JetStreamConfig;
  accounts : gmap AccId JsaPtr;
  memReserved : Z;
  storeReserved : Z
}.

(** The file tree under the store directory. *)
Inductive Node : Type :=
  | File (content : option string)   (* [None]: present but unreadable *)
  | Dir (entries : list string).     (* names, in directory order *)

(** The state the operations of this file work on: the server, its
    accounts' JetStream fields, the two object stores and the file tree. *)
Record Server : Type := mkServer {
  js : option jetStream;             (* s.js *)
  sysAccount : option AccId;         (* s.SystemAccount() *)
  acc_srv : gset AccId;              (* the accounts a with a.srv != nil *)
  acc_js : gmap AccId JsaPtr;        (* a.js, absent for nil *)
  jsas : gmap JsaPtr jsAccount;      (* the jsAccount objects *)
  tmpls : gmap TmplPtr StreamTemplate; (* the StreamTemplate objects *)
  fs : gmap string Node
}.

#[global] Instance jsAccount_inhabited : Inhabited jsAccount :=
  populate (mkJsAccount "" (mkLimits 0 0 0 0) 0 0 0 0 "" ∅ None None).

#[global] Instance StreamTemplate_inhabited : Inhabited StreamTemplate :=
  populate (mkStreamTemplate None None
    (mkStreamTemplateConfig "" (mkStreamConfig "" [] 0 0 0 OtherStorage "") 0) []).

(** Field updates. *)
Definition set_js (f : option jetStream) (s : Server) : Server :=
  mkServer f (sysAccount s) (acc_srv s) (acc_js s) (jsas s) (tmpls s) (fs s).
Definition set_acc_js (m : gmap AccId JsaPtr) (s : Server) : Server :=
  mkServer (js s) (sysAccount s) (acc_srv s) m (jsas s) (tmpls s) (fs s).
Definition set_jsas (h : gmap JsaPtr jsAccount) (s : Server) : Server :=
  mkServer (js s) (sysAccount s) (acc_srv s) (acc_js s) h (tmpls s) (fs s).
Definition set_tmpls (h : gmap TmplPtr StreamTemplate) (s : Server) : Server :=
  mkServer (js s) (sysAccount s) (acc_srv s) (acc_js s) (jsas s) h (fs s).

Definition set_limits (l : JetStreamAccountLimits) (j : jsAccount) : jsAccount :=
  mkJsAccount (account j) l (jsaMemReserved j) (memUsed j) (jsaStoreReserved j)
    (storeUsed j) (storeDir j) (streams j) (templates j) (store j).
Definition set_templates (t : option (gmap string TmplPtr)) (o : option TemplateStore)
    (j : jsAccount) : jsAccount :=
  mkJsAccount (account j) (limits j) (jsaMemReserved j) (memUsed j)
    (jsaStoreReserved j) (storeUsed j) (storeDir j) (streams j) t o.
Definition set_t_streams (l : list string) (t : StreamTemplate) : StreamTemplate :=
  mkStreamTemplate (t_client t) (t_jsa t) (t_config t) l.
Definition set_t_client (b : option AccId) (t : StreamTemplate) : StreamTemplate :=
  mkStreamTemplate b (t_jsa t) (t_config t) (t_streams t).

(* ===================================================================== *)
(** ** The resource ledger *)
(* ===================================================================== *)

(** func (js *jetStream) sufficientResources(limits *JetStreamAccountLimits) error.
    A nil [limits] is [None]; the result is the error, [None] for nil. *)
Definition sufficientResources (j : jetStream)
    (l : option JetStreamAccountLimits) : option error :=
  match l with
  | None => None
  | Some l =>
      if add64 (memReserved j) (MaxMemory l) >? cfgMaxMemory (config j)
      then Some ErrInsufficientMemory
      else if add64 (storeReserved j) (MaxStore l) >? cfgMaxStore (config j)
      then Some ErrInsufficientStorage
      else None
  end.

(** func (js *jetStream) reserveResources(limits *JetStreamAccountLimits) error.
    It always returns nil; the result here is the updated ledger. *)
Definition reserveResources (j : jetStream)
    (l : option JetStreamAccountLimits) : jetStream :=
  match l with
  | None => j
  | Some l =>
      let mem := if MaxMemory l >? 0 then add64 (memReserved j) (MaxMemory l)
                 else memReserved j in
      let sto := if MaxStore l >? 0 then add64 (storeReserved j) (MaxStore l)
                 else storeReserved j in
      mkJetStream (config j) (accounts j) mem sto
  end.

(** func (js *jetStream) releaseResources(limits *JetStreamAccountLimits) error *)
Definition releaseResources (j : jetStream)
    (l : option JetStreamAccountLimits) : jetStream :=
  match l with
  | None => j
  | Some l =>
      let mem := if MaxMemory l >? 0 then sub64 (memReserved j) (MaxMemory l)
                 else memReserved j in
      let sto := if MaxStore l >? 0 then sub64 (storeReserved j) (MaxStore l)
                 else storeReserved j in
      mkJetStream (config j) (accounts j) mem sto
  end.

(** func (js *jetStream) clearResources() *)
Definition clearResources (j : jetStream) : jetStream :=
  mkJetStream (config j) (accounts j) 0 0.

(** func (js *jetStream) dynamicAccountLimits() *JetStreamAccountLimits *)
Definition dynamicAccountLimits (j : jetStream) : JetStreamAccountLimits :=
  mkLimits (cfgMaxMemory (config j)) (cfgMaxStore (config j)) (-1) (-1).

(** func diffCheckedLimits(a, b *JetStreamAccountLimits) JetStreamAccountLimits.
    The two count fields are left at their zero value. *)
Definition diffCheckedLimits (a b : JetStreamAccountLimits) : JetStreamAccountLimits :=
  mkLimits (sub64 (MaxMemory b) (MaxMemory a)) (sub64 (MaxStore b) (MaxStore a)) 0 0.

(** func (js *jetStream) lookupAccount(a *Account) *jsAccount *)
Definition lookupAccount (j : jetStream) (a : AccId) : option JsaPtr :=
  accounts j !! a.

(* ===================================================================== *)
(** ** Per-account admission checks *)
(* ===================================================================== *)

(** func (jsa *jsAccount) checkBytesLimits(addBytes int64, storage StorageType) error *)
Definition checkBytesLimits (jsa : jsAccount) (addBytes : Z)
    (storage : StorageType) : option error :=
  match storage with
  | MemoryStorage =>
      if add64 (jsaMemReserved jsa) addBytes >? MaxMemory (limits jsa)
      then Some ErrInsufficientMemory else None
  | FileStorage =>
      if add64 (jsaStoreReserved jsa) addBytes >? MaxStore (limits jsa)
      then Some ErrInsufficientStorage else None
  | OtherStorage => None
  end.

(** func (jsa *jsAccount) checkLimits(config *StreamConfig) error *)
Definition checkLimits (jsa : jsAccount) (cfg : StreamConfig) : option error :=
  if (MaxStreams (limits jsa) >? 0)
     && (Z.of_nat (size (streams jsa)) >=? MaxStreams (limits jsa))
  then Some ErrMaxStreams
  else if (scMaxConsumers cfg >? 0) && (MaxConsumers (limits jsa) >? 0)
          && (scMaxConsumers cfg >? MaxConsumers (limits jsa))
  then Some ErrMaxConsumers
  else if scMaxBytes cfg >? 0
  then checkBytesLimits jsa (mul64 (scMaxBytes cfg) (scReplicas cfg)) (scStorage cfg)
  else None.

(** func (jsa *jsAccount) updateUsage(storeType StorageType, delta int64) *)
Definition updateUsage (jsa : jsAccount) (storeType : StorageType) (delta : Z)
    : jsAccount :=
  if decide (storeType = MemoryStorage)
  then mkJsAccount (account jsa) (limits jsa) (jsaMemReserved jsa)
         (add64 (memUsed jsa) delta) (jsaStoreReserved jsa) (storeUsed jsa)
         (storeDir jsa) (streams jsa) (templates jsa) (store jsa)
  else mkJsAccount (account jsa) (limits jsa) (jsaMemReserved jsa)
         (memUsed jsa) (jsaStoreReserved jsa) (add64 (storeUsed jsa) delta)
         (storeDir jsa) (streams jsa) (templates jsa) (store jsa).

(** func (jsa *jsAccount) limitsExceeded(storeType StorageType) bool *)
Definition limitsExceeded (jsa : jsAccount) (storeType : StorageType) : bool :=
  if decide (storeType = MemoryStorage)
  then (MaxMemory (limits jsa) >? 0) && (memUsed jsa >? MaxMemory (limits jsa))
  else (MaxStore (limits jsa) >? 0) && (storeUsed jsa >? MaxStore (limits jsa)).

(* ===================================================================== *)
(** ** Effects: state, log and calls to collaborators *)
(* ===================================================================== *)

(** The places where the source logs a warning. *)
Inductive Warning : Type :=
  | WTemplateReadMeta (metasum : string)
  | WTemplateMissingSum (metasum : string)
  | WTemplateReadSum (metasum : string)
  | WTemplateChecksum (sum checksum : string)
  | WTemplateUnmarshal
  | WTemplateRecreate (name : string)
  | WStreamMissingMeta (metafile : string)
  | WStreamReadMeta (metasum : string)
  | WStreamMissingSum (metasum : string)
  | WStreamReadSum (metasum : string)
  | WStreamChecksum (sum checksum : string)
  | WStreamUnmarshal
  | WStreamAddToTemplate (stream template : string)
  | WStreamRecreate (name : string)
  | WConsumerMissingMeta (metafile : string)
  | WConsumerReadMeta (metasum : string)
  | WConsumerMissingSum (metasum : string)
  | WConsumerUnmarshal
  | WConsumerAdd
  | WConsumerState
  | WTemplateAtLimit (acc subject : string)
  | WTemplateCreateFailed (acc subject : string).

(** What an operation makes visible besides its result and the state:
    warnings and the calls that leave this file. *)
Inductive Event : Type :=
  | Warnf (w : Warning)
  | CallAddStream (a : AccId) (cfg : StreamConfig)
  | CallProcessInbound (stream subject reply msg : string).

(** An operation reads and writes the state and appends to the log. *)
Definition M (A : Type) : Type := Server → A * Server * list Event.

#[global] Instance M_ret : MRet M := λ A x s, (x, s, []).
#[global] Instance M_bind : MBind M := λ A B k m s,
  let '(x, s1, e1) := m s in
  let '(y, s2, e2) := k x s1 in
  (y, s2, e1 ++ e2).

Definition get : M Server := λ s, (s, s, []).
Definition put (s' : Server) : M unit := λ _, (tt, s', []).
Definition emit (e : Event) : M unit := λ s, (tt, s, [e]).
Definition warn (w : Warning) : M unit := emit (Warnf w).
(** A collaborator that changes the state and returns a result. *)
Definition call {A} (f : Server → A * Server) : M A := λ s,
  let '(x, s') := f s in (x, s', []).
(** A collaborator that only changes the state. *)
Definition exec (f : Server → Server) : M unit := λ s, (tt, f s, []).

Definition result {A} (r : A * Server * list Event) : A := r.1.1.
Definition final {A} (r : A * Server * list Event) : Server := r.1.2.
Definition events {A} (r : A * Server * list Event) : list Event := r.2.

(** [for _, x := range l { body }] with a body that cannot leave the
    loop early. *)
Fixpoint forM {A} (l : list A) (body : A → M unit) : M unit :=
  match l with
  | [] => mret tt
  | x :: l' => body x;; forM l' body
  end.

(** The same loop with a variable [h] the body may update. *)
Fixpoint foldM {A H} (l : list A) (h : H) (body : H → A → M H) : M H :=
  match l with
  | [] => mret h
  | x :: l' => h' ← body h x; foldM l' h' body
  end.

(** A loop whose body may [return err] from the enclosing function. *)
Fixpoint forM_err {A} (l : list A) (body : A → M (option error))
    : M (option error) :=
  match l with
  | [] => mret None
  | x :: l' =>
      r ← body x;
      match r with
      | Some err => mret (Some err)
      | None => forM_err l' body
      end
  end.

(** *** Reading the file tree *)

(** [os.Stat]: the node, if the path exists. *)
Definition os_Stat (f : gmap string Node) (p : string) : option Node := f !! p.

Definition IsDir (n : Node) : bool :=
  match n with Dir _ => true | File _ => false end.

(** [ioutil.ReadFile]: [None] stands for an error. *)
Definition ioutil_ReadFile (f : gmap string Node) (p : string) : option string :=
  match f !! p with
  | Some (File (Some c)) => Some c
  | _ => None
  end.

(** [ioutil.ReadDir] with its error dropped, as every call site does. *)
Definition ioutil_ReadDir (f : gmap string Node) (p : string) : list string :=
  match f !! p with
  | Some (Dir l) => l
  | _ => []
  end.

(** Modelled from the spec: the names of the on-disk layout, constants
    declared outside this file. *)
Definition streamsDir : string := "streams".
Definition tmplsDir : string := "templates".
Definition consumerDir : string := "obs".
Definition snapsDir : string := "snapshots".
Definition JetStreamMetaFile : string := "meta.inf".
Definition JetStreamMetaFileSum : string := "meta.sum".

(** *** The keyed hash *)

(** A [hash.Hash64] of the highwayhash package: its key and the bytes
    written since the last reset. *)
Record Hasher : Type := mkHasher { hh_key : string; hh_data : string }.

(** [highwayhash.New64(key)]: an error unless the key has 32 bytes. *)
Definition highwayhash_New64 (key : string) : option Hasher :=
  if (String.length key =? 32)%nat then Some (mkHasher key "") else None.
Definition hh_Reset (h : Hasher) : Hasher := mkHasher (hh_key h) "".
Definition hh_Write (h : Hasher) (buf : string) : Hasher :=
  mkHasher (hh_key h) (hh_data h +:+ buf).

(** *** Metafile contents and consumers

    Modelled from the spec: the types [FileStreamInfo], [ConsumerConfig] and
    [FileConsumerInfo] are declared by the engines, outside this file.  A
    metafile holds a configuration and a creation time; a consumer
    configuration has a durable name. *)

Record FileStreamInfo : Type := mkFileStreamInfo {
  fsiCreated : option Z;            (* [None]: the zero time *)
  fsiConfig : StreamConfig
}.

Record ConsumerConfig : Type := mkConsumerConfig { Durable : string }.

Record FileConsumerInfo : Type := mkFileConsumerInfo {
  fciCreated : option Z;
  fciConfig : ConsumerConfig
}.

Abbreviation Consumer := string (only parsing).

(** *** Collaborators

    Everything this file calls and does not define: libraries, the
    operating system, the messaging server, the stream and consumer engines
    and the template stores.  Those that touch the state are arbitrary
    functions on it. *)
Class Collaborators : Type := {
  (* libraries *)
  sha256_Sum256 : string → string;
  highwayhash_Sum64 : string → string → string;  (* key, data: the 8 bytes *)
  path_Join : list string → string;
  json_Unmarshal_template : string → option StreamTemplateConfig;
  json_Unmarshal_stream : string → option FileStreamInfo;
  json_Unmarshal_consumer : string → option FileConsumerInfo;
  (* a constant declared outside this file *)
  JSMaxNameLen : nat;
  (* operating system *)
  os_MkdirAll : string → Server → option error * Server;
  os_RemoveAll : string → Server → Server;
  (* messaging server *)
  AddServiceImports : AccId → Server → option error;
  eventsEnabled : Server → bool;
  processSub : TmplPtr → string → nat → Server → option error;
  (* stream engine *)
  checkStreamCfg : StreamConfig → error + StreamConfig;
  AddStream : AccId → StreamConfig → Server → (error + Stream) * Server;
  Stream_stop : Stream → Server → Server;
  Stream_Delete : Stream → Server → option error * Server;
  Stream_setCreated : Stream → Z → Server → Server;
  Stream_processInbound : Stream → string → string → string → Server → Server;
  (* consumer engine *)
  isDurableConsumer : ConsumerConfig → bool;
  Stream_AddConsumer : Stream → ConsumerConfig → Server → (error + Consumer) * Server;
  Consumer_switchToEphemeral : Consumer → Server → Server;
  Consumer_setCreated : Consumer → Z → Server → Server;
  Consumer_readStoredState : Consumer → Server → option error * Server;
  (* template stores *)
  TemplateStore_Store : TemplateStore → TmplPtr → Server → option error * Server;
  TemplateStore_Delete : TemplateStore → TmplPtr → Server → option error * Server
}.

Definition hh_Sum {C : Collaborators} (h : Hasher) : string :=
  highwayhash_Sum64 (hh_key h) (hh_data h).

(* ===================================================================== *)
(** ** Accounts, streams and templates *)
(* ===================================================================== *)

(** A method's receiver is an address of the store it lives in, never nil:
    the checks [t == nil] of the source have no counterpart.  A pointer
    field that may be nil ([t.jsa], [t.tc], [a.js], [s.js]) is an option.
    Locks are left out: the operations run one after the other. *)

Section Operations.
Context {C : Collaborators}.

(** Run [k] unless [c] returned an error ([if err != nil { return err }]). *)
Definition orReturn (c : M (option error)) (k : M (option error))
    : M (option error) :=
  r ← c; match r with Some err => mret (Some err) | None => k end.

(** [err == nil] for a result that is a value or an error. *)
Definition is_ok {A} (r : error + A) : bool :=
  match r with inr _ => true | inl _ => false end.

(** The object behind a pointer. *)
Definition jsa_at (s : Server) (p : JsaPtr) : jsAccount := jsas s !!! p.
Definition tmpl_at (s : Server) (tp : TmplPtr) : StreamTemplate := tmpls s !!! tp.

Definition store_jsa (p : JsaPtr) (j : jsAccount) : M unit :=
  s ← get; put (set_jsas (<[p := j]> (jsas s)) s).
Definition store_tmpl (tp : TmplPtr) (t : StreamTemplate) : M unit :=
  s ← get; put (set_tmpls (<[tp := t]> (tmpls s)) s).

(** func (a *Account) checkForJetStream(): the server and the jsAccount, or an error *)
Definition checkForJetStream (s : Server) (a : AccId) : error + JsaPtr :=
  if decide (a ∈ acc_srv s) then
    match acc_js s !! a with
    | Some p => inr p
    | None => inl ErrJetStreamNotEnabledForAccount
    end
  else inl ErrJetStreamNotEnabledForAccount.

(** func (a *Account) LookupStream(name string): the stream or an error *)
Definition LookupStream (s : Server) (a : AccId) (name : string) : error + Stream :=
  match acc_js s !! a with
  | None => inl ErrJetStreamNotEnabled
  | Some p =>
      match streams (jsa_at s p) !! name with
      | Some mset => inr mset
      | None => inl ErrJetStreamStreamNotFound
      end
  end.

(** func (a *Account) LookupStreamTemplate(name string): the template or an error *)
Definition LookupStreamTemplate (s : Server) (a : AccId) (name : string)
    : error + TmplPtr :=
  match checkForJetStream s a with
  | inl err => inl err
  | inr p =>
      match templates (jsa_at s p) with
      | None => inl ErrTemplateNotFound
      | Some m =>
          match m !! name with
          | Some tp => inr tp
          | None => inl ErrTemplateNotFound
          end
      end
  end.

(** func (a *Account) validateStreams(t *StreamTemplate) *)
Definition validateStreams (a : AccId) (tp : TmplPtr) : M unit :=
  s ← get;
  let t := tmpl_at s tp in
  let vstreams :=
    List.filter (λ sname, is_ok (LookupStream s a sname)) (t_streams t) in
  store_tmpl tp (set_t_streams vstreams t).

(** func (jsa *jsAccount) addStreamNameToTemplate(tname, mname string) error *)
Definition addStreamNameToTemplate (p : JsaPtr) (tname mname : string)
    : M (option error) :=
  s ← get;
  match templates (jsa_at s p) with
  | None => mret (Some ErrTemplateNotFound)
  | Some m =>
      match m !! tname with
      | None => mret (Some ErrTemplateNotFound)
      | Some tp =>
          let t := tmpl_at s tp in
          store_tmpl tp (set_t_streams (t_streams t ++ [mname]) t);;
          mret None
      end
  end.

(** func (jsa *jsAccount) checkTemplateOwnership(tname, sname string) bool *)
Definition checkTemplateOwnership (s : Server) (p : JsaPtr) (tname sname : string)
    : bool :=
  match templates (jsa_at s p) with
  | None => false
  | Some m =>
      match m !! tname with
      | None => false
      | Some tp => existsb (String.eqb sname) (t_streams (tmpl_at s tp))
      end
  end.

(** func (t *StreamTemplate) Delete() error *)
Definition StreamTemplate_Delete (tp : TmplPtr) : M (option error) :=
  s ← get;
  let t := tmpl_at s tp in
  store_tmpl tp (set_t_client None t);;
  match t_jsa t with
  | None => mret (Some ErrJetStreamNotEnabled)
  | Some p =>
      s ← get;
      let jsa := jsa_at s p in
      match templates jsa with
      | None => mret (Some ErrTemplateNotFound)
      | Some m =>
          match m !! tcName (t_config t) with
          | None => mret (Some ErrTemplateNotFound)
          | Some _ =>
              store_jsa p (set_templates (Some (delete (tcName (t_config t)) m))
                             (store jsa) jsa);;
              let acc := account jsa in
              s ← get;
              let msets :=
                omap (λ name, match LookupStream s acc name with
                              | inr mset => Some mset
                              | inl _ => None
                              end) (t_streams (tmpl_at s tp)) in
              r ← match store (jsa_at s p) with
                  | Some st => call (TemplateStore_Delete st tp)
                  | None => mret None
                  end;
              match r with
              | Some _ => mret (Some ErrTemplateStoreDelete)
              | None =>
                  foldM msets None (λ lastErr mset,
                    r ← call (Stream_Delete mset);
                    mret (match r with Some err => Some err | None => lastErr end))
              end
          end
      end
  end.

(** func (a *Account) DeleteStreamTemplate(name string) error *)
Definition DeleteStreamTemplate (a : AccId) (name : string) : M (option error) :=
  s ← get;
  match LookupStreamTemplate s a name with
  | inl err => mret (Some err)
  | inr tp => StreamTemplate_Delete tp
  end.

(** The loop of [createTemplateSubscriptions], [sid] counting from 1. *)
Fixpoint subscribeAll (tp : TmplPtr) (acc : AccId) (name : string)
    (subjects : list string) (sid : nat) : M (option error) :=
  match subjects with
  | [] => mret None
  | subject :: rest =>
      s ← get;
      match processSub tp subject sid s with
      | Some err => DeleteStreamTemplate acc name;; mret (Some err)
      | None => subscribeAll tp acc name rest (S sid)
      end
  end.

(** func (t *StreamTemplate) createTemplateSubscriptions() error *)
Definition createTemplateSubscriptions (tp : TmplPtr) : M (option error) :=
  s ← get;
  let t := tmpl_at s tp in
  match t_client t with
  | None => mret (Some ErrTemplateNotEnabled)
  | Some acc =>
      if negb (eventsEnabled s) then mret (Some ErrNoSysAccount)
      else subscribeAll tp acc (tcName (t_config t))
             (scSubjects (tcConfig (t_config t))) 1
  end.

Definition with_scName (n : string) (c : StreamConfig) : StreamConfig :=
  mkStreamConfig n (scSubjects c) (scMaxConsumers c) (scMaxBytes c)
    (scReplicas c) (scStorage c) (scTemplate c).
Definition with_scSubjects (l : list string) (c : StreamConfig) : StreamConfig :=
  mkStreamConfig (scName c) l (scMaxConsumers c) (scMaxBytes c)
    (scReplicas c) (scStorage c) (scTemplate c).
Definition with_scTemplate (t : string) (c : StreamConfig) : StreamConfig :=
  mkStreamConfig (scName c) (scSubjects c) (scMaxConsumers c) (scMaxBytes c)
    (scReplicas c) (scStorage c) t.
Definition with_tcConfig (c : StreamConfig) (tc : StreamTemplateConfig)
    : StreamTemplateConfig :=
  mkStreamTemplateConfig (tcName tc) c (tcMaxStreams tc).

(** func (a *Account) AddStreamTemplate(tc *StreamTemplateConfig): the template or an error *)
Definition AddStreamTemplate (a : AccId) (tc : StreamTemplateConfig)
    : M (error + TmplPtr) :=
  s ← get;
  match checkForJetStream s a with
  | inl err => mret (inl err)
  | inr p =>
      if negb (String.eqb (scName (tcConfig tc)) "")
      then mret (inl ErrTemplateConfigName)
      else if (JSMaxNameLen <? String.length (tcName tc))%nat
      then mret (inl ErrTemplateNameTooLong)
      else
        match checkStreamCfg (with_scName "_" (tcConfig tc)) with
        | inl err => mret (inl err)
        | inr cfg =>
            let tcopy := with_tcConfig cfg tc in
            let tp := fresh (dom (tmpls s)) in
            store_tmpl tp (mkStreamTemplate (Some a) (Some p) tcopy []);;
            s ← get;
            let jsa := jsa_at s p in
            match
              match templates jsa with
              | None =>
                  let st := if decide (scStorage cfg = FileStorage)
                            then TemplateFileStore (storeDir jsa)
                            else TemplateMemStore in
                  inr (∅ : gmap string TmplPtr, Some st)
              | Some m =>
                  match m !! tcName tcopy with
                  | Some _ => inl ErrTemplateExists
                  | None => inr (m, store jsa)
                  end
              end
            with
            | inl err => mret (inl err)
            | inr (m, st) =>
                store_jsa p (set_templates (Some (<[tcName tcopy := tp]> m)) st jsa);;
                r ← createTemplateSubscriptions tp;
                match r with
                | Some err => mret (inl err)
                | None =>
                    r ← match st with
                        | Some st => call (TemplateStore_Store st tp)
                        | None => mret None
                        end;
                    match r with
                    | Some err => StreamTemplate_Delete tp;; mret (inl err)
                    | None => mret (inr tp)
                    end
                end
            end
        end
  end.

(** The call [acc.AddStream(&cfg)], recorded in the log. *)
Definition callAddStream (a : AccId) (cfg : StreamConfig) : M (error + Stream) :=
  emit (CallAddStream a cfg);; call (AddStream a cfg).

(** func (t *StreamTemplate) processInboundTemplateMsg(_ *subscription, pc *client,
      subject, reply string, msg []byte) *)
Definition processInboundTemplateMsg (tp : TmplPtr) (subject reply msg : string)
    : M unit :=
  s ← get;
  let t := tmpl_at s tp in
  match t_jsa t with
  | None => mret tt
  | Some p =>
      let jsa := jsa_at s p in
      let cn := CanonicalName subject in
      match streams jsa !! cn with
      | Some _ => mret tt
      | None =>
          let acc := account jsa in
          let cfg := with_scTemplate (tcName (t_config t)) (tcConfig (t_config t)) in
          let atLimit :=
            Z.of_nat (length (t_streams t)) >=? tcMaxStreams (t_config t) in
          (if atLimit then mret tt
           else store_tmpl tp (set_t_streams (t_streams t ++ [cn]) t));;
          if atLimit then warn (WTemplateAtLimit acc subject)
          else
            let cfg := with_scSubjects [subject] (with_scName cn cfg) in
            r ← callAddStream acc cfg;
            match r with
            | inl _ =>
                validateStreams acc tp;;
                warn (WTemplateCreateFailed acc subject)
            | inr mset =>
                emit (CallProcessInbound (scName (stream_config mset)) subject reply msg);;
                exec (Stream_processInbound mset subject reply msg)
            end
      end
  end.

(* --------------------------------------------------------------------- *)
(** *** Recovery of an account's state from disk *)
(* --------------------------------------------------------------------- *)

(** The body of the templates loop of [EnableJetStream]; a [continue] ends
    the body.  The hasher is shared by the iterations. *)
Definition recoverTemplate (a : AccId) (tdir : string) (hh : Hasher)
    (fi : string) : M Hasher :=
  let metafile := path_Join [tdir; fi; JetStreamMetaFile] in
  let metasum := path_Join [tdir; fi; JetStreamMetaFileSum] in
  s ← get;
  match ioutil_ReadFile (fs s) metafile with
  | None => warn (WTemplateReadMeta metasum);; mret hh
  | Some buf =>
      match os_Stat (fs s) metasum with
      | None => warn (WTemplateMissingSum metasum);; mret hh
      | Some _ =>
          match ioutil_ReadFile (fs s) metasum with
          | None => warn (WTemplateReadSum metasum);; mret hh
          | Some sum =>
              let hh := hh_Write (hh_Reset hh) buf in
              let checksum := hex_EncodeToString (hh_Sum hh) in
              if negb (String.eqb checksum sum)
              then warn (WTemplateChecksum sum checksum);; mret hh
              else
                match json_Unmarshal_template buf with
                | None => warn WTemplateUnmarshal;; mret hh
                | Some cfg =>
                    let cfg := with_tcConfig (with_scName "" (tcConfig cfg)) cfg in
                    r ← AddStreamTemplate a cfg;
                    match r with
                    | inl _ => warn (WTemplateRecreate (tcName cfg));; mret hh
                    | inr _ => mret hh
                    end
                end
          end
      end
  end.

(** The body of the consumers loop. *)
Definition recoverConsumer (mset : Stream) (odir : string) (ofi : string)
    : M unit :=
  let metafile := path_Join [odir; ofi; JetStreamMetaFile] in
  let metasum := path_Join [odir; ofi; JetStreamMetaFileSum] in
  s ← get;
  match os_Stat (fs s) metafile with
  | None => warn (WConsumerMissingMeta metafile)
  | Some _ =>
      match ioutil_ReadFile (fs s) metafile with
      | None => warn (WConsumerReadMeta metasum)
      | Some buf =>
          match os_Stat (fs s) metasum with
          | None => warn (WConsumerMissingSum metasum)
          | Some _ =>
              match json_Unmarshal_consumer buf with
              | None => warn WConsumerUnmarshal
              | Some cfg =>
                  let isEphemeral := negb (isDurableConsumer (fciConfig cfg)) in
                  let ccfg := if isEphemeral then mkConsumerConfig ofi
                              else fciConfig cfg in
                  r ← call (Stream_AddConsumer mset ccfg);
                  match r with
                  | inl _ => warn WConsumerAdd
                  | inr obs =>
                      (if isEphemeral then exec (Consumer_switchToEphemeral obs)
                       else mret tt);;
                      match fciCreated cfg with
                      | Some c => exec (Consumer_setCreated obs c)
                      | None => mret tt
                      end;;
                      r ← call (Consumer_readStoredState obs);
                      match r with
                      | Some _ => warn WConsumerState
                      | None => mret tt
                      end
                  end
              end
          end
      end
  end.

(** The body of the streams loop; its result is the error of a [return err]
    that leaves [EnableJetStream], [None] when the loop goes on. *)
Definition recoverStream (a : AccId) (p : JsaPtr) (sdir : string) (fi : string)
    : M (option error) :=
  let mdir := path_Join [sdir; fi] in
  let key := sha256_Sum256 fi in
  match highwayhash_New64 key with
  | None => mret (Some ErrHashKey)
  | Some hh =>
      let metafile := path_Join [mdir; JetStreamMetaFile] in
      let metasum := path_Join [mdir; JetStreamMetaFileSum] in
      s ← get;
      match os_Stat (fs s) metafile with
      | None => warn (WStreamMissingMeta metafile);; mret None
      | Some _ =>
      match ioutil_ReadFile (fs s) metafile with
      | None => warn (WStreamReadMeta metasum);; mret None
      | Some buf =>
      match os_Stat (fs s) metasum with
      | None => warn (WStreamMissingSum metasum);; mret None
      | Some _ =>
      match ioutil_ReadFile (fs s) metasum with
      | None => warn (WStreamReadSum metasum);; mret None
      | Some sum =>
          let hh := hh_Write hh buf in
          let checksum := hex_EncodeToString (hh_Sum hh) in
          if negb (String.eqb checksum sum)
          then warn (WStreamChecksum sum checksum);; mret None
          else
            match json_Unmarshal_stream buf with
            | None => warn WStreamUnmarshal;; mret None
            | Some cfg =>
                let sc := fsiConfig cfg in
                (if negb (String.eqb (scTemplate sc) "") then
                   r ← addStreamNameToTemplate p (scTemplate sc) (scName sc);
                   match r with
                   | Some _ => warn (WStreamAddToTemplate (scName sc) (scTemplate sc))
                   | None => mret tt
                   end
                 else mret tt);;
                r ← callAddStream a sc;
                match r with
                | inl _ => warn (WStreamRecreate (scName sc));; mret None
                | inr mset =>
                    match fsiCreated cfg with
                    | Some c => exec (Stream_setCreated mset c)
                    | None => mret tt
                    end;;
                    let odir := path_Join [sdir; fi; consumerDir] in
                    s ← get;
                    forM (ioutil_ReadDir (fs s) odir) (recoverConsumer mset odir);;
                    mret None
                end
            end
      end end end end
  end.

(** The templates pass: entered when the templates directory exists. *)
Definition recoverTemplates (a : AccId) (tdir : string) : M (option error) :=
  s ← get;
  match os_Stat (fs s) tdir with
  | Some stat =>
      if IsDir stat then
        let key := sha256_Sum256 "templates" in
        match highwayhash_New64 key with
        | None => mret (Some ErrHashKey)
        | Some hh =>
            foldM (ioutil_ReadDir (fs s) tdir) hh (recoverTemplate a tdir);;
            mret None
        end
      else mret None
  | None => mret None
  end.

(** The streams pass. *)
Definition recoverStreams (a : AccId) (p : JsaPtr) (sdir : string)
    : M (option error) :=
  s ← get;
  forM_err (ioutil_ReadDir (fs s) sdir) (recoverStream a p sdir).

(* --------------------------------------------------------------------- *)
(** *** Enabling, updating and disabling an account *)
(* --------------------------------------------------------------------- *)

(** func (a *Account) enableAllJetStreamServiceImports() error.  The imports
    themselves are kept by the messaging server. *)
Definition enableAllJetStreamServiceImports (a : AccId) : M (option error) :=
  s ← get;
  if decide (a ∈ acc_srv s) then
    match AddServiceImports a s with
    | Some _ => mret (Some ErrServiceImports)
    | None => mret None
    end
  else mret (Some ErrNotRegistered).

(** func (a *Account) EnableJetStream(limits *JetStreamAccountLimits) error *)
Definition EnableJetStream (a : AccId) (l : option JetStreamAccountLimits)
    : M (option error) :=
  s ← get;
  if decide (a ∈ acc_srv s) then
    match js s with
    | None => mret (Some ErrJetStreamNotEnabled)
    | Some j =>
        if decide (sysAccount s = Some a) then mret (Some ErrSystemAccount)
        else
          let l := match l with
                   | Some l => l
                   | None => dynamicAccountLimits j
                   end in
          match accounts j !! a with
          | Some _ => mret (Some ErrAlreadyEnabled)
          | None =>
              match sufficientResources j (Some l) with
              | Some err => mret (Some err)
              | None =>
                  let p := fresh (dom (jsas s)) in
                  let jsa := mkJsAccount a l 0 0 0 0
                               (path_Join [StoreDir (config j); a]) ∅ None None in
                  let j1 := mkJetStream (config j) (<[a := p]> (accounts j))
                              (memReserved j) (storeReserved j) in
                  put (set_acc_js (<[a := p]> (acc_js s))
                        (set_jsas (<[p := jsa]> (jsas s))
                          (set_js (Some (reserveResources j1 (Some l))) s)));;
                  orReturn (enableAllJetStreamServiceImports a) (
                  let sdir := path_Join [storeDir jsa; streamsDir] in
                  s ← get;
                  orReturn (match os_Stat (fs s) sdir with
                            | None =>
                                r ← call (os_MkdirAll sdir);
                                mret (match r with
                                      | Some _ => Some ErrMkdirStreams
                                      | None => None
                                      end)
                            | Some _ => mret None
                            end) (
                  orReturn (recoverTemplates a (path_Join [storeDir jsa; tmplsDir])) (
                  orReturn (recoverStreams a p sdir) (
                  exec (os_RemoveAll (path_Join [storeDir jsa; snapsDir]));;
                  mret None))))
              end
          end
    end
  else mret (Some ErrNotRegistered).

(** func (a *Account) UpdateJetStreamLimits(limits *JetStreamAccountLimits) error *)
Definition UpdateJetStreamLimits (a : AccId) (l : option JetStreamAccountLimits)
    : M (option error) :=
  s ← get;
  if decide (a ∈ acc_srv s) then
    match js s with
    | None => mret (Some ErrJetStreamNotEnabled)
    | Some j =>
        match acc_js s !! a with
        | None => mret (Some ErrJetStreamNotEnabledForAccount)
        | Some p =>
            let l := match l with
                     | Some l => l
                     | None => dynamicAccountLimits j
                     end in
            let jsa := jsa_at s p in
            let dl := diffCheckedLimits (limits jsa) l in
            let jsaLimits := limits jsa in
            match sufficientResources j (Some dl) with
            | Some err => mret (Some err)
            | None =>
                let j' := reserveResources (releaseResources j (Some jsaLimits))
                            (Some l) in
                put (set_js (Some j') s);;
                s ← get;
                store_jsa p (set_limits l (jsa_at s p));;
                mret None
            end
        end
    end
  else mret (Some ErrNotRegistered).

(** func (jsa *jsAccount) delete().  The two loops over Go maps visit the
    entries in the order of [map_to_list]. *)
Definition jsAccount_delete (p : JsaPtr) : M unit :=
  s ← get;
  let jsa := jsa_at s p in
  let msets := (map_to_list (streams jsa)).*2 in
  let acc := account jsa in
  let ts := match templates jsa with
            | None => []
            | Some m => (λ tp, tcName (t_config (tmpl_at s tp))) <$> (map_to_list m).*2
            end in
  store_jsa p (set_templates None (store jsa) jsa);;
  forM msets (λ ms, exec (Stream_stop ms));;
  forM ts (λ t, DeleteStreamTemplate acc t;; mret tt).

(** func (js *jetStream) disableJetStream(jsa *jsAccount) error *)
Definition disableJetStream (j : jetStream) (jsa : option JsaPtr)
    : M (option error) :=
  match jsa with
  | None => mret (Some ErrJetStreamNotEnabledForAccount)
  | Some p =>
      s ← get;
      let j' := releaseResources
                  (mkJetStream (config j) (delete (account (jsa_at s p)) (accounts j))
                     (memReserved j) (storeReserved j))
                  (Some (limits (jsa_at s p))) in
      put (set_js (Some j') s);;
      jsAccount_delete p;;
      mret None
  end.

(** func (a *Account) DisableJetStream() error *)
Definition DisableJetStream (a : AccId) : M (option error) :=
  s ← get;
  put (set_acc_js (delete a (acc_js s)) s);;
  if decide (a ∈ acc_srv s) then
    match js s with
    | None => mret (Some ErrJetStreamNotEnabled)
    | Some j => disableJetStream j (lookupAccount j a)
    end
  else mret (Some ErrNotRegistered).

End Operations.

(* ===================================================================== *)
(** ** Vocabulary of the properties *)
(* ===================================================================== *)

(** The limits an update or an enable works with: the given ones, or the
    whole server quota for nil. *)
Definition effective_limits (j : jetStream) (l : option JetStreamAccountLimits)
    : JetStreamAccountLimits :=
  match l with Some l => l | None => dynamicAccountLimits j end.

(** The configuration handed to [AddStream] for a subject: the skeleton
    with the name, the subject list and the template name filled in. *)
Definition materialized (t : StreamTemplate) (subject : string) : StreamConfig :=
  let skeleton := tcConfig (t_config t) in
  mkStreamConfig (CanonicalName subject) [subject] (scMaxConsumers skeleton)
    (scMaxBytes skeleton) (scReplicas skeleton) (scStorage skeleton)
    (tcName (t_config t)).

(** An inbound message as the messaging server delivers it. *)
Definition InboundMsg : Type := string * string * string.

(** The three account operations. *)
Inductive Op : Type :=
  | OpEnable (a : AccId) (l : option JetStreamAccountLimits)
  | OpUpdate (a : AccId) (l : option JetStreamAccountLimits)
  | OpDisable (a : AccId).

(** The sum of the values of a finite map. *)
Definition sumZ (m : gmap AccId Z) : Z := map_fold (λ _ z acc, z + acc) 0 m.

(** The sum of a limit [f] over the accounts of the ledger's table [accts],
    whose [jsAccount] objects are in [h]. *)
Definition limitsSum (f : JetStreamAccountLimits → Z)
    (h : gmap JsaPtr jsAccount) (accts : gmap AccId JsaPtr) : Z :=
  sumZ ((λ p, f (limits (h !!! p))) <$> accts).

(** The same sum with every non-positive limit counted as zero. *)
Definition reservedSum (f : JetStreamAccountLimits → Z)
    (h : gmap JsaPtr jsAccount) (accts : gmap AccId JsaPtr) : Z :=
  limitsSum (λ l, Z.max 0 (f l)) h accts.

(** The part of a [jsAccount] the ledger depends on. *)
Definition acctView (j : jsAccount) : AccId * JetStreamAccountLimits :=
  (account j, limits j).

(** [s'] differs from [s] in nothing the ledger depends on: the server's
    ledger, the accounts' registration and JetStream pointers are the same,
    no [jsAccount] went away, and each has its owner and limits. *)
Record ledger_frame (s s' : Server) : Prop := mkFrame {
  frame_js : js s' = js s;
  frame_acc_srv : acc_srv s' = acc_srv s;
  frame_acc_js : acc_js s' = acc_js s;
  frame_alloc : ∀ q, is_Some (jsas s !! q) → is_Some (jsas s' !! q);
  frame_view : ∀ q, acctView (jsas s' !!! q) = acctView (jsas s !!! q)
}.

(** An operation that leaves the ledger's part of the state alone. *)
Definition frames {A} (m : M A) : Prop := ∀ s, ledger_frame s (final (m s)).

(** The ledger invariant: the accounts' JetStream pointers are the ledger's
    table, every entry of the table points to the live [jsAccount] of a
    registered account, and the two counters are the 64-bit sums of the
    positive limits. *)
Record ledger_inv (s : Server) (j : jetStream) : Prop := mkInv {
  inv_js : js s = Some j;
  inv_acc_js : acc_js s = accounts j;
  inv_entries : ∀ a p, accounts j !! a = Some p →
      is_Some (jsas s !! p) ∧ account (jsas s !!! p) = a ∧ a ∈ acc_srv s;
  inv_mem : memReserved j = wrap64 (reservedSum MaxMemory (jsas s) (accounts j));
  inv_store : storeReserved j = wrap64 (reservedSum MaxStore (jsas s) (accounts j))
}.

Section Vocabulary.
Context {C : Collaborators}.

Definition deliver (tp : TmplPtr) (m : InboundMsg) : M unit :=
  processInboundTemplateMsg tp m.1.1 m.1.2 m.2.

(** An entity's checksum is bad under [key]: its [meta.sum] is missing, or
    its content is not the lowercase hex encoding of the keyed hash of the
    bytes of [meta.inf]. *)
Inductive corrupt (key : string) (f : gmap string Node)
    (metafile metasum : string) : Prop :=
  | corrupt_missing :
      os_Stat f metasum = None → corrupt key f metafile metasum
  | corrupt_differs (buf sum : string) :
      ioutil_ReadFile f metafile = Some buf →
      ioutil_ReadFile f metasum = Some sum →
      sum ≠ hex_EncodeToString (highwayhash_Sum64 key buf) →
      corrupt key f metafile metasum.

Definition runOp (op : Op) : M (option error) :=
  match op with
  | OpEnable a l => EnableJetStream a l
  | OpUpdate a l => UpdateJetStreamLimits a l
  | OpDisable a => DisableJetStream a
  end.

(** A sequence of operations, with the error each one returned. *)
Fixpoint runOps (ops : list Op) : M (list (option error)) :=
  match ops with
  | [] => mret []
  | op :: ops' => r ← runOp op; rs ← runOps ops'; mret (r :: rs)
  end.

(** The collaborators that run while an account is enabled or disabled
    keep away from the ledger. *)
Class CollaboratorsFrame : Prop := {
  frame_os_MkdirAll d s : ledger_frame s (os_MkdirAll d s).2;
  frame_os_RemoveAll d s : ledger_frame s (os_RemoveAll d s);
  frame_AddStream a cfg s : ledger_frame s (AddStream a cfg s).2;
  frame_Stream_stop m s : ledger_frame s (Stream_stop m s);
  frame_Stream_Delete m s : ledger_frame s (Stream_Delete m s).2;
  frame_Stream_setCreated m t s : ledger_frame s (Stream_setCreated m t s);
  frame_Stream_AddConsumer m c s : ledger_frame s (Stream_AddConsumer m c s).2;
  frame_Consumer_switchToEphemeral o s :
    ledger_frame s (Consumer_switchToEphemeral o s);
  frame_Consumer_setCreated o t s : ledger_frame s (Consumer_setCreated o t s);
  frame_Consumer_readStoredState o s :
    ledger_frame s (Consumer_readStoredState o s).2;
  frame_TemplateStore_Store st t s : ledger_frame s (TemplateStore_Store st t s).2;
  frame_TemplateStore_Delete st t s : ledger_frame s (TemplateStore_Delete st t s).2
}.

End Vocabulary.

(* ===================================================================== *)
(** ** A stand-in for the collaborators *)
(* ===================================================================== *)

(** To run the operations on concrete states the collaborators are replaced
    by simple functions: keys and sums are cut from their input, a metafile
    holds just the name of its entity, and streams are kept in the account's
    table after the account's own admission check. *)

Fixpoint take_pad (n : nat) (s : string) : string :=
  match n with
  | O => ""
  | S n' =>
      match s with
      | EmptyString => String "0" (take_pad n' "")
      | String c s' => String c (take_pad n' s')
      end
  end.

Fixpoint join_slash (l : list string) : string :=
  match l with
  | [] => ""
  | [x] => x
  | x :: l' => x +:+ "/" +:+ join_slash l'
  end.

Definition sim_AddStream (a : AccId) (cfg : StreamConfig) (s : Server)
    : (error + Stream) * Server :=
  match acc_js s !! a with
  | None => (inl ErrJetStreamNotEnabledForAccount, s)
  | Some p =>
      let jsa := jsas s !!! p in
      match checkLimits jsa cfg with
      | Some err => (inl err, s)
      | None =>
          let jsa' := mkJsAccount (account jsa) (limits jsa) (jsaMemReserved jsa)
                        (memUsed jsa) (jsaStoreReserved jsa) (storeUsed jsa)
                        (storeDir jsa) (<[scName cfg := mkStream cfg]> (streams jsa))
                        (templates jsa) (store jsa) in
          (inr (mkStream cfg), set_jsas (<[p := jsa']> (jsas s)) s)
      end
  end.

Definition simCollaborators : Collaborators := {|
  sha256_Sum256 := take_pad 32;
  highwayhash_Sum64 := λ key data, take_pad 8 (data +:+ key);
  path_Join := join_slash;
  json_Unmarshal_template := λ buf,
    Some (mkStreamTemplateConfig buf
            (mkStreamConfig "" [buf +:+ ".*"] 0 0 1 MemoryStorage "") 2);
  json_Unmarshal_stream := λ buf,
    Some (mkFileStreamInfo None (mkStreamConfig buf [buf] 0 0 1 FileStorage ""));
  json_Unmarshal_consumer := λ buf,
    Some (mkFileConsumerInfo None (mkConsumerConfig buf));
  JSMaxNameLen := 256;
  os_MkdirAll := λ _ s, (None, s);
  os_RemoveAll := λ _ s, s;
  AddServiceImports := λ _ _, None;
  eventsEnabled := λ _, true;
  processSub := λ _ _ _ _, None;
  checkStreamCfg := λ cfg, inr cfg;
  AddStream := sim_AddStream;
  Stream_stop := λ _ s, s;
  Stream_Delete := λ _ s, (None, s);
  Stream_setCreated := λ _ _ s, s;
  Stream_processInbound := λ _ _ _ _ s, s;
  isDurableConsumer := λ c, negb (String.eqb (Durable c) "");
  Stream_AddConsumer := λ _ c s, (inr (Durable c), s);
  Consumer_switchToEphemeral := λ _ s, s;
  Consumer_setCreated := λ _ _ s, s;
  Consumer_readStoredState := λ _ s, (None, s);
  TemplateStore_Store := λ _ _ s, (None, s);
  TemplateStore_Delete := λ _ _ s, (None, s)
|}.

(** A server with JetStream enabled and nothing reserved, three registered
    accounts of which [SYS] is the system account, and an empty store
    directory. *)
Definition sim_server (maxMemory maxStore : Z) : Server :=
  mkServer (Some (mkJetStream (mkJetStreamConfig maxMemory maxStore "/js") ∅ 0 0))
    (Some "SYS") {["SYS"; "A"; "B"]} ∅ ∅ ∅ ∅.

Definition GiB : Z := 1024 * 1024 * 1024.

(** Account [A] enabled with 1 GiB of memory and 10 GiB of storage on a
    server of 4 GiB and 20 GiB. *)
Definition sim_enabled : Server :=
  final (EnableJetStream (C := simCollaborators) "A"
           (Some (mkLimits GiB (10 * GiB) (-1) (-1)))
           (sim_server (4 * GiB) (20 * GiB))).

(** Account [A] with a template [T] on the subjects [orders.*], its cap
    given. *)
Definition sim_template (cap : Z) : Server :=
  final (AddStreamTemplate (C := simCollaborators) "A"
           (mkStreamTemplateConfig "T"
              (mkStreamConfig "" ["orders.*"] 0 0 1 MemoryStorage "") cap)
           sim_enabled).

Definition sim_orders : list InboundMsg :=
  [("orders.new", "", "m1"); ("orders.paid", "", "m2"); ("orders.refund", "", "m3")].

(** A store directory for account [A]: template [TA] with a wrong checksum
    and template [TB] with the right one; stream [S1] with the right
    checksum and stream [S2] without a checksum file. *)
Definition sim_disk : gmap string Node :=
  list_to_map [
    ("/js/A/streams", Dir ["S1"; "S2"]);
    ("/js/A/streams/S1/meta.inf", File (Some "S1"));
    ("/js/A/streams/S1/meta.sum", File (Some "5331533130303030"));
    ("/js/A/streams/S2/meta.inf", File (Some "S2"));
    ("/js/A/templates", Dir ["TA"; "TB"]);
    ("/js/A/templates/TA/meta.inf", File (Some "TA"));
    ("/js/A/templates/TA/meta.sum", File (Some "deadbeefdeadbeef"));
    ("/js/A/templates/TB/meta.inf", File (Some "TB"));
    ("/js/A/templates/TB/meta.sum", File (Some "544274656d706c61"))
  ].

Definition sim_disk_server : Server :=
  mkServer (Some (mkJetStream (mkJetStreamConfig (4 * GiB) (20 * GiB) "/js") ∅ 0 0))
    (Some "SYS") {["SYS"; "A"; "B"]} ∅ ∅ ∅ sim_disk.

(** The state in which the templates pass of [EnableJetStream] starts for
    account [A] on that store directory. *)
Definition sim_disk_enabled : Server :=
  mkServer (js sim_enabled) (sysAccount sim_enabled) (acc_srv sim_enabled)
    (acc_js sim_enabled) (jsas sim_enabled) (tmpls sim_enabled) sim_disk.

(** Two accounts enabled, one updated, the other disabled. *)
Definition sim_ops : list Op :=
  [ OpEnable "A" (Some (mkLimits GiB (10 * GiB) (-1) (-1)));
    OpEnable "B" (Some (mkLimits (2 * GiB) (5 * GiB) (-1) (-1)));
    OpUpdate "A" (Some (mkLimits (2 * GiB) (8 * GiB) (-1) (-1)));
    OpDisable "B" ].

(* ===================================================================== *)
(** ** The server: reports, start-up, configuration and shutdown *)
(* ===================================================================== *)

(** The constants [JetStreamStoreDir], [JetStreamMaxStoreDefault] and
    [JetStreamMaxMemDefault]. *)
Definition JetStreamStoreDir : string := "jetstream".
Definition JetStreamMaxStoreDefault : Z := 1024 * 1024 * 1024 * 1024.
Definition JetStreamMaxMemDefault : Z := 1024 * 1024 * 256.

(** [uint64(x)] of an [int64]. *)
Definition to_uint64 (z : Z) : Z := z mod 2 ^ 64.

(** type JetStreamAccountStats *)
Record JetStreamAccountStats : Type := mkStats {
  statMemory : Z;                   (* uint64 *)
  statStore : Z;                    (* uint64 *)
  statStreams : Z;                  (* int *)
  statLimits : JetStreamAccountLimits
}.

(** The errors the server's own operations make, next to those an account
    operation hands up. *)
Inductive server_error : Type :=
  | SErrAlreadyEnabled            (* "jetstream already enabled" *)
  | SErrCreateStorageDir          (* "could not create storage directory - ..." *)
  | SErrNotDirectory              (* "storage directory is not a directory" *)
  | SErrNotWritable               (* "storage directory is not writable" *)
  | SErrExportSubs                (* "Error setting up internal jetstream subscriptions: ..." *)
  | SErrServiceExports            (* "Error setting up jetstream service exports: ..." *)
  | SErrCluster                   (* the error of [enableJetStreamClustering] *)
  | SErrGlobalAccount             (* "Error enabling jetstream on the global account" *)
  | SErrConfiguredAccounts (e : server_error)
                                  (* "Error enabling jetstream on configured accounts: ..." *)
  | SErrAccount (e : error).      (* an account operation's error, unchanged *)

(** What the server's operations call and this file does not define. *)
Class ServerCollaborators : Type := {
  (* subject matching *)
  SubjectsCollide : string → string → bool;
  (* the machine *)
  sysmem_Memory : Z;
  diskAvailable : string → Z;
  os_TempDir : string;
  filepath_Join : list string → string;
  (* [ioutil.TempFile] in a directory, the file removed again *)
  ioutil_TempFile : string → Server → option error;
  (* messaging server *)
  SetDefaultSystemAccount : Server → Server;
  setJetStreamExportSubs : Server → option error * Server;
  (* [AddServiceExport] for each of the service subjects, up to the first
     error, on the system account *)
  AddServiceExports : option AccId → Server → option error * Server;
  IsExportService_JSApiAccountInfo : AccId → Server → bool;
  AddServiceImport_JSApiAccountInfo : AccId → Server → option error;
  standAloneMode : Server → bool;
  enableJetStreamClustering : Server → option error * Server;
  globalAccountOnly : Server → bool;
  GlobalAccount : Server → AccId;
  (* stopping the cluster's subscription, meta group and client *)
  stopCluster : Server → Server
}.

(* --------------------------------------------------------------------- *)
(** *** Reports *)
(* --------------------------------------------------------------------- *)

(** func (s *Server) JetStreamEnabled() bool *)
Definition Server_JetStreamEnabled (s : Server) : bool :=
  match js s with Some _ => true | None => false end.

(** func (s *Server) getJetStream() *jetStream *)
Definition getJetStream (s : Server) : option jetStream := js s.

(** func (s *Server) JetStreamConfig() *JetStreamConfig *)
Definition Server_JetStreamConfig (s : Server) : option JetStreamConfig :=
  match js s with Some j => Some (config j) | None => None end.

(** func (s *Server) StoreDir() string *)
Definition Server_StoreDir (s : Server) : string :=
  match js s with Some j => StoreDir (config j) | None => "" end.

(** func (s *Server) JetStreamNumAccounts() int *)
Definition JetStreamNumAccounts (s : Server) : Z :=
  match getJetStream s with
  | None => 0
  | Some j => Z.of_nat (size (accounts j))
  end.

(** func (s *Server) JetStreamReservedResources(): memory, storage, error *)
Definition JetStreamReservedResources (s : Server) : Z * Z * option error :=
  match getJetStream s with
  | None => (-1, -1, Some ErrJetStreamNotEnabled)
  | Some j => (memReserved j, storeReserved j, None)
  end.

(** func (a *Account) JetStreamEnabled() bool *)
Definition Account_JetStreamEnabled (s : Server) (a : AccId) : bool :=
  match acc_js s !! a with Some _ => true | None => false end.

(** func (a *Account) NumStreams() int *)
Definition NumStreams (s : Server) (a : AccId) : Z :=
  match acc_js s !! a with
  | None => 0
  | Some p => Z.of_nat (size (streams (jsas s !!! p)))
  end.

(** func (a *Account) JetStreamUsage() JetStreamAccountStats *)
Definition JetStreamUsage (s : Server) (a : AccId) : JetStreamAccountStats :=
  match acc_js s !! a with
  | None => mkStats 0 0 0 (mkLimits 0 0 0 0)
  | Some p =>
      let jsa := jsas s !!! p in
      mkStats (to_uint64 (memUsed jsa)) (to_uint64 (storeUsed jsa))
        (Z.of_nat (size (streams jsa))) (limits jsa)
  end.

(** func (a *Account) Templates() : the templates of the account, in the
    order of [map_to_list]; nil is the empty list. *)
Definition Account_Templates (s : Server) (a : AccId) : list TmplPtr :=
  match checkForJetStream s a with
  | inl _ => []
  | inr p =>
      match templates (jsas s !!! p) with
      | None => []
      | Some m => (map_to_list m).*2
      end
  end.

(** func (jsa *jsAccount) acc() *Account *)
Definition jsAccount_acc (jsa : jsAccount) : AccId := account jsa.

(** func (t *StreamTemplateConfig) deepCopy() *StreamTemplateConfig.  The
    copy shares nothing with the original; values have no sharing to
    begin with. *)
Definition deepCopy (t : StreamTemplateConfig) : StreamTemplateConfig :=
  mkStreamTemplateConfig (tcName t)
    (mkStreamConfig (scName (tcConfig t)) (scSubjects (tcConfig t))
       (scMaxConsumers (tcConfig t)) (scMaxBytes (tcConfig t))
       (scReplicas (tcConfig t)) (scStorage (tcConfig t)) (scTemplate (tcConfig t)))
    (tcMaxStreams t).

Section ServerOperations.
Context {C : Collaborators} {SC : ServerCollaborators}.

(** func (a *Account) filteredStreams(filter string) []*Stream.  The map is
    walked in the order of [map_to_list]; nil is the empty list. *)
Definition filteredStreams (s : Server) (a : AccId) (filter : string)
    : list Stream :=
  match acc_js s !! a with
  | None => []
  | Some p =>
      List.filter (λ mset,
          if negb (String.eqb filter "")
          then existsb (SubjectsCollide filter) (scSubjects (stream_config mset))
          else true)
        (map_to_list (streams (jsas s !!! p))).*2
  end.

(** func (a *Account) Streams() []*Stream *)
Definition Account_Streams (s : Server) (a : AccId) : list Stream :=
  filteredStreams s a "".

(* --------------------------------------------------------------------- *)
(** *** The server's configuration *)
(* --------------------------------------------------------------------- *)

(** func (s *Server) dynJetStreamConfig(storeDir string, maxStore int64) *JetStreamConfig.
    Go's [/] on [int64] rounds towards zero. *)
Definition dynJetStreamConfig (storeDir : string) (maxStore : Z) : JetStreamConfig :=
  let dir := if negb (String.eqb storeDir "")
             then filepath_Join [storeDir; JetStreamStoreDir]
             else filepath_Join [os_TempDir; "nats"; JetStreamStoreDir] in
  let sto := if maxStore >? 0 then maxStore else diskAvailable dir in
  let sysMem := sysmem_Memory in
  let mem := if sysMem >? 0 then mul64 (Z.quot sysMem 4) 3
             else JetStreamMaxMemDefault in
  mkJetStreamConfig mem sto dir.

(** The configuration [Server.EnableJetStream] settles on before it touches
    the server: lines 99 to 113 of its body. *)
Definition startupConfig (config : option JetStreamConfig) : JetStreamConfig :=
  let config :=
    match config with
    | None => dynJetStreamConfig "" 0
    | Some c =>
        if (cfgMaxMemory c <=? 0)%Z || (cfgMaxStore c <=? 0)%Z
        then dynJetStreamConfig (StoreDir c) (cfgMaxStore c)
        else c
    end in
  if String.eqb (StoreDir config) ""
  then mkJetStreamConfig (cfgMaxMemory config) (cfgMaxStore config)
         (filepath_Join [os_TempDir; JetStreamStoreDir])
  else config.

(* --------------------------------------------------------------------- *)
(** *** Configured accounts *)
(* --------------------------------------------------------------------- *)

(** func (a *Account) enableJetStreamInfoServiceImportOnly() error *)
Definition enableJetStreamInfoServiceImportOnly (a : AccId) : M (option error) :=
  s ← get;
  if decide (a ∈ acc_srv s) then
    match AddServiceImport_JSApiAccountInfo a s with
    | Some _ => mret (Some ErrServiceImports)
    | None => mret None
    end
  else mret (Some ErrNotRegistered).

(** func (s *Server) configJetStream(acc *Account) error.  The account's
    configured limits [acc.jsLimits] are passed in and their new value is
    returned with the error. *)
Definition configJetStream (acc : AccId) (jsLimits : option JetStreamAccountLimits)
    : M (option error * option JetStreamAccountLimits) :=
  match jsLimits with
  | Some l =>
      s ← get;
      if Account_JetStreamEnabled s acc then
        r ← enableAllJetStreamServiceImports acc;
        match r with
        | Some err => mret (Some err, jsLimits)
        | None =>
            r ← UpdateJetStreamLimits acc (Some l);
            match r with
            | Some err => mret (Some err, jsLimits)
            | None => mret (None, None)
            end
        end
      else
        r ← EnableJetStream acc (Some l);
        match r with
        | Some err => mret (Some err, jsLimits)
        | None => mret (None, None)
        end
  | None =>
      s ← get;
      if decide (sysAccount s = Some acc) then mret (None, None)
      else
        (if Account_JetStreamEnabled s acc
         then DisableJetStream acc;; mret tt
         else mret tt);;
        r ← enableJetStreamInfoServiceImportOnly acc;
        mret (r, None)
  end.

(** The loop of [configAllJetStreamAccounts] over the snapshot of the
    accounts; [lims] holds [acc.jsLimits] of the accounts that have one. *)
Fixpoint configAccounts (accs : list AccId)
    (lims : gmap AccId JetStreamAccountLimits)
    : M (option error * gmap AccId JetStreamAccountLimits) :=
  match accs with
  | [] => mret (None, lims)
  | acc :: rest =>
      r ← configJetStream acc (lims !! acc);
      let lims' := match r.2 with
                   | Some l => <[acc := l]> lims
                   | None => delete acc lims
                   end in
      match r.1 with
      | Some err => mret (Some err, lims')
      | None => configAccounts rest lims'
      end
  end.

(** func (s *Server) configAllJetStreamAccounts() error.  [accs] is what
    [s.accounts.Range] yields. *)
Definition configAllJetStreamAccounts (accs : list AccId)
    (lims : gmap AccId JetStreamAccountLimits)
    : M (option server_error * gmap AccId JetStreamAccountLimits) :=
  s ← get;
  r ← match sysAccount s with
      | Some sacc =>
          if negb (IsExportService_JSApiAccountInfo sacc s)
          then call (AddServiceExports (Some sacc))
          else mret None
      | None => mret None
      end;
  match r with
  | Some _ => mret (Some SErrServiceExports, lims)
  | None =>
      s ← get;
      match js s with
      | None => mret (None, lims)
      | Some _ =>
          r ← configAccounts accs lims;
          mret (match r.1 with
                | Some err => Some (SErrAccount err)
                | None => None
                end, r.2)
      end
  end.

(* --------------------------------------------------------------------- *)
(** *** Start-up and shutdown *)
(* --------------------------------------------------------------------- *)

(** Run [k] unless [c] returned an error; [x] is what an early return
    leaves of the accounts' configured limits. *)
Definition orStop {A} (c : M (option server_error)) (x : A)
    (k : M (option server_error * A)) : M (option server_error * A) :=
  r ← c; match r with Some err => mret (Some err, x) | None => k end.

(** func (s *Server) EnableJetStream(config *JetStreamConfig) error.  The
    banner and the notices it logs are left out. *)
Definition Server_EnableJetStream (config : option JetStreamConfig)
    (accs : list AccId) (lims : gmap AccId JetStreamAccountLimits)
    : M (option server_error * gmap AccId JetStreamAccountLimits) :=
  s ← get;
  match js s with
  | Some _ => mret (Some SErrAlreadyEnabled, lims)
  | None =>
      let cfg := startupConfig config in
      put (set_js (Some (mkJetStream cfg ∅ 0 0)) s);;
      s ← get;
      orStop (match os_Stat (fs s) (StoreDir cfg) with
              | None =>
                  r ← call (os_MkdirAll (StoreDir cfg));
                  mret (match r with
                        | Some _ => Some SErrCreateStorageDir
                        | None => None
                        end)
              | Some stat =>
                  if negb (IsDir stat) then mret (Some SErrNotDirectory)
                  else match ioutil_TempFile (StoreDir cfg) s with
                       | Some _ => mret (Some SErrNotWritable)
                       | None => mret None
                       end
              end) lims (
      s ← get;
      (match sysAccount s with
       | None => exec SetDefaultSystemAccount
       | Some _ => mret tt
       end);;
      orStop (r ← call setJetStreamExportSubs;
              mret (match r with Some _ => Some SErrExportSubs | None => None end))
        lims (
      s ← get;
      orStop (r ← call (AddServiceExports (sysAccount s));
              mret (match r with Some _ => Some SErrServiceExports | None => None end))
        lims (
      s ← get;
      orStop (if negb (standAloneMode s)
              then r ← call enableJetStreamClustering;
                   mret (match r with Some _ => Some SErrCluster | None => None end)
              else mret None) lims (
      s ← get;
      if globalAccountOnly s then
        r ← EnableJetStream (GlobalAccount s) None;
        mret (match r with Some _ => Some SErrGlobalAccount | None => None end, lims)
      else
        r ← configAllJetStreamAccounts accs lims;
        mret (match r.1 with
              | Some err => Some (SErrConfiguredAccounts err)
              | None => None
              end, r.2)))))
  end.

(** func (s *Server) shutdownJetStream().  The ledger object [js] the loop
    works on is the one [s.js] holds until the loop is over. *)
Definition shutdownJetStream : M unit :=
  s ← get;
  match js s with
  | None => mret tt
  | Some j =>
      let jsas := (map_to_list (accounts j)).*2 in
      forM jsas (λ jsa,
        s ← get;
        match js s with
        | Some j => disableJetStream j (Some jsa);; mret tt
        | None => mret tt
        end);;
      s ← get;
      put (set_js None s);;
      exec stopCluster
  end.

End ServerOperations.

(* ===================================================================== *)
(** ** Vocabulary of the server's properties *)
(* ===================================================================== *)

(** A byte count fits the ledger: it can be reserved and released without
    leaving [int64]. *)
Definition fits (x l : Z) : Prop := is_int64 x ∧ is_int64 l ∧ is_int64 (x + l).

(** The messaging and cluster collaborators of the server's operations
    keep away from the ledger. *)
Class ServerCollaboratorsFrame {SC : ServerCollaborators} : Prop := {
  frame_SetDefaultSystemAccount s : ledger_frame s (SetDefaultSystemAccount s);
  frame_setJetStreamExportSubs s : ledger_frame s (setJetStreamExportSubs s).2;
  frame_AddServiceExports a s : ledger_frame s (AddServiceExports a s).2;
  frame_enableJetStreamClustering s :
    ledger_frame s (enableJetStreamClustering s).2;
  frame_stopCluster s : ledger_frame s (stopCluster s)
}.

(** A stand-in for the server's collaborators: a machine with [sysMem]
    bytes of memory and [disk] bytes of free disk, subjects that collide
    when they are equal, a stand-alone server with configured accounts. *)
Definition simServer (sysMem disk : Z) : ServerCollaborators := {|
  SubjectsCollide := String.eqb;
  sysmem_Memory := sysMem;
  diskAvailable := λ _, disk;
  os_TempDir := "/tmp";
  filepath_Join := join_slash;
  ioutil_TempFile := λ _ _, None;
  SetDefaultSystemAccount := λ s, s;
  setJetStreamExportSubs := λ s, (None, s);
  AddServiceExports := λ _ s, (None, s);
  IsExportService_JSApiAccountInfo := λ _ _, true;
  AddServiceImport_JSApiAccountInfo := λ _ _, None;
  standAloneMode := λ _, true;
  enableJetStreamClustering := λ s, (None, s);
  globalAccountOnly := λ _, false;
  GlobalAccount := λ _, "$G";
  stopCluster := λ s, s
|}.

(** The server of [sim_server] before JetStream is enabled on it. *)
Definition sim_off : Server :=
  mkServer None (Some "SYS") {["SYS"; "A"; "B"]} ∅ ∅ ∅ ∅.

(** Accounts [A] and [B] enabled, with two streams in [A]. *)
Definition sim_two : Server :=
  final (
    (EnableJetStream (C := simCollaborators) "A"
       (Some (mkLimits GiB (10 * GiB) (-1) (-1)));;
     EnableJetStream (C := simCollaborators) "B"
       (Some (mkLimits (2 * GiB) (5 * GiB) (-1) (-1)));;
     call (sim_AddStream "A"
             (mkStreamConfig "S1" ["orders.new"] 0 0 1 MemoryStorage ""));;
     call (sim_AddStream "A"
             (mkStreamConfig "S2" ["bills.new"; "bills.paid"] 0 0 1 FileStorage "")))
    (sim_server (4 * GiB) (20 * GiB))).

(** *** Vocabulary of the account operations *)

(** The checks [EnableJetStream] makes before it changes anything. *)
Definition admissible (a : AccId) (l : option JetStreamAccountLimits)
    (s : Server) (j : jetStream) : Prop :=
  a ∈ acc_srv s ∧ js s = Some j ∧ sysAccount s ≠ Some a ∧
  accounts j !! a = None ∧
  sufficientResources j (Some (effective_limits j l)) = None.

(** The state [EnableJetStream] writes once the checks have passed: a new
    [jsAccount] for the account, entered in the ledger's table, its limits
    reserved. *)
Definition registered {C : Collaborators} (a : AccId)
    (l : option JetStreamAccountLimits) (s : Server) (j : jetStream) : Server :=
  let p := fresh (dom (jsas s)) in
  let jsa := mkJsAccount a (effective_limits j l) 0 0 0 0
               (path_Join [StoreDir (config j); a]) ∅ None None in
  set_acc_js (<[a := p]> (acc_js s))
    (set_jsas (<[p := jsa]> (jsas s))
       (set_js (Some (reserveResources
                        (mkJetStream (config j) (<[a := p]> (accounts j))
                           (memReserved j) (storeReserved j))
                        (Some (effective_limits j l)))) s)).

Definition late_outcomes : list (option error) :=
  [None; Some ErrServiceImports; Some ErrMkdirStreams; Some ErrHashKey].

(** The state [DisableJetStream] writes for an account of the table before
    it stops the account's streams and templates. *)
Definition unregistered (a : AccId) (p : JsaPtr) (s : Server) (j : jetStream)
    : Server :=
  set_js (Some (releaseResources
                  (mkJetStream (config j) (delete a (accounts j))
                     (memReserved j) (storeReserved j))
                  (Some (limits (jsas s !!! p)))))
    (set_acc_js (delete a (acc_js s)) s).
(** Limits small enough that no sum or difference of two of them, or of
    one of them and a quota, leaves [int64]. *)
Definition small_limits (l : JetStreamAccountLimits) : Prop :=
  - 2 ^ 61 <= MaxMemory l <= 2 ^ 61 ∧ - 2 ^ 61 <= MaxStore l <= 2 ^ 61.


(** The ledger invariant together with the quota: the positive limits of
    the enabled accounts add up to no more than the server's configuration. *)
Record within_quota (s : Server) (j : jetStream) : Prop := mkWithinQuota {
  wq_inv : ledger_inv s j;
  wq_cfg_mem : 0 <= cfgMaxMemory (config j) <= 2 ^ 61;
  wq_cfg_store : 0 <= cfgMaxStore (config j) <= 2 ^ 61;
  wq_mem : reservedSum MaxMemory (jsas s) (accounts j) <= cfgMaxMemory (config j);
  wq_store : reservedSum MaxStore (jsas s) (accounts j) <= cfgMaxStore (config j);
  wq_small : ∀ a p, accounts j !! a = Some p → small_limits (limits (jsas s !!! p))
}.
(** *** Vocabulary of the template operations *)

(** [s'] differs from [s] in nothing the templates depend on: the accounts'
    registration and JetStream pointers, the template objects and each
    account's table of templates are the same. *)
Record template_frame (s s' : Server) : Prop := mkTemplateFrame {
  tf_acc_srv : acc_srv s' = acc_srv s;
  tf_acc_js : acc_js s' = acc_js s;
  tf_tmpls : tmpls s' = tmpls s;
  tf_templates : ∀ q, templates (jsas s' !!! q) = templates (jsas s !!! q)
}.

(** The stream engine and the template stores keep away from the
    templates. *)
Class CollaboratorsTemplates {C : Collaborators} : Prop := {
  tframe_AddStream a cfg s : template_frame s (AddStream a cfg s).2;
  tframe_Stream_processInbound m subject reply msg s :
    template_frame s (Stream_processInbound m subject reply msg s);
  tframe_Stream_Delete m s : template_frame s (Stream_Delete m s).2;
  tframe_TemplateStore_Store st t s : template_frame s (TemplateStore_Store st t s).2;
  tframe_TemplateStore_Delete st t s :
    template_frame s (TemplateStore_Delete st t s).2
}.

(** The stand-in collaborators on a server whose events are not enabled. *)
Definition simNoEvents : Collaborators := {|
  sha256_Sum256 := sha256_Sum256 (Collaborators := simCollaborators);
  highwayhash_Sum64 := highwayhash_Sum64 (Collaborators := simCollaborators);
  path_Join := path_Join (Collaborators := simCollaborators);
  json_Unmarshal_template := json_Unmarshal_template (Collaborators := simCollaborators);
  json_Unmarshal_stream := json_Unmarshal_stream (Collaborators := simCollaborators);
  json_Unmarshal_consumer := json_Unmarshal_consumer (Collaborators := simCollaborators);
  JSMaxNameLen := JSMaxNameLen (Collaborators := simCollaborators);
  os_MkdirAll := os_MkdirAll (Collaborators := simCollaborators);
  os_RemoveAll := os_RemoveAll (Collaborators := simCollaborators);
  AddServiceImports := AddServiceImports (Collaborators := simCollaborators);
  eventsEnabled := λ _, false;
  processSub := processSub (Collaborators := simCollaborators);
  checkStreamCfg := checkStreamCfg (Collaborators := simCollaborators);
  AddStream := AddStream (Collaborators := simCollaborators);
  Stream_stop := Stream_stop (Collaborators := simCollaborators);
  Stream_Delete := Stream_Delete (Collaborators := simCollaborators);
  Stream_setCreated := Stream_setCreated (Collaborators := simCollaborators);
  Stream_processInbound := Stream_processInbound (Collaborators := simCollaborators);
  isDurableConsumer := isDurableConsumer (Collaborators := simCollaborators);
  Stream_AddConsumer := Stream_AddConsumer (Collaborators := simCollaborators);
  Consumer_switchToEphemeral :=
    Consumer_switchToEphemeral (Collaborators := simCollaborators);
  Consumer_setCreated := Consumer_setCreated (Collaborators := simCollaborators);
  Consumer_readStoredState := Consumer_readStoredState (Collaborators := simCollaborators);
  TemplateStore_Store := TemplateStore_Store (Collaborators := simCollaborators);
  TemplateStore_Delete := TemplateStore_Delete (Collaborators := simCollaborators)
|}.

(** The template configuration of [sim_template]. *)
Definition sim_tc (cap : Z) : StreamTemplateConfig :=
  mkStreamTemplateConfig "T"
    (mkStreamConfig "" ["orders.*"] 0 0 1 MemoryStorage "") cap.
(** *** Vocabulary of the server's start-up *)

Section StartUpVocabulary.
Context {C : Collaborators} {SC : ServerCollaborators}.

(** How a run of the server's [EnableJetStream] ends, seen from the state
    [s0] with the new ledger: it stopped with an error somewhere the ledger
    is as in [s0], or it went on to enable the global account, or to walk
    the configured accounts. *)
Definition startup_outcome (accs : list AccId)
    (lims : gmap AccId JetStreamAccountLimits) (s0 : Server)
    (r : (option server_error * gmap AccId JetStreamAccountLimits) * Server * list Event)
    : Prop :=
  ∃ s', ledger_frame s0 s' ∧
    ((final r = s' ∧ ∃ e, (result r).1 = Some e) ∨
     (globalAccountOnly s' = true ∧
      final r = final (EnableJetStream (GlobalAccount s') None s') ∧
      ((result r).1 = None ↔ result (EnableJetStream (GlobalAccount s') None s') = None)) ∨
     (is_Some (js s') ∧
      final r = final (configAccounts accs lims s') ∧
      ((result r).1 = None ↔ (result (configAccounts accs lims s')).1 = None))).

End StartUpVocabulary.
(* ===================================================================== *)
(** * Properties *)
(* ===================================================================== *)

(** ** Machine integers *)

Lemma wrap64_id (z : Z) : is_int64 z → wrap64 z = z.
Proof.
  unfold is_int64, MinInt64, MaxInt64, wrap64. intros Hz.
  rewrite Z.mod_small; lia.
Qed.

Lemma wrap64_range (z : Z) : is_int64 (wrap64 z).
Proof.
  unfold is_int64, MinInt64, MaxInt64, wrap64.
  pose proof (Z.mod_pos_bound (z + 2 ^ 63) (2 ^ 64)). lia.
Qed.

Lemma wrap64_add_l (a b : Z) : wrap64 (wrap64 a + b) = wrap64 (a + b).
Proof.
  unfold wrap64.
  replace ((a + 2 ^ 63) mod 2 ^ 64 - 2 ^ 63 + b + 2 ^ 63)
    with ((a + 2 ^ 63) mod 2 ^ 64 + b) by lia.
  rewrite Zplus_mod_idemp_l. do 2 f_equal. lia.
Qed.

Lemma wrap64_sub_l (a b : Z) : wrap64 (wrap64 a - b) = wrap64 (a - b).
Proof. replace (wrap64 a - b) with (wrap64 a + - b) by lia. apply wrap64_add_l. Qed.

(** ** Names *)

Lemma append_cons (c : ascii) (a b : string) :
  String c a +:+ b = String c (a +:+ b).
Proof. reflexivity. Qed.

Lemma append_nil_l (a : string) : "" +:+ a = a.
Proof. reflexivity. Qed.

Lemma append_nil_r (a : string) : a +:+ "" = a.
Proof. induction a as [|c a IH]; [done|]. by rewrite append_cons, IH. Qed.

Lemma append_snoc (a b : string) (c : ascii) :
  (a +:+ String c "") +:+ b = a +:+ String c b.
Proof. induction a as [|d a IH]; [done|]. by rewrite !append_cons, IH. Qed.

Lemma ContainsAny_app (a b chars : string) :
  ContainsAny (a +:+ b) chars = ContainsAny a chars || ContainsAny b chars.
Proof.
  induction a as [|d a IH]; [done|].
  rewrite append_cons. simpl. rewrite IH. by rewrite orb_assoc.
Qed.

(** The first token read by [tokens_from] extends the token in progress. *)
Lemma tokens_from_head (s cur : string) :
  ∃ x rest, tokens_from cur s = (cur +:+ x) :: rest.
Proof.
  revert cur. induction s as [|c s IH]; intros cur; simpl.
  - exists "", []. by rewrite append_nil_r.
  - destruct (Ascii.eqb c ".").
    + exists "", (tokens_from "" s). by rewrite append_nil_r.
    + destruct (IH (cur +:+ String c "")) as (x & rest & ->).
      exists (String c x), rest. by rewrite append_snoc.
Qed.

Lemma isValidName_chars (t : string) :
  isValidName t = true → ContainsAny t ".*>" = false.
Proof.
  unfold isValidName. destruct (String.eqb t ""); [done|].
  by intros ->%negb_true_iff.
Qed.

(** A subject made of valid tokens holds no wildcard byte. *)
Lemma tokens_valid_chars (s cur : string) :
  Forall (λ t, isValidName t = true) (tokens_from cur s) →
  ContainsAny s "*>" = false.
Proof.
  revert cur. induction s as [|c s IH]; intros cur Hall; [done|].
  simpl in Hall. simpl ContainsAny.
  destruct (Ascii.eqb c ".") eqn:Hdot.
  - apply Ascii.eqb_eq in Hdot as ->. simpl.
    inversion Hall; subst. eauto.
  - rewrite (IH _ Hall), orb_false_r.
    destruct (tokens_from_head s (cur +:+ String c "")) as (x & rest & Heq).
    rewrite Heq in Hall. inversion Hall as [|? ? Hv _]; subst.
    apply isValidName_chars in Hv.
    rewrite !ContainsAny_app in Hv.
    apply orb_false_iff in Hv as [Hv _]. apply orb_false_iff in Hv as [_ Hv].
    simpl in Hv |- *.
    by destruct (Ascii.eqb c "."), (Ascii.eqb c "*"), (Ascii.eqb c ">").
Qed.

Lemma ReplaceAll_no_old (s : string) (old new : ascii) :
  old ≠ new → ¬ In old (list_ascii_of_string (ReplaceAll s old new)).
Proof.
  intros Hne. induction s as [|c s IH]; simpl; [tauto|].
  intros [Heq|Hin]; [|tauto].
  destruct (Ascii.eqb c old) eqn:Hc.
  - congruence.
  - apply Ascii.eqb_neq in Hc. congruence.
Qed.

Lemma CanonicalName_chars (s : string) :
  ContainsAny s "*>" = false → ContainsAny (CanonicalName s) ".*>" = false.
Proof.
  unfold CanonicalName. induction s as [|c s IH]; [done|].
  simpl. intros [Hc Hs]%orb_false_iff. rewrite (IH Hs), orb_false_r.
  destruct (Ascii.eqb c ".") eqn:Hdot; [done|].
  simpl. rewrite Hdot. simpl. exact Hc.
Qed.

(** Joining the tokens of a subject gives the subject back: the token
    list is the subject, read between the separators. *)
Lemma join_tokens_from (s cur : string) :
  join_dot (tokens_from cur s) = cur +:+ s.
Proof.
  revert cur. induction s as [|c s IH]; intros cur; simpl.
  - by rewrite append_nil_r.
  - destruct (Ascii.eqb c ".") eqn:Hdot.
    + apply Ascii.eqb_eq in Hdot as ->.
      destruct (tokens_from_head s "") as (x & rest & Heq).
      specialize (IH ""). rewrite Heq in IH |- *.
      change (join_dot (cur :: ("" +:+ x) :: rest))
        with (cur +:+ "." +:+ join_dot (("" +:+ x) :: rest)).
      by rewrite IH.
    + by rewrite IH, append_snoc.
Qed.

(** C8. Canonical name law: the canonical name of any string holds no
    ['.']; and when the string is made of ['.']-separated tokens that all
    satisfy [isValidName], its canonical name satisfies [isValidName]. *)
Theorem CanonicalName_law (s : string) :
  ¬ In "."%char (list_ascii_of_string (CanonicalName s)) ∧
  (Forall (λ t, isValidName t = true) (tokens s) →
   isValidName (CanonicalName s) = true).
Proof.
  split.
  - apply ReplaceAll_no_old. discriminate.
  - intros Hall. unfold isValidName.
    destruct s as [|c s].
    + inversion Hall as [|? ? Hv _]; subst. discriminate Hv.
    + simpl. rewrite negb_true_iff.
      apply (CanonicalName_chars (String c s)).
      exact (tokens_valid_chars _ _ Hall).
Qed.

Lemma CanonicalName_law_witness :
  Forall (λ t, isValidName t = true) (tokens "orders.new.eu") ∧
  isValidName (CanonicalName "orders.new.eu") = true.
Proof.
  assert (Hall : Forall (λ t, isValidName t = true) (tokens "orders.new.eu")).
  { repeat constructor. }
  split; [exact Hall|].
  exact (proj2 (CanonicalName_law "orders.new.eu") Hall).
Defined.

(** ** The ledger's sufficiency check *)

(** The check reports memory before storage. *)
Lemma sufficientResources_errors (j : jetStream) (l : JetStreamAccountLimits) :
  match sufficientResources j (Some l) with
  | None =>
      add64 (memReserved j) (MaxMemory l) <= cfgMaxMemory (config j) ∧
      add64 (storeReserved j) (MaxStore l) <= cfgMaxStore (config j)
  | Some err =>
      (err = ErrInsufficientMemory ∧
       add64 (memReserved j) (MaxMemory l) > cfgMaxMemory (config j)) ∨
      (err = ErrInsufficientStorage ∧
       add64 (memReserved j) (MaxMemory l) <= cfgMaxMemory (config j) ∧
       add64 (storeReserved j) (MaxStore l) > cfgMaxStore (config j))
  end.
Proof.
  unfold sufficientResources.
  destruct (Z.gtb_spec (add64 (memReserved j) (MaxMemory l)) (cfgMaxMemory (config j)));
    [left; split; [done|lia]|].
  destruct (Z.gtb_spec (add64 (storeReserved j) (MaxStore l)) (cfgMaxStore (config j)));
    [right; repeat split; [lia|lia]|].
  split; lia.
Qed.

(** As long as the two sums fit in an [int64] the check is the comparison
    of the sums with the server's configuration. *)
Lemma sufficientResources_exact (j : jetStream) (l : JetStreamAccountLimits) :
  is_int64 (memReserved j + MaxMemory l) →
  is_int64 (storeReserved j + MaxStore l) →
  sufficientResources j (Some l) = None ↔
    memReserved j + MaxMemory l <= cfgMaxMemory (config j) ∧
    storeReserved j + MaxStore l <= cfgMaxStore (config j).
Proof.
  intros Hm Hs.
  pose proof (sufficientResources_errors j l) as Hspec.
  unfold add64 in Hspec. rewrite !wrap64_id in Hspec by done.
  destruct (sufficientResources j (Some l)) as [err|].
  - split; [done|]. intros [? ?]. destruct Hspec as [[_ ?]|(_ & _ & ?)]; lia.
  - by split.
Qed.

(** C5, at a sum that leaves the [int64] range: with one byte reserved
    on a server of 1000 bytes, a request for [MaxInt64] bytes of memory passes
    the check, though the sum of the two exceeds the configured maximum. *)
Example sufficientResources_overflow :
  let j := mkJetStream (mkJetStreamConfig 1000 1000 "") ∅ 1 0 in
  let l := mkLimits MaxInt64 0 0 0 in
  sufficientResources j (Some l) = None ∧
  ¬ (memReserved j + MaxMemory l <= cfgMaxMemory (config j)).
Proof. split; [reflexivity|]. unfold MaxInt64. simpl. lia. Qed.

(** ** Stream admission *)

(** [checkLimits] case by case, in the arithmetic of the source. *)
Lemma checkLimits_cases (jsa : jsAccount) (cfg : StreamConfig) :
  let addBytes := mul64 (scMaxBytes cfg) (scReplicas cfg) in
  checkLimits jsa cfg =
    if decide (MaxStreams (limits jsa) > 0 ∧
               Z.of_nat (size (streams jsa)) >= MaxStreams (limits jsa))
    then Some ErrMaxStreams
    else if decide (scMaxConsumers cfg > 0 ∧ MaxConsumers (limits jsa) > 0 ∧
                    scMaxConsumers cfg > MaxConsumers (limits jsa))
    then Some ErrMaxConsumers
    else if decide (scMaxBytes cfg > 0) then
      match scStorage cfg with
      | MemoryStorage =>
          if decide (add64 (jsaMemReserved jsa) addBytes <= MaxMemory (limits jsa))
          then None else Some ErrInsufficientMemory
      | FileStorage =>
          if decide (add64 (jsaStoreReserved jsa) addBytes <= MaxStore (limits jsa))
          then None else Some ErrInsufficientStorage
      | OtherStorage => None
      end
    else None.
Proof.
  unfold checkLimits, checkBytesLimits. cbv zeta.
  repeat match goal with
  | |- context [Z.gtb ?a ?b] => destruct (Z.gtb_spec a b)
  | |- context [Z.geb ?a ?b] => destruct (Z.geb_spec a b)
  end; simpl; repeat case_decide; try done; try lia;
  destruct (scStorage cfg); repeat case_decide; try done; lia.
Qed.

(** As long as the product and the sum fit in an [int64], a stream that
    declares bytes is admitted exactly when the reservation after it stays
    within the account's limit for its storage type. *)
Lemma checkBytesLimits_exact (jsa : jsAccount) (cfg : StreamConfig) :
  is_int64 (scMaxBytes cfg * scReplicas cfg) →
  is_int64 (jsaMemReserved jsa + scMaxBytes cfg * scReplicas cfg) →
  is_int64 (jsaStoreReserved jsa + scMaxBytes cfg * scReplicas cfg) →
  let addBytes := mul64 (scMaxBytes cfg) (scReplicas cfg) in
  (checkBytesLimits jsa addBytes MemoryStorage = None ↔
     jsaMemReserved jsa + scMaxBytes cfg * scReplicas cfg <= MaxMemory (limits jsa)) ∧
  (checkBytesLimits jsa addBytes FileStorage = None ↔
     jsaStoreReserved jsa + scMaxBytes cfg * scReplicas cfg <= MaxStore (limits jsa)).
Proof.
  intros Hp Hm Hs. cbv zeta. unfold checkBytesLimits, mul64, add64.
  rewrite (wrap64_id _ Hp), (wrap64_id _ Hm), (wrap64_id _ Hs).
  split.
  - destruct (Z.gtb_spec (jsaMemReserved jsa + scMaxBytes cfg * scReplicas cfg)
                (MaxMemory (limits jsa))); split; try done; lia.
  - destruct (Z.gtb_spec (jsaStoreReserved jsa + scMaxBytes cfg * scReplicas cfg)
                (MaxStore (limits jsa))); split; try done; lia.
Qed.

(** C6, where the arithmetic leaves the [int64] range.  An account with a
    memory limit of 1000 bytes admits a memory stream that declares
    [MaxInt64] bytes: with one replica when a single byte is already reserved
    (the sum wraps), and with two replicas when nothing is reserved (the
    product wraps). *)
Example checkLimits_overflow :
  let lim := mkLimits 1000 1000 (-1) (-1) in
  let jsa1 := mkJsAccount "A" lim 1 0 0 0 "" ∅ None None in
  let cfg1 := mkStreamConfig "S" ["s"] 0 MaxInt64 1 MemoryStorage "" in
  let jsa2 := mkJsAccount "A" lim 0 0 0 0 "" ∅ None None in
  let cfg2 := mkStreamConfig "S" ["s"] 0 MaxInt64 2 MemoryStorage "" in
  (checkLimits jsa1 cfg1 = None ∧ scMaxBytes cfg1 > 0 ∧
   ¬ (jsaMemReserved jsa1 + scMaxBytes cfg1 * scReplicas cfg1 <= MaxMemory lim)) ∧
  (checkLimits jsa2 cfg2 = None ∧ scMaxBytes cfg2 > 0 ∧
   ¬ (jsaMemReserved jsa2 + scMaxBytes cfg2 * scReplicas cfg2 <= MaxMemory lim)).
Proof.
  cbv zeta. split; (split; [reflexivity|]); unfold MaxInt64; simpl; lia.
Qed.

(* ===================================================================== *)
(** ** Updating an account's limits *)
(* ===================================================================== *)

(** Unfolding the operations of [M], one step of the state at a time. *)
Ltac munfold :=
  unfold orReturn, store_jsa, store_tmpl, mbind, M_bind, mret, M_ret, get, put,
    warn, emit, call, exec in *;
  cbv beta iota in *.

Section AccountProperties.
Context {C : Collaborators}.

(** C9. An update whose delta fails the sufficiency check returns that
    error and leaves the whole state (ledger counters, the account's limits
    and everything else) as it was. *)
Theorem UpdateJetStreamLimits_rejected (a : AccId)
    (l : option JetStreamAccountLimits) (s : Server) (j : jetStream)
    (p : JsaPtr) (err : error) :
  a ∈ acc_srv s →
  js s = Some j →
  acc_js s !! a = Some p →
  sufficientResources j
    (Some (diffCheckedLimits (limits (jsa_at s p)) (effective_limits j l))) = Some err →
  UpdateJetStreamLimits a l s = (Some err, s, []).
Proof.
  intros Ha Hj Hp Hsuf. unfold UpdateJetStreamLimits. munfold.
  rewrite decide_True by done. rewrite Hj, Hp.
  fold (effective_limits j l). by rewrite Hsuf.
Qed.

(** C4. A successful update: the delta has only the two byte fields, new
    minus old; it passed the sufficiency check; the ledger is the old one
    after release(old) and reserve(new); the account's limits are the new
    ones and its usage counters untouched. *)
Theorem UpdateJetStreamLimits_success (a : AccId)
    (l : option JetStreamAccountLimits) (s : Server) :
  result (UpdateJetStreamLimits a l s) = None →
  ∃ j p,
    js s = Some j ∧ acc_js s !! a = Some p ∧
    let old := limits (jsa_at s p) in
    let new := effective_limits j l in
    let dl := diffCheckedLimits old new in
    let s' := final (UpdateJetStreamLimits a l s) in
    (MaxMemory dl = sub64 (MaxMemory new) (MaxMemory old) ∧
     MaxStore dl = sub64 (MaxStore new) (MaxStore old) ∧
     MaxStreams dl = 0 ∧ MaxConsumers dl = 0) ∧
    (is_int64 (MaxMemory new - MaxMemory old) →
     MaxMemory dl = MaxMemory new - MaxMemory old) ∧
    (is_int64 (MaxStore new - MaxStore old) →
     MaxStore dl = MaxStore new - MaxStore old) ∧
    sufficientResources j (Some dl) = None ∧
    js s' = Some (reserveResources (releaseResources j (Some old)) (Some new)) ∧
    limits (jsa_at s' p) = new ∧
    memUsed (jsa_at s' p) = memUsed (jsa_at s p) ∧
    storeUsed (jsa_at s' p) = storeUsed (jsa_at s p) ∧
    acc_js s' = acc_js s.
Proof.
  unfold UpdateJetStreamLimits, result, final. munfold.
  case_decide as Ha; [|done].
  destruct (js s) as [j|] eqn:Hj; [|done].
  destruct (acc_js s !! a) as [p|] eqn:Hp; [|done].
  fold (effective_limits j l).
  destruct (sufficientResources j
    (Some (diffCheckedLimits (limits (jsa_at s p)) (effective_limits j l))))
    as [err|] eqn:Hsuf; [done|].
  intros _. exists j, p. split; [done|]. split; [done|].
  cbn. unfold jsa_at. cbn. rewrite lookup_total_insert_eq. cbn.
  repeat split; try done.
  - intros Hr. unfold sub64. by rewrite wrap64_id.
  - intros Hr. unfold sub64. by rewrite wrap64_id.
Qed.

(** ** Enabling the system account *)

(** On a server with JetStream enabled, enabling JetStream for the
    registered system account is refused as forbidden. *)
Lemma EnableJetStream_system_account_forbidden (a : AccId)
    (l : option JetStreamAccountLimits) (s : Server) (j : jetStream) :
  js s = Some j →
  a ∈ acc_srv s →
  sysAccount s = Some a →
  EnableJetStream a l s = (Some ErrSystemAccount, s, []).
Proof.
  intros Hj Ha Hsys. unfold EnableJetStream. munfold.
  rewrite decide_True by done. rewrite Hj.
  by rewrite decide_True by done.
Qed.

(** Whatever the server's state, the call on the system account fails
    and changes nothing. *)
Lemma EnableJetStream_system_account_fails (a : AccId)
    (l : option JetStreamAccountLimits) (s : Server) :
  sysAccount s = Some a →
  ∃ err, EnableJetStream a l s = (Some err, s, []).
Proof.
  intros Hsys. unfold EnableJetStream. munfold.
  case_decide; [|by eexists].
  destruct (js s); [|by eexists].
  rewrite decide_True by done. by eexists.
Qed.

(** C7, amended. Enabling JetStream for the system account always fails,
    whatever the limits, and leaves the whole state (the ledger's counters and
    the enabled accounts with it) unchanged, logging nothing; on a server with
    JetStream enabled the error is the forbidden one. *)
Theorem EnableJetStream_system_account (a : AccId)
    (l : option JetStreamAccountLimits) (s : Server) :
  sysAccount s = Some a →
  a ∈ acc_srv s →
  (∃ err, EnableJetStream a l s = (Some err, s, [])) ∧
  (is_Some (js s) → EnableJetStream a l s = (Some ErrSystemAccount, s, [])).
Proof.
  intros Hsys Ha. split.
  - by apply EnableJetStream_system_account_fails.
  - intros [j Hj]. by apply (EnableJetStream_system_account_forbidden a l s j).
Qed.

End AccountProperties.

Lemma UpdateJetStreamLimits_rejected_witness :
  UpdateJetStreamLimits "A"
    (Some (mkLimits (5 * GiB) (10 * GiB) (-1) (-1))) sim_enabled
  = (Some ErrInsufficientMemory, sim_enabled, []).
Proof.
  apply (UpdateJetStreamLimits_rejected "A"
           (Some (mkLimits (5 * GiB) (10 * GiB) (-1) (-1))) sim_enabled
           (mkJetStream (mkJetStreamConfig (4 * GiB) (20 * GiB) "/js")
              {["A" := 1%positive]} GiB (10 * GiB)) 1%positive).
  - vm_compute. reflexivity.
  - vm_compute. reflexivity.
  - vm_compute. reflexivity.
  - vm_compute. reflexivity.
Defined.

Lemma UpdateJetStreamLimits_success_witness :
  let new := mkLimits (2 * GiB) (8 * GiB) (-1) (-1) in
  let r := UpdateJetStreamLimits "A" (Some new) sim_enabled in
  result r = None ∧
  (memReserved <$> js sim_enabled) = Some GiB ∧
  (storeReserved <$> js sim_enabled) = Some (10 * GiB) ∧
  (memReserved <$> js (final r)) = Some (2 * GiB) ∧
  (storeReserved <$> js (final r)) = Some (8 * GiB) ∧
  limits (jsa_at (final r) 1) = new.
Proof.
  cbv zeta.
  assert (Hok : result (UpdateJetStreamLimits "A"
                  (Some (mkLimits (2 * GiB) (8 * GiB) (-1) (-1))) sim_enabled) = None)
    by (vm_compute; reflexivity).
  split; [exact Hok|].
  destruct (UpdateJetStreamLimits_success "A"
              (Some (mkLimits (2 * GiB) (8 * GiB) (-1) (-1))) sim_enabled Hok)
    as (j & p & Hj & Hp & _ & _ & _ & _ & Hjs & Hlim & _).
  assert (p = 1%positive) as -> by (vm_compute in Hp; congruence).
  assert (j = mkJetStream (mkJetStreamConfig (4 * GiB) (20 * GiB) "/js")
                {["A" := 1%positive]} GiB (10 * GiB)) as ->
    by (vm_compute in Hj; injection Hj as <-; vm_compute; reflexivity).
  rewrite Hjs, Hj. repeat split; try (vm_compute; reflexivity).
Defined.

Lemma EnableJetStream_system_account_witness :
  sysAccount sim_enabled = Some "SYS" ∧ "SYS" ∈ acc_srv sim_enabled ∧
  is_Some (js sim_enabled) ∧
  EnableJetStream (C := simCollaborators) "SYS"
    (Some (mkLimits GiB GiB (-1) (-1))) sim_enabled
  = (Some ErrSystemAccount, sim_enabled, []).
Proof.
  assert (Hsys : sysAccount sim_enabled = Some "SYS") by (vm_compute; reflexivity).
  assert (Hreg : "SYS" ∈ acc_srv sim_enabled) by (vm_compute; reflexivity).
  assert (Hjs : is_Some (js sim_enabled)) by (vm_compute; eauto).
  split; [exact Hsys|]. split; [exact Hreg|]. split; [exact Hjs|].
  exact (proj2 (EnableJetStream_system_account (C := simCollaborators) "SYS"
                  (Some (mkLimits GiB GiB (-1) (-1))) sim_enabled Hsys Hreg) Hjs).
Defined.

(** C7 as stated fails: on a server where JetStream is not enabled the call
    on the system account returns the not-enabled error, not the forbidden
    one. *)
Lemma EnableJetStream_system_account_counterexample :
  let s := mkServer None (Some "SYS") {["SYS"; "A"]} ∅ ∅ ∅ ∅ in
  sysAccount s = Some "SYS" ∧ "SYS" ∈ acc_srv s ∧
  EnableJetStream (C := simCollaborators) "SYS" None s
    = (Some ErrJetStreamNotEnabled, s, []) ∧
  result (EnableJetStream (C := simCollaborators) "SYS" None s)
    ≠ Some ErrSystemAccount.
Proof.
  cbv zeta. split; [reflexivity|]. split; [vm_compute; reflexivity|].
  split; [vm_compute; reflexivity|]. vm_compute. discriminate.
Qed.

(* ===================================================================== *)
(** ** Template materialization *)
(* ===================================================================== *)

Section TemplateProperties.
Context {C : Collaborators}.

(** What an inbound message does, case by case. *)
Lemma processInboundTemplateMsg_run (tp : TmplPtr) (subject reply msg : string)
    (s : Server) (p : JsaPtr) :
  let t := tmpl_at s tp in
  let jsa := jsa_at s p in
  let cn := CanonicalName subject in
  let acc := account jsa in
  let r := processInboundTemplateMsg tp subject reply msg s in
  t_jsa t = Some p →
  match streams jsa !! cn with
  | Some _ => r = (tt, s, [])
  | None =>
      if decide (Z.of_nat (length (t_streams t)) >= tcMaxStreams (t_config t))
      then r = (tt, s, [Warnf (WTemplateAtLimit acc subject)])
      else
        let s1 := set_tmpls (<[tp := set_t_streams (t_streams t ++ [cn]) t]> (tmpls s)) s in
        let cfg := materialized t subject in
        t_streams (tmpl_at s1 tp) = t_streams t ++ [cn] ∧
        scName cfg = cn ∧ scSubjects cfg = [subject] ∧
        scTemplate cfg = tcName (t_config t) ∧
        match AddStream acc cfg s1 with
        | (inr mset, s2) =>
            r = (tt, Stream_processInbound mset subject reply msg s2,
                 [CallAddStream acc cfg;
                  CallProcessInbound (scName (stream_config mset)) subject reply msg])
        | (inl _, s2) =>
            r = (tt, final (validateStreams acc tp s2),
                 [CallAddStream acc cfg; Warnf (WTemplateCreateFailed acc subject)])
        end
  end.
Proof.
  intros t jsa cn acc r Hjsa. subst r.
  unfold processInboundTemplateMsg. munfold.
  fold t. rewrite Hjsa. fold jsa cn.
  destruct (streams jsa !! cn) as [mset|]; [done|].
  fold acc.
  destruct (Z.geb_spec (Z.of_nat (length (t_streams t))) (tcMaxStreams (t_config t)))
    as [Hge|Hlt].
  - rewrite decide_True by lia. done.
  - rewrite decide_False by lia. cbv zeta.
    split; [|split; [done|split; [done|split; [done|]]]].
    { unfold tmpl_at. simpl. by rewrite lookup_total_insert_eq. }
    unfold callAddStream. munfold.
    unfold materialized, with_scSubjects, with_scName, with_scTemplate. simpl.
    subst cn.
    match goal with |- context [AddStream ?a ?c ?st] =>
      destruct (AddStream a c st) as [[err|mset] s2] end.
    + unfold validateStreams, final. munfold. simpl. done.
    + done.
Qed.

(** C3. What an inbound message on a template subject does, for a template
    attached to an account: nothing when the account has a stream of the
    canonical name; a warning and nothing else when the template is at its
    cap; otherwise the canonical name is appended to the template's list and
    [AddStream] is called, once and in that state, with the skeleton renamed
    to the canonical name, subscribed to the one subject and tagged with the
    template's name. *)
Theorem processInboundTemplateMsg_spec (tp : TmplPtr) (subject reply msg : string)
    (s : Server) (p : JsaPtr) :
  let t := tmpl_at s tp in
  let jsa := jsa_at s p in
  let cn := CanonicalName subject in
  let acc := account jsa in
  let r := processInboundTemplateMsg tp subject reply msg s in
  t_jsa t = Some p →
  match streams jsa !! cn with
  | Some _ => r = (tt, s, [])
  | None =>
      if decide (Z.of_nat (length (t_streams t)) >= tcMaxStreams (t_config t))
      then r = (tt, s, [Warnf (WTemplateAtLimit acc subject)])
      else
        let s1 := set_tmpls (<[tp := set_t_streams (t_streams t ++ [cn]) t]> (tmpls s)) s in
        let cfg := materialized t subject in
        t_streams (tmpl_at s1 tp) = t_streams t ++ [cn] ∧
        scName cfg = cn ∧ scSubjects cfg = [subject] ∧
        scTemplate cfg = tcName (t_config t) ∧
        match AddStream acc cfg s1 with
        | (inr mset, s2) =>
            r = (tt, Stream_processInbound mset subject reply msg s2,
                 [CallAddStream acc cfg;
                  CallProcessInbound (scName (stream_config mset)) subject reply msg])
        | (inl _, s2) =>
            r = (tt, final (validateStreams acc tp s2),
                 [CallAddStream acc cfg; Warnf (WTemplateCreateFailed acc subject)])
        end
  end.
Proof. exact (processInboundTemplateMsg_run tp subject reply msg s p). Qed.

(** C10. A template whose cap is zero never materializes a stream: whatever
    messages arrive, the state (and with it the template's stream list) is
    left as it was, [AddStream] is never called, and every message either
    finds its stream already there or is logged as at the limit. *)
Theorem template_cap_zero (tp : TmplPtr) (msgs : list InboundMsg) (s : Server) :
  tcMaxStreams (t_config (tmpl_at s tp)) = 0 →
  let r := forM msgs (deliver tp) s in
  final r = s ∧
  t_streams (tmpl_at (final r) tp) = t_streams (tmpl_at s tp) ∧
  (∀ a cfg, CallAddStream a cfg ∉ events r) ∧
  Forall (λ e, ∃ a subject, e = Warnf (WTemplateAtLimit a subject)) (events r).
Proof.
  intros Hcap r.
  assert (Hr : final r = s ∧
    Forall (λ e, ∃ a subject, e = Warnf (WTemplateAtLimit a subject)) (events r)).
  { subst r. induction msgs as [|[[subject reply] msg] msgs IH].
    - split; [done|]. constructor.
    - simpl forM. unfold mbind, M_bind.
      assert (Hstep : ∃ e, deliver tp (subject, reply, msg) s = (tt, s, e) ∧
                Forall (λ e, ∃ a subj, e = Warnf (WTemplateAtLimit a subj)) e).
      { unfold deliver. simpl.
        destruct (t_jsa (tmpl_at s tp)) as [p|] eqn:Hjsa.
        - pose proof (processInboundTemplateMsg_run tp subject reply msg s p) as Hspec.
          cbv zeta in Hspec. specialize (Hspec Hjsa).
          destruct (streams (jsa_at s p) !! CanonicalName subject).
          + rewrite Hspec. eexists. split; [done|]. constructor.
          + rewrite Hcap in Hspec. rewrite decide_True in Hspec by lia.
            rewrite Hspec. eexists. split; [done|]. repeat constructor. eauto.
        - unfold processInboundTemplateMsg. munfold. rewrite Hjsa.
          eexists. split; [done|]. constructor. }
      destruct Hstep as (e & -> & He).
      destruct (forM msgs (deliver tp) s) as [[[] s'] e'] eqn:Hrest.
      unfold final, events in IH |- *. simpl in IH |- *.
      destruct IH as [-> He']. split; [done|]. by apply Forall_app. }
  destruct Hr as [Hfin Hev]. repeat split; try done.
  - by rewrite Hfin.
  - intros a cfg Hin. rewrite Forall_forall in Hev.
    destruct (Hev _ Hin) as (? & ? & ?). discriminate.
Qed.

End TemplateProperties.

(** Three messages on a template with a cap of two: two streams are
    created, the third subject is logged as at the limit. *)
Example template_cap_two :
  let r := forM sim_orders (deliver (C := simCollaborators) 1) (sim_template 2) in
  t_streams (tmpl_at (final r) 1) = ["orders_new"; "orders_paid"] ∧
  (map_to_list (streams (jsa_at (final r) 1))).*1 = ["orders_new"; "orders_paid"] ∧
  last (events r) = Some (Warnf (WTemplateAtLimit "A" "orders.refund")).
Proof. vm_compute. done. Qed.

Lemma processInboundTemplateMsg_spec_witness :
  let r := processInboundTemplateMsg (C := simCollaborators) 1 "orders.new" "" "m1"
             (sim_template 2) in
  t_jsa (tmpl_at (sim_template 2) 1) = Some 1%positive ∧
  events r =
    [CallAddStream "A" (mkStreamConfig "orders_new" ["orders.new"] 0 0 1 MemoryStorage "T");
     CallProcessInbound "orders_new" "orders.new" "" "m1"].
Proof.
  cbv zeta.
  assert (Hjsa : t_jsa (tmpl_at (sim_template 2) 1) = Some 1%positive)
    by (vm_compute; reflexivity).
  split; [exact Hjsa|].
  pose proof (processInboundTemplateMsg_spec (C := simCollaborators) 1
                "orders.new" "" "m1" (sim_template 2) 1) as Hspec.
  cbv zeta in Hspec. specialize (Hspec Hjsa).
  vm_compute in Hspec. destruct Hspec as (_ & _ & _ & _ & Hr).
  vm_compute. exact (f_equal snd Hr).
Defined.

Lemma template_cap_zero_witness :
  tcMaxStreams (t_config (tmpl_at (sim_template 0) 1)) = 0 ∧
  final (forM sim_orders (deliver (C := simCollaborators) 1) (sim_template 0))
    = sim_template 0.
Proof.
  assert (Hcap : tcMaxStreams (t_config (tmpl_at (sim_template 0) 1)) = 0)
    by (vm_compute; reflexivity).
  split; [exact Hcap|].
  exact (proj1 (template_cap_zero (C := simCollaborators) 1 sim_orders
                  (sim_template 0) Hcap)).
Defined.

(* ===================================================================== *)
(** ** Recovery skips entities whose checksum does not match *)
(* ===================================================================== *)

Section RecoveryProperties.
Context {C : Collaborators}.

Lemma ReadFile_Stat (f : gmap string Node) (p c : string) :
  ioutil_ReadFile f p = Some c → is_Some (os_Stat f p).
Proof. unfold ioutil_ReadFile, os_Stat. destruct (f !! p); [eauto|done]. Qed.

Lemma foldM_app {A S} (l1 l2 : list A) (h : S) (body : S → A → M S) (s : Server) :
  foldM (l1 ++ l2) h body s =
    let '(h1, s1, e1) := foldM l1 h body s in
    let '(h2, s2, e2) := foldM l2 h1 body s1 in
    (h2, s2, e1 ++ e2).
Proof.
  revert h s. induction l1 as [|x l1 IH]; intros h s; simpl.
  - munfold. by destruct (foldM l2 h body s) as [[? ?] ?].
  - munfold. destruct (body h x s) as [[h' s'] e'].
    rewrite IH. destruct (foldM l1 h' body s') as [[h1 s1] e1].
    destruct (foldM l2 h1 body s1) as [[h2 s2] e2]. by rewrite app_assoc.
Qed.

(** The templates loop body skips a corrupt entry: one warning, no change
    of state. *)
Lemma recoverTemplate_skip (a : AccId) (tdir fi : string) (hh : Hasher) (s : Server) :
  corrupt (hh_key hh) (fs s) (path_Join [tdir; fi; JetStreamMetaFile])
    (path_Join [tdir; fi; JetStreamMetaFileSum]) →
  ∃ w hh', recoverTemplate a tdir hh fi s = (hh', s, [Warnf w]) ∧
           hh_key hh' = hh_key hh.
Proof.
  intros Hbad. unfold recoverTemplate. munfold.
  destruct Hbad as [Hmiss|buf sum Hbuf Hsum Hne].
  - destruct (ioutil_ReadFile (fs s) _); [rewrite Hmiss|];
      do 2 eexists; split; reflexivity.
  - rewrite Hbuf. destruct (ReadFile_Stat _ _ _ Hsum) as [n ->]. rewrite Hsum.
    cbv zeta. unfold hh_Sum, hh_Write, hh_Reset. simpl. rewrite !append_nil_l.
    destruct (String.eqb_spec
      (hex_EncodeToString (highwayhash_Sum64 (hh_key hh) buf)) sum) as [Heq|_];
      [congruence|].
    simpl. do 2 eexists; split; reflexivity.
Qed.

(** What the body does depends on the hasher only through its key, since
    the hasher is reset before every use. *)
Lemma recoverTemplate_key (a : AccId) (tdir fi : string) (h1 h2 : Hasher) (s : Server) :
  hh_key h1 = hh_key h2 →
  final (recoverTemplate a tdir h1 fi s) = final (recoverTemplate a tdir h2 fi s) ∧
  events (recoverTemplate a tdir h1 fi s) = events (recoverTemplate a tdir h2 fi s) ∧
  hh_key (result (recoverTemplate a tdir h1 fi s))
    = hh_key (result (recoverTemplate a tdir h2 fi s)).
Proof.
  intros Hk. unfold recoverTemplate, final, events, result. munfold.
  destruct (ioutil_ReadFile (fs s) _) as [buf|]; [|done].
  destruct (os_Stat (fs s) _); [|done].
  destruct (ioutil_ReadFile (fs s) _) as [sum|]; [|done].
  cbv zeta. unfold hh_Sum, hh_Write, hh_Reset. simpl. rewrite Hk.
  destruct (negb _); [done|].
  destruct (json_Unmarshal_template buf) as [cfg|]; [|done].
  destruct (AddStreamTemplate a _ s) as [[[err|tp] s'] e']; done.
Qed.

Lemma foldM_recoverTemplate_key (a : AccId) (tdir : string) (l : list string)
    (h1 h2 : Hasher) (s : Server) :
  hh_key h1 = hh_key h2 →
  final (foldM l h1 (recoverTemplate a tdir) s)
    = final (foldM l h2 (recoverTemplate a tdir) s) ∧
  events (foldM l h1 (recoverTemplate a tdir) s)
    = events (foldM l h2 (recoverTemplate a tdir) s).
Proof.
  revert h1 h2 s. induction l as [|fi l IH]; intros h1 h2 s Hk; simpl.
  - done.
  - munfold.
    destruct (recoverTemplate_key a tdir fi h1 h2 s Hk) as (Hf & He & Hr).
    destruct (recoverTemplate a tdir h1 fi s) as [[h1' s1] e1].
    destruct (recoverTemplate a tdir h2 fi s) as [[h2' s2] e2].
    unfold final, events, result in Hf, He, Hr. simpl in Hf, He, Hr. subst s2 e2.
    destruct (IH h1' h2' s1 Hr) as [Hf' He'].
    destruct (foldM l h1' (recoverTemplate a tdir) s1) as [[? ?] ?].
    destruct (foldM l h2' (recoverTemplate a tdir) s1) as [[? ?] ?].
    unfold final, events in *. simpl in *. by subst.
Qed.

Lemma foldM_recoverTemplate_hh_key (a : AccId) (tdir : string) (l : list string)
    (h : Hasher) (s : Server) :
  hh_key (result (foldM l h (recoverTemplate a tdir) s)) = hh_key h.
Proof.
  revert h s. induction l as [|fi l IH]; intros h s; simpl; [done|].
  munfold.
  destruct (recoverTemplate_key a tdir fi h h s eq_refl) as (_ & _ & _).
  assert (Hk : hh_key (result (recoverTemplate a tdir h fi s)) = hh_key h).
  { unfold recoverTemplate, result. munfold.
    destruct (ioutil_ReadFile (fs s) _) as [buf|]; [|done].
    destruct (os_Stat (fs s) _); [|done].
    destruct (ioutil_ReadFile (fs s) _) as [sum|]; [|done].
    cbv zeta. destruct (negb _); [done|].
    destruct (json_Unmarshal_template buf) as [cfg|]; [|done].
    destruct (AddStreamTemplate a _ s) as [[[err|tp] s'] e']; done. }
  destruct (recoverTemplate a tdir h fi s) as [[h' s'] e'].
  specialize (IH h' s').
  destruct (foldM l h' (recoverTemplate a tdir) s') as [[? ?] ?].
  unfold result in *. simpl in *. congruence.
Qed.

Lemma result_bind {A B} (m : M A) (k : A → M B) (s : Server) :
  result ((m ≫= k) s) = result (k (result (m s)) (final (m s))).
Proof.
  unfold result, final. munfold.
  destruct (m s) as [[x s1] e1]. simpl. by destruct (k x s1) as [[? ?] ?].
Qed.

Lemma final_bind {A B} (m : M A) (k : A → M B) (s : Server) :
  final ((m ≫= k) s) = final (k (result (m s)) (final (m s))).
Proof.
  unfold result, final. munfold.
  destruct (m s) as [[x s1] e1]. simpl. by destruct (k x s1) as [[? ?] ?].
Qed.

(** With a 32-byte key the streams loop body never leaves the loop. *)
Lemma recoverStream_continues (a : AccId) (p : JsaPtr) (sdir fi : string) (s : Server) :
  String.length (sha256_Sum256 fi) = 32%nat →
  result (recoverStream a p sdir fi s) = None.
Proof.
  intros Hlen. unfold recoverStream, highwayhash_New64.
  rewrite Hlen, Nat.eqb_refl.
  rewrite result_bind.
  change (result (get s)) with s. change (final (get s)) with s. cbv beta.
  destruct (os_Stat (fs s) _); [|by rewrite result_bind].
  destruct (ioutil_ReadFile (fs s) _); [|by rewrite result_bind].
  destruct (os_Stat (fs s) _); [|by rewrite result_bind].
  destruct (ioutil_ReadFile (fs s) _); [|by rewrite result_bind].
  destruct (negb _); [by rewrite result_bind|].
  destruct (json_Unmarshal_stream _); [|by rewrite result_bind].
  rewrite !result_bind.
  destruct (result (callAddStream _ _ _)); rewrite !result_bind; done.
Qed.

(** The streams loop body skips a corrupt entry. *)
Lemma recoverStream_skip (a : AccId) (p : JsaPtr) (sdir fi : string) (s : Server) :
  String.length (sha256_Sum256 fi) = 32%nat →
  corrupt (sha256_Sum256 fi) (fs s)
    (path_Join [path_Join [sdir; fi]; JetStreamMetaFile])
    (path_Join [path_Join [sdir; fi]; JetStreamMetaFileSum]) →
  ∃ w, recoverStream a p sdir fi s = (None, s, [Warnf w]).
Proof.
  intros Hlen Hbad. unfold recoverStream, highwayhash_New64.
  rewrite Hlen, Nat.eqb_refl. munfold.
  destruct Hbad as [Hmiss|buf sum Hbuf Hsum Hne].
  - destruct (os_Stat (fs s) (path_Join [path_Join [sdir; fi]; JetStreamMetaFile]));
      [|eauto].
    destruct (ioutil_ReadFile (fs s) _); [|eauto]. rewrite Hmiss. eauto.
  - destruct (ReadFile_Stat _ _ _ Hbuf) as [n ->]. rewrite Hbuf.
    destruct (ReadFile_Stat _ _ _ Hsum) as [n' ->]. rewrite Hsum.
    cbv zeta. unfold hh_Sum, hh_Write. simpl. rewrite !append_nil_l.
    destruct (String.eqb_spec
      (hex_EncodeToString (highwayhash_Sum64 (sha256_Sum256 fi) buf)) sum) as [Heq|_];
      [congruence|].
    simpl. eauto.
Qed.

Lemma forM_err_app (l1 l2 : list string) (body : string → M (option error))
    (s : Server) :
  (∀ x s, result (body x s) = None) →
  forM_err (l1 ++ l2) body s =
    let '(_, s1, e1) := forM_err l1 body s in
    let '(r2, s2, e2) := forM_err l2 body s1 in
    (r2, s2, e1 ++ e2).
Proof.
  intros Hbody. revert s. induction l1 as [|x l1 IH]; intros s; simpl.
  - munfold. by destruct (forM_err l2 body s) as [[? ?] ?].
  - munfold. specialize (Hbody x s).
    destruct (body x s) as [[r s'] e']. unfold result in Hbody. simpl in Hbody.
    subst r. rewrite IH. destruct (forM_err l1 body s') as [[r1 s1] e1].
    destruct (forM_err l2 body s1) as [[r2 s2] e2]. by rewrite app_assoc.
Qed.

Lemma forM_err_continues (l : list string) (body : string → M (option error))
    (s : Server) :
  (∀ x s, result (body x s) = None) →
  result (forM_err l body s) = None.
Proof.
  intros Hbody. revert s. induction l as [|x l IH]; intros s; simpl; [done|].
  munfold. specialize (Hbody x s).
  destruct (body x s) as [[r s'] e']. unfold result in Hbody. simpl in Hbody.
  subst r. specialize (IH s').
  destruct (forM_err l body s') as [[r1 s1] e1]. done.
Qed.

(** C2. Recovery with a corrupt entity in the directory listing ends in the
    state it reaches without that entity, and logs the same events with one
    warning more, at the entity's place; in the streams pass no entry makes
    the loop return.  The templates pass checks with the key
    SHA-256("templates"), the streams pass with SHA-256 of the directory
    name. *)
Theorem recovery_checksum_skip :
  (∀ x, String.length (sha256_Sum256 x) = 32%nat) →
  (∀ (a : AccId) (tdir : string) (l1 l2 : list string) (fi : string)
     (hh : Hasher) (s : Server),
     highwayhash_New64 (sha256_Sum256 "templates") = Some hh →
     let r1 := foldM l1 hh (recoverTemplate a tdir) s in
     let r := foldM (l1 ++ fi :: l2) hh (recoverTemplate a tdir) s in
     let r' := foldM (l1 ++ l2) hh (recoverTemplate a tdir) s in
     corrupt (sha256_Sum256 "templates") (fs (final r1))
       (path_Join [tdir; fi; JetStreamMetaFile])
       (path_Join [tdir; fi; JetStreamMetaFileSum]) →
     final r = final r' ∧
     ∃ w e2, events r = events r1 ++ Warnf w :: e2 ∧ events r' = events r1 ++ e2) ∧
  (∀ (a : AccId) (p : JsaPtr) (sdir : string) (l1 l2 : list string) (fi : string)
     (s : Server),
     let r1 := forM_err l1 (recoverStream a p sdir) s in
     let r := forM_err (l1 ++ fi :: l2) (recoverStream a p sdir) s in
     let r' := forM_err (l1 ++ l2) (recoverStream a p sdir) s in
     corrupt (sha256_Sum256 fi) (fs (final r1))
       (path_Join [path_Join [sdir; fi]; JetStreamMetaFile])
       (path_Join [path_Join [sdir; fi]; JetStreamMetaFileSum]) →
     result r = None ∧ result r' = None ∧ final r = final r' ∧
     ∃ w e2, events r = events r1 ++ Warnf w :: e2 ∧ events r' = events r1 ++ e2).
Proof.
  intros Hsha. split.
  - intros a tdir l1 l2 fi hh s Hnew r1 r r' Hbad.
    assert (Hkey : hh_key hh = sha256_Sum256 "templates").
    { unfold highwayhash_New64 in Hnew.
      destruct (String.length _ =? 32)%nat; [|done]. by injection Hnew as <-. }
    subst r r'. rewrite !foldM_app.
    pose proof (foldM_recoverTemplate_hh_key a tdir l1 hh s) as Hk1.
    subst r1. destruct (foldM l1 hh (recoverTemplate a tdir) s) as [[h1 s1] e1].
    unfold final, events, result in *. simpl in Hbad, Hk1 |- *.
    rewrite <- Hkey, <- Hk1 in Hbad.
    destruct (recoverTemplate_skip a tdir fi h1 s1 Hbad) as (w & h1' & Hstep & Hk').
    simpl foldM. munfold. rewrite Hstep.
    destruct (foldM_recoverTemplate_key a tdir l2 h1' h1 s1 Hk') as [Hf He].
    destruct (foldM l2 h1' (recoverTemplate a tdir) s1) as [[h2 s2] e2].
    destruct (foldM l2 h1 (recoverTemplate a tdir) s1) as [[h2' s2'] e2'].
    unfold final, events in Hf, He. simpl in Hf, He |- *. subst s2' e2'.
    split; [done|]. exists w, e2. done.
  - intros a p sdir l1 l2 fi s r1 r r' Hbad.
    assert (Hcont : ∀ x s, result (recoverStream a p sdir x s) = None)
      by (intros; by apply recoverStream_continues).
    split; [by apply forM_err_continues|]. split; [by apply forM_err_continues|].
    subst r r'. rewrite !forM_err_app by done.
    subst r1. destruct (forM_err l1 (recoverStream a p sdir) s) as [[r1 s1] e1].
    unfold final, events in *. simpl in Hbad |- *.
    destruct (recoverStream_skip a p sdir fi s1 (Hsha fi) Hbad) as (w & Hstep).
    simpl forM_err. munfold. rewrite Hstep.
    destruct (forM_err l2 (recoverStream a p sdir) s1) as [[r2 s2] e2].
    simpl. split; [done|]. exists w, e2. done.
Qed.

End RecoveryProperties.

Lemma take_pad_length (n : nat) (s : string) : String.length (take_pad n s) = n.
Proof.
  revert s. induction n as [|n IH]; intros s; [done|].
  destruct s; simpl; by rewrite IH.
Qed.

(** Enabling the account recovers [TB] and [S1] and warns about the two
    others. *)
Example recovery_two_templates :
  let r := EnableJetStream (C := simCollaborators) "A"
             (Some (mkLimits GiB (10 * GiB) (-1) (-1))) sim_disk_server in
  result r = None ∧
  (fmap (M := option) (λ m, (map_to_list m).*1) (templates (jsa_at (final r) 1)))
    = Some ["TB"] ∧
  (map_to_list (streams (jsa_at (final r) 1))).*1 = ["S1"] ∧
  events r =
    [Warnf (WTemplateChecksum "deadbeefdeadbeef" "544174656d706c61");
     CallAddStream "A" (mkStreamConfig "S1" ["S1"] 0 0 1 FileStorage "");
     Warnf (WStreamMissingSum "/js/A/streams/S2/meta.sum")].
Proof. vm_compute. done. Qed.

Lemma recovery_checksum_skip_witness :
  let hh := mkHasher (take_pad 32 "templates") "" in
  let body := recoverTemplate (C := simCollaborators) "A" "/js/A/templates" in
  (∀ x, String.length (take_pad 32 x) = 32%nat) ∧
  corrupt (C := simCollaborators) (take_pad 32 "templates") sim_disk
    "/js/A/templates/TA/meta.inf" "/js/A/templates/TA/meta.sum" ∧
  final (foldM ["TA"; "TB"] hh body sim_disk_enabled)
    = final (foldM ["TB"] hh body sim_disk_enabled).
Proof.
  cbv zeta.
  assert (Hbad : corrupt (C := simCollaborators) (take_pad 32 "templates") sim_disk
            "/js/A/templates/TA/meta.inf" "/js/A/templates/TA/meta.sum").
  { apply (corrupt_differs _ _ _ _ "TA" "deadbeefdeadbeef").
    - vm_compute. reflexivity.
    - vm_compute. reflexivity.
    - vm_compute. discriminate. }
  split; [exact (take_pad_length 32)|]. split; [exact Hbad|].
  exact (proj1 (proj1 (recovery_checksum_skip (C := simCollaborators)
                         (take_pad_length 32))
                  "A" "/js/A/templates" [] ["TB"] "TA"
                  (mkHasher (take_pad 32 "templates") "") sim_disk_enabled
                  eq_refl Hbad)).
Defined.

(* ===================================================================== *)
(** ** The ledger accounts for the enabled accounts *)
(* ===================================================================== *)

(** *** Sums *)

Lemma sumZ_empty : sumZ ∅ = 0.
Proof. unfold sumZ. by rewrite map_fold_empty. Qed.

Lemma sumZ_insert (m : gmap AccId Z) (a : AccId) (z : Z) :
  m !! a = None → sumZ (<[a := z]> m) = z + sumZ m.
Proof.
  intros Hm. unfold sumZ. rewrite map_fold_insert_L; [done| |done].
  intros. lia.
Qed.

Lemma sumZ_delete (m : gmap AccId Z) (a : AccId) (z : Z) :
  m !! a = Some z → sumZ m = z + sumZ (delete a m).
Proof.
  intros Hm. rewrite <- (insert_delete_id m a z Hm) at 1.
  apply sumZ_insert. apply lookup_delete_eq.
Qed.

Lemma wrap64_reserve (x l : Z) :
  (if l >? 0 then add64 (wrap64 x) l else wrap64 x) = wrap64 (Z.max 0 l + x).
Proof.
  destruct (Z.gtb_spec l 0).
  - unfold add64. rewrite wrap64_add_l. f_equal. lia.
  - f_equal. lia.
Qed.

Lemma wrap64_release (x l : Z) :
  (if l >? 0 then sub64 (wrap64 x) l else wrap64 x) = wrap64 (x - Z.max 0 l).
Proof.
  destruct (Z.gtb_spec l 0).
  - unfold sub64. rewrite wrap64_sub_l. f_equal. lia.
  - f_equal. lia.
Qed.

(** *** Frames *)

Lemma ledger_frame_refl (s : Server) : ledger_frame s s.
Proof. by split. Qed.

Lemma ledger_frame_trans (s1 s2 s3 : Server) :
  ledger_frame s1 s2 → ledger_frame s2 s3 → ledger_frame s1 s3.
Proof.
  intros [? ? ? Ha1 Hv1] [? ? ? Ha2 Hv2].
  split; [congruence|congruence|congruence|intros q Hq; auto|].
  intros q. by rewrite Hv2.
Qed.

Lemma frame_set_tmpls (h : gmap TmplPtr StreamTemplate) (s : Server) :
  ledger_frame s (set_tmpls h s).
Proof. by split. Qed.

Lemma frame_set_jsas (p : JsaPtr) (j' : jsAccount) (s : Server) :
  acctView j' = acctView (jsas s !!! p) →
  ledger_frame s (set_jsas (<[p := j']> (jsas s)) s).
Proof.
  intros Hv. split; try done; simpl.
  - intros q Hq. destruct (decide (p = q)) as [->|Hne].
    + rewrite lookup_insert_eq. eauto.
    + by rewrite lookup_insert_ne.
  - intros q. destruct (decide (p = q)) as [->|Hne].
    + by rewrite lookup_total_insert_eq.
    + by rewrite lookup_total_insert_ne.
Qed.

Lemma frames_ret {A} (x : A) : frames (mret x).
Proof. intros s. apply ledger_frame_refl. Qed.

Lemma frames_get : frames get.
Proof. intros s. apply ledger_frame_refl. Qed.

Lemma frames_emit (e : Event) : frames (emit e).
Proof. intros s. apply ledger_frame_refl. Qed.

Lemma frames_warn (w : Warning) : frames (warn w).
Proof. apply frames_emit. Qed.

Lemma frames_call {A} (f : Server → A * Server) :
  (∀ s, ledger_frame s (f s).2) → frames (call f).
Proof. intros Hf s. specialize (Hf s). unfold call, final. by destruct (f s). Qed.

Lemma frames_exec (f : Server → Server) :
  (∀ s, ledger_frame s (f s)) → frames (exec f).
Proof. intros Hf s. apply Hf. Qed.

Lemma frame_bind_at {A B} (m : M A) (k : A → M B) (s : Server) :
  ledger_frame s (final (m s)) → (∀ x, frames (k x)) →
  ledger_frame s (final ((m ≫= k) s)).
Proof.
  intros Hm Hk. rewrite final_bind.
  eapply ledger_frame_trans; [exact Hm|apply Hk].
Qed.

Lemma frames_bind {A B} (m : M A) (k : A → M B) :
  frames m → (∀ x, frames (k x)) → frames (m ≫= k).
Proof. intros Hm Hk s. by apply frame_bind_at. Qed.

(** After [get] the continuation runs in the state it was given. *)
Lemma frames_get_bind {B} (k : Server → M B) :
  (∀ s, ledger_frame s (final (k s s))) → frames (get ≫= k).
Proof. intros Hk s. rewrite final_bind. apply Hk. Qed.

Lemma frames_store_tmpl (tp : TmplPtr) (t : StreamTemplate) :
  frames (store_tmpl tp t).
Proof. intros s. apply frame_set_tmpls. Qed.

Lemma frame_store_jsa_at (p : JsaPtr) (j' : jsAccount) (s : Server) :
  acctView j' = acctView (jsas s !!! p) →
  ledger_frame s (final (store_jsa p j' s)).
Proof. intros Hv. by apply frame_set_jsas. Qed.

Lemma frames_forM {A} (l : list A) (body : A → M unit) :
  (∀ x, frames (body x)) → frames (forM l body).
Proof.
  intros Hb. induction l as [|x l IH]; simpl.
  - apply frames_ret.
  - apply frames_bind; [apply Hb|by intros].
Qed.

Lemma frames_foldM {A S} (l : list A) (h : S) (body : S → A → M S) :
  (∀ h x, frames (body h x)) → frames (foldM l h body).
Proof.
  intros Hb. revert h. induction l as [|x l IH]; intros h; simpl.
  - apply frames_ret.
  - apply frames_bind; [apply Hb|by intros].
Qed.

Lemma frames_forM_err {A} (l : list A) (body : A → M (option error)) :
  (∀ x, frames (body x)) → frames (forM_err l body).
Proof.
  intros Hb. induction l as [|x l IH]; simpl.
  - apply frames_ret.
  - apply frames_bind; [apply Hb|]. intros [err|]; [apply frames_ret|done].
Qed.

Lemma frames_orReturn (c k : M (option error)) :
  frames c → frames k → frames (orReturn c k).
Proof.
  intros Hc Hk. apply frames_bind; [done|].
  intros [err|]; [apply frames_ret|done].
Qed.

(** One step of a frame proof, by the shape of the operation. *)
Ltac frames_step :=
  lazymatch goal with
  | |- frames (mret _) => apply frames_ret
  | |- frames (warn _) => apply frames_warn
  | |- frames (emit _) => apply frames_emit
  | |- frames get => apply frames_get
  | |- frames (store_tmpl _ _) => apply frames_store_tmpl
  | |- frames (call _) =>
      apply frames_call; intros;
      first [ apply frame_os_MkdirAll | apply frame_AddStream
            | apply frame_Stream_Delete | apply frame_Stream_AddConsumer
            | apply frame_Consumer_readStoredState
            | apply frame_TemplateStore_Store | apply frame_TemplateStore_Delete ]
  | |- frames (exec _) =>
      apply frames_exec; intros;
      first [ apply frame_os_RemoveAll | apply frame_Stream_stop
            | apply frame_Stream_setCreated | apply frame_Consumer_switchToEphemeral
            | apply frame_Consumer_setCreated ]
  | |- frames (orReturn _ _) => apply frames_orReturn
  | |- frames (forM _ _) => apply frames_forM; intros ?
  | |- frames (foldM _ _ _) => apply frames_foldM; intros ? ?
  | |- frames (forM_err _ _) => apply frames_forM_err; intros ?
  | |- frames (_ ≫= _) => apply frames_bind; [|intros ?]
  | |- frames (match ?x with _ => _ end) => destruct x
  | |- frames _ => progress cbv zeta
  end.

Ltac frames_auto := repeat frames_step.

Section LedgerFrames.
Context {C : Collaborators} {F : CollaboratorsFrame}.


Lemma frames_validateStreams (a : AccId) (tp : TmplPtr) :
  frames (validateStreams a tp).
Proof. unfold validateStreams. frames_auto. Qed.

Lemma frames_addStreamNameToTemplate (p : JsaPtr) (tname mname : string) :
  frames (addStreamNameToTemplate p tname mname).
Proof. unfold addStreamNameToTemplate. frames_auto. Qed.

Lemma frames_callAddStream (a : AccId) (cfg : StreamConfig) :
  frames (callAddStream a cfg).
Proof. unfold callAddStream. frames_auto. Qed.

Lemma frames_StreamTemplate_Delete (tp : TmplPtr) :
  frames (StreamTemplate_Delete tp).
Proof.
  unfold StreamTemplate_Delete.
  apply frames_bind; [apply frames_get|]. intros s.
  apply frames_bind; [apply frames_store_tmpl|]. intros _.
  destruct (t_jsa _) as [p|]; [|apply frames_ret].
  apply frames_get_bind. intros s'. cbv zeta.
  destruct (templates _) as [m|]; [|apply frames_ret].
  destruct (m !! _); [|apply frames_ret].
  apply frame_bind_at; [by apply frame_store_jsa_at|].
  intros _. frames_auto.
Qed.

Lemma frames_DeleteStreamTemplate (a : AccId) (name : string) :
  frames (DeleteStreamTemplate a name).
Proof.
  unfold DeleteStreamTemplate. frames_auto. apply frames_StreamTemplate_Delete.
Qed.

Lemma frames_subscribeAll (tp : TmplPtr) (acc name : string)
    (subjects : list string) (sid : nat) :
  frames (subscribeAll tp acc name subjects sid).
Proof.
  revert sid. induction subjects as [|subject rest IH]; intros sid; simpl.
  - apply frames_ret.
  - frames_auto; [apply frames_DeleteStreamTemplate|apply IH].
Qed.

Lemma frames_createTemplateSubscriptions (tp : TmplPtr) :
  frames (createTemplateSubscriptions tp).
Proof.
  unfold createTemplateSubscriptions. frames_auto. apply frames_subscribeAll.
Qed.

Lemma frames_AddStreamTemplate (a : AccId) (tc : StreamTemplateConfig) :
  frames (AddStreamTemplate a tc).
Proof.
  unfold AddStreamTemplate.
  apply frames_bind; [apply frames_get|]. intros s.
  destruct (checkForJetStream s a) as [err|p]; [apply frames_ret|].
  destruct (negb _); [apply frames_ret|].
  destruct (_ <? _)%nat; [apply frames_ret|].
  destruct (checkStreamCfg _) as [err|cfg]; [apply frames_ret|]. cbv zeta.
  apply frames_bind; [apply frames_store_tmpl|]. intros _.
  apply frames_get_bind. intros s'. cbv zeta.
  match goal with |- ledger_frame _ (final (match ?x with _ => _ end _)) =>
    destruct x as [err|[m st]] end; [apply frames_ret|].
  apply frame_bind_at; [by apply frame_store_jsa_at|].
  intros _. frames_auto.
  - apply frames_createTemplateSubscriptions.
  - apply frames_StreamTemplate_Delete.
Qed.

Lemma frames_recoverTemplate (a : AccId) (tdir : string) (hh : Hasher) (fi : string) :
  frames (recoverTemplate a tdir hh fi).
Proof. unfold recoverTemplate. frames_auto. apply frames_AddStreamTemplate. Qed.

Lemma frames_recoverConsumer (mset : Stream) (odir ofi : string) :
  frames (recoverConsumer mset odir ofi).
Proof. unfold recoverConsumer. frames_auto. Qed.

Lemma frames_recoverStream (a : AccId) (p : JsaPtr) (sdir fi : string) :
  frames (recoverStream a p sdir fi).
Proof.
  unfold recoverStream. frames_auto;
    first [ apply frames_addStreamNameToTemplate | apply frames_callAddStream
          | apply frames_recoverConsumer ].
Qed.

Lemma frames_recoverTemplates (a : AccId) (tdir : string) :
  frames (recoverTemplates a tdir).
Proof. unfold recoverTemplates. frames_auto. apply frames_recoverTemplate. Qed.

Lemma frames_recoverStreams (a : AccId) (p : JsaPtr) (sdir : string) :
  frames (recoverStreams a p sdir).
Proof. unfold recoverStreams. frames_auto. apply frames_recoverStream. Qed.

Lemma frames_enableAllJetStreamServiceImports (a : AccId) :
  frames (enableAllJetStreamServiceImports a).
Proof. unfold enableAllJetStreamServiceImports. frames_auto. Qed.

Lemma frames_jsAccount_delete (p : JsaPtr) : frames (jsAccount_delete p).
Proof.
  unfold jsAccount_delete. apply frames_get_bind. intros s. cbv zeta.
  apply frame_bind_at; [by apply frame_store_jsa_at|].
  intros _. frames_auto. apply frames_DeleteStreamTemplate.
Qed.

End LedgerFrames.

(** *** The sums under the changes the operations make *)

Lemma limitsSum_ext (f : JetStreamAccountLimits → Z) (h h' : gmap JsaPtr jsAccount)
    (accts : gmap AccId JsaPtr) :
  (∀ b q, accts !! b = Some q → limits (h' !!! q) = limits (h !!! q)) →
  limitsSum f h' accts = limitsSum f h accts.
Proof.
  intros Hext. unfold limitsSum. f_equal.
  apply map_fmap_ext. intros b q Hq. by rewrite (Hext b q Hq).
Qed.

Lemma limitsSum_insert (f : JetStreamAccountLimits → Z) (h : gmap JsaPtr jsAccount)
    (accts : gmap AccId JsaPtr) (a : AccId) (p : JsaPtr) :
  accts !! a = None →
  limitsSum f h (<[a := p]> accts) = f (limits (h !!! p)) + limitsSum f h accts.
Proof.
  intros Ha. unfold limitsSum. rewrite fmap_insert.
  apply sumZ_insert. by rewrite lookup_fmap, Ha.
Qed.

Lemma limitsSum_delete (f : JetStreamAccountLimits → Z) (h : gmap JsaPtr jsAccount)
    (accts : gmap AccId JsaPtr) (a : AccId) (p : JsaPtr) :
  accts !! a = Some p →
  limitsSum f h accts = f (limits (h !!! p)) + limitsSum f h (delete a accts).
Proof.
  intros Ha. unfold limitsSum. rewrite fmap_delete.
  apply sumZ_delete. by rewrite lookup_fmap, Ha.
Qed.

Lemma limitsSum_empty (f : JetStreamAccountLimits → Z) (h : gmap JsaPtr jsAccount) :
  limitsSum f h ∅ = 0.
Proof. unfold limitsSum. rewrite fmap_empty. apply sumZ_empty. Qed.

Lemma reservedSum_nonneg (f : JetStreamAccountLimits → Z) (h : gmap JsaPtr jsAccount)
    (accts : gmap AccId JsaPtr) :
  0 <= reservedSum f h accts.
Proof.
  unfold reservedSum. induction accts as [|a p accts Ha _ IH] using map_first_key_ind.
  - by rewrite limitsSum_empty.
  - rewrite limitsSum_insert by done. lia.
Qed.

Section LedgerInvariant.
Context {C : Collaborators} {F : CollaboratorsFrame}.

Lemma frames_at {A} (m : M A) (s : Server) :
  frames m → ledger_frame s (final (m s)).
Proof. intros Hm. apply Hm. Qed.

Lemma ledger_inv_frame (s s' : Server) (j : jetStream) :
  ledger_frame s s' → ledger_inv s j → ledger_inv s' j.
Proof.
  intros [Hjs Hsrv Hacc Halloc Hview] [Ij Ia Ie Im Is].
  assert (Hlim : ∀ q, limits (jsas s' !!! q) = limits (jsas s !!! q)).
  { intros q. specialize (Hview q). unfold acctView in Hview. congruence. }
  split.
  - congruence.
  - congruence.
  - intros a p Hp. destruct (Ie a p Hp) as (Hal & Hown & Hreg).
    split; [auto|]. split.
    + specialize (Hview p). unfold acctView in Hview. congruence.
    + by rewrite Hsrv.
  - rewrite Im. f_equal. symmetry. apply limitsSum_ext. auto.
  - rewrite Is. f_equal. symmetry. apply limitsSum_ext. auto.
Qed.

(** Two entries of the ledger's table point to different objects. *)
Lemma ledger_inv_inj (s : Server) (j : jetStream) (a b : AccId) (p : JsaPtr) :
  ledger_inv s j → accounts j !! a = Some p → accounts j !! b = Some p → a = b.
Proof.
  intros [_ _ Ie _ _] Ha Hb.
  destruct (Ie a p Ha) as (_ & <- & _). by destruct (Ie b p Hb) as (_ & <- & _).
Qed.

Lemma EnableJetStream_inv (a : AccId) (l : option JetStreamAccountLimits)
    (s : Server) (j : jetStream) :
  ledger_inv s j → ∃ j', ledger_inv (final (EnableJetStream a l s)) j'.
Proof.
  intros Hinv. pose proof Hinv as [Ij Ia Ie Im Is].
  unfold EnableJetStream. rewrite final_bind.
  change (result (get s)) with s. change (final (get s)) with s. cbv beta.
  destruct (decide (a ∈ acc_srv s)) as [Hreg|]; [|by exists j].
  rewrite Ij. destruct (decide (sysAccount s = Some a)); [by exists j|].
  cbv zeta. destruct (accounts j !! a) as [p0|] eqn:Hacc; [by exists j|].
  destruct (sufficientResources j _) as [err|]; [by exists j|].
  set (l' := match l with Some l0 => l0 | None => dynamicAccountLimits j end).
  set (p := fresh (dom (jsas s))).
  assert (Hfresh : jsas s !! p = None).
  { apply not_elem_of_dom. apply is_fresh. }
  rewrite final_bind.
  match goal with |- context [final (put ?st s)] =>
    change (final (put st s)) with st; set (s1 := st) end.
  match goal with |- ∃ j', ledger_inv (final (?tail s1)) j' =>
    assert (Htail : frames tail) end.
  { cbv beta. frames_auto;
      first [ apply frames_enableAllJetStreamServiceImports
            | apply frames_recoverTemplates | apply frames_recoverStreams ]. }
  exists (reserveResources
            (mkJetStream (config j) (<[a := p]> (accounts j)) (memReserved j)
               (storeReserved j)) (Some l')).
  apply (ledger_inv_frame s1); [apply frames_at, Htail|].
  assert (Hother : ∀ b q, accounts j !! b = Some q →
            limits (<[p := mkJsAccount a l' 0 0 0 0
                       (path_Join [StoreDir (config j); a]) ∅ None None]> (jsas s) !!! q)
            = limits (jsas s !!! q)).
  { intros b q Hq. destruct (Ie b q Hq) as ([x Hx] & _ & _).
    rewrite lookup_total_insert_ne; [done|]. intros ->. congruence. }
  subst s1. split; simpl.
  - done.
  - by rewrite Ia.
  - intros b q Hq. destruct (decide (a = b)) as [->|Hne].
    + rewrite lookup_insert_eq in Hq. injection Hq as <-.
      rewrite lookup_insert_eq, lookup_total_insert_eq. eauto.
    + rewrite lookup_insert_ne in Hq by done.
      destruct (Ie b q Hq) as ([x Hx] & Hown & Hregb).
      assert (p ≠ q) by (intros ->; congruence).
      rewrite lookup_insert_ne, lookup_total_insert_ne by done. eauto.
  - rewrite Im, wrap64_reserve. f_equal. unfold reservedSum.
    rewrite limitsSum_insert by done. rewrite lookup_total_insert_eq. simpl.
    f_equal. symmetry. by apply limitsSum_ext.
  - rewrite Is, wrap64_reserve. f_equal. unfold reservedSum.
    rewrite limitsSum_insert by done. rewrite lookup_total_insert_eq. simpl.
    f_equal. symmetry. by apply limitsSum_ext.
Qed.

Lemma UpdateJetStreamLimits_inv (a : AccId) (l : option JetStreamAccountLimits)
    (s : Server) (j : jetStream) :
  ledger_inv s j → ∃ j', ledger_inv (final (UpdateJetStreamLimits a l s)) j'.
Proof.
  intros Hinv. pose proof Hinv as [Ij Ia Ie Im Is].
  unfold UpdateJetStreamLimits, final. munfold.
  destruct (decide (a ∈ acc_srv s)) as [Hreg|]; [|by exists j].
  rewrite Ij. destruct (acc_js s !! a) as [p|] eqn:Hp; [|by exists j].
  cbv zeta. destruct (sufficientResources j _) as [err|]; [by exists j|].
  set (l' := match l with Some l0 => l0 | None => dynamicAccountLimits j end).
  rewrite Ia in Hp. destruct (Ie a p Hp) as ([x Hx] & Hown & _).
  simpl. unfold jsa_at. simpl.
  set (old := limits (jsas s !!! p)).
  set (h' := <[p := set_limits l' (jsas s !!! p)]> (jsas s)).
  assert (Hother : ∀ b q, delete a (accounts j) !! b = Some q →
            limits (h' !!! q) = limits (jsas s !!! q)).
  { intros b q Hq. apply lookup_delete_Some in Hq as [Hne Hq].
    subst h'. rewrite lookup_total_insert_ne; [done|]. intros <-.
    apply Hne. by apply (ledger_inv_inj s j a b p). }
  assert (Hsum : ∀ f, reservedSum f h' (accounts j)
            = Z.max 0 (f l') + (reservedSum f (jsas s) (accounts j) - Z.max 0 (f old))).
  { intros f. unfold reservedSum.
    rewrite (limitsSum_delete _ h' _ a p Hp), (limitsSum_delete _ (jsas s) _ a p Hp).
    rewrite (limitsSum_ext _ (jsas s) h' _ Hother).
    subst h'. rewrite lookup_total_insert_eq. simpl. fold old. lia. }
  eexists. split; simpl.
  - reflexivity.
  - done.
  - intros b q Hq. simpl in Hq.
    destruct (Ie b q Hq) as ([y Hy] & Hownb & Hregb). subst h'.
    destruct (decide (p = q)) as [<-|Hne].
    + rewrite lookup_insert_eq, lookup_total_insert_eq. simpl. eauto.
    + rewrite lookup_insert_ne, lookup_total_insert_ne by done. eauto.
  - simpl. rewrite Hsum, Im, wrap64_release, wrap64_reserve. done.
  - simpl. rewrite Hsum, Is, wrap64_release, wrap64_reserve. done.
Qed.

Lemma DisableJetStream_inv (a : AccId) (s : Server) (j : jetStream) :
  ledger_inv s j → ∃ j', ledger_inv (final (DisableJetStream a s)) j'.
Proof.
  intros Hinv. pose proof Hinv as [Ij Ia Ie Im Is].
  unfold DisableJetStream. rewrite final_bind.
  change (result (get s)) with s. change (final (get s)) with s. cbv beta.
  rewrite final_bind.
  match goal with |- context [final (put ?st s)] =>
    change (final (put st s)) with st; set (s1 := st) end.
  destruct (accounts j !! a) as [p|] eqn:Hp.
  - destruct (Ie a p Hp) as ([x Hx] & Hown & Hreg).
    rewrite decide_True by done. rewrite Ij. unfold lookupAccount. rewrite Hp.
    unfold disableJetStream. rewrite final_bind.
    change (result (get s1)) with s1. change (final (get s1)) with s1. cbv beta zeta.
    rewrite final_bind.
    match goal with |- context [final (put ?st s1)] =>
      change (final (put st s1)) with st; set (s2 := st) end.
    rewrite final_bind.
    eexists. apply (ledger_inv_frame s2).
    { apply (ledger_frame_trans _ (final (jsAccount_delete p s2)));
        [apply frames_jsAccount_delete|apply ledger_frame_refl]. }
    subst s2 s1. unfold jsa_at. simpl. rewrite Hown.
    split; simpl.
    + reflexivity.
    + by rewrite Ia.
    + intros b q Hq. simpl in Hq. apply lookup_delete_Some in Hq as [_ Hq]. auto.
    + simpl. rewrite Im, wrap64_release. f_equal. unfold reservedSum.
      rewrite (limitsSum_delete _ _ _ a p Hp). cbv beta. lia.
    + simpl. rewrite Is, wrap64_release. f_equal. unfold reservedSum.
      rewrite (limitsSum_delete _ _ _ a p Hp). cbv beta. lia.
  - assert (Hs1 : ledger_inv s1 j).
    { subst s1. split; simpl; try done.
      rewrite Ia. by apply delete_id. }
    destruct (decide (a ∈ acc_srv s)); [|by exists j].
    rewrite Ij. unfold lookupAccount. rewrite Hp. by exists j.
Qed.

Lemma runOps_inv (ops : list Op) (s : Server) (j : jetStream) :
  ledger_inv s j → ∃ j', ledger_inv (final (runOps ops s)) j'.
Proof.
  revert s j. induction ops as [|op ops IH]; intros s j Hinv; simpl.
  - by exists j.
  - rewrite final_bind.
    assert (Hop : ∃ j', ledger_inv (final (runOp op s)) j').
    { destruct op; simpl.
      - by apply (EnableJetStream_inv a l s j).
      - by apply (UpdateJetStreamLimits_inv a l s j).
      - by apply (DisableJetStream_inv a s j). }
    destruct Hop as [j1 Hj1]. rewrite final_bind.
    destruct (IH _ _ Hj1) as [j2 Hj2]. by exists j2.
Qed.

(** In every state reached from a fresh server the two counters are the
    sums of the enabled accounts' positive limits, in 64-bit arithmetic. *)
Lemma ledger_accounting_mod (ops : list Op) (s0 : Server) (cfg : JetStreamConfig) :
  js s0 = Some (mkJetStream cfg ∅ 0 0) →
  acc_js s0 = ∅ →
  ∃ j, ledger_inv (final (runOps ops s0)) j.
Proof.
  intros Hjs Hacc. apply (runOps_inv ops s0 (mkJetStream cfg ∅ 0 0)).
  split; simpl; done.
Qed.

(** C1, amended. From a freshly enabled server (nothing reserved, no
    account enabled), after any sequence of successful enable, update and
    disable operations, the accounts with a JetStream pointer are those of
    the ledger's table, and each counter is the sum, over these accounts,
    of the positive part of the limit (a limit that is not positive
    counts as zero), as long as that sum fits in an [int64]. *)
Theorem ledger_accounting (ops : list Op) (s0 : Server) (cfg : JetStreamConfig) :
  js s0 = Some (mkJetStream cfg ∅ 0 0) →
  acc_js s0 = ∅ →
  let r := runOps ops s0 in
  Forall (λ err, err = None) (result r) →
  ∃ j, js (final r) = Some j ∧
       acc_js (final r) = accounts j ∧
       (reservedSum MaxMemory (jsas (final r)) (accounts j) <= MaxInt64 →
        memReserved j = reservedSum MaxMemory (jsas (final r)) (accounts j)) ∧
       (reservedSum MaxStore (jsas (final r)) (accounts j) <= MaxInt64 →
        storeReserved j = reservedSum MaxStore (jsas (final r)) (accounts j)).
Proof.
  intros Hjs Hacc r _.
  destruct (ledger_accounting_mod ops s0 cfg Hjs Hacc) as [j [Ij Ia _ Im Is]].
  exists j. fold r in Ij, Ia, Im, Is. repeat split; try done.
  - intros Hfit. rewrite Im. apply wrap64_id.
    pose proof (reservedSum_nonneg MaxMemory (jsas (final r)) (accounts j)).
    unfold is_int64, MinInt64. lia.
  - intros Hfit. rewrite Is. apply wrap64_id.
    pose proof (reservedSum_nonneg MaxStore (jsas (final r)) (accounts j)).
    unfold is_int64, MinInt64. lia.
Qed.

End LedgerInvariant.

(** The stand-in collaborators keep away from the ledger. *)
Lemma simCollaborators_frame : CollaboratorsFrame (C := simCollaborators).
Proof.
  split; intros; simpl; try apply ledger_frame_refl.
  unfold sim_AddStream. destruct (acc_js s !! a) as [p|]; [|apply ledger_frame_refl].
  destruct (checkLimits _ cfg); [apply ledger_frame_refl|].
  simpl. by apply frame_set_jsas.
Qed.

Lemma ledger_accounting_witness :
  let r := runOps (C := simCollaborators) sim_ops (sim_server (4 * GiB) (20 * GiB)) in
  Forall (λ err, err = None) (result r) ∧
  ∃ j, js (final r) = Some j ∧
       acc_js (final r) = accounts j ∧
       (reservedSum MaxMemory (jsas (final r)) (accounts j) <= MaxInt64 →
        memReserved j = reservedSum MaxMemory (jsas (final r)) (accounts j)) ∧
       (reservedSum MaxStore (jsas (final r)) (accounts j) <= MaxInt64 →
        storeReserved j = reservedSum MaxStore (jsas (final r)) (accounts j)).
Proof.
  cbv zeta.
  assert (Hok : Forall (λ err, err = None)
            (result (runOps (C := simCollaborators) sim_ops
                       (sim_server (4 * GiB) (20 * GiB))))).
  { vm_compute. repeat constructor. }
  split; [exact Hok|].
  exact (ledger_accounting (C := simCollaborators) (F := simCollaborators_frame)
           sim_ops (sim_server (4 * GiB) (20 * GiB))
           (mkJetStreamConfig (4 * GiB) (20 * GiB) "/js") eq_refl eq_refl Hok).
Defined.

(** In that run the ledger ends with the 2 GiB and 8 GiB of account [A]. *)
Example ledger_after_sim_ops :
  let r := runOps (C := simCollaborators) sim_ops (sim_server (4 * GiB) (20 * GiB)) in
  (memReserved <$> js (final r)) = Some (2 * GiB) ∧
  (storeReserved <$> js (final r)) = Some (8 * GiB) ∧
  (map_to_list <$> (accounts <$> js (final r))) = Some [("A", 1%positive)].
Proof. vm_compute. done. Qed.

(** C1 as stated fails: an account enabled with a negative memory limit
    reserves nothing, so the counter is 0 while the sum of the enabled
    accounts' limits is -1. *)
Lemma ledger_accounting_counterexample :
  let r := runOps (C := simCollaborators)
             [OpEnable "A" (Some (mkLimits (-1) (10 * GiB) (-1) (-1)))]
             (sim_server (4 * GiB) (20 * GiB)) in
  Forall (λ err, err = None) (result r) ∧
  ∃ j, js (final r) = Some j ∧
       memReserved j = 0 ∧
       limitsSum MaxMemory (jsas (final r)) (accounts j) = -1 ∧
       memReserved j ≠ limitsSum MaxMemory (jsas (final r)) (accounts j).
Proof.
  cbv zeta. split; [vm_compute; repeat constructor|].
  exists (mkJetStream (mkJetStreamConfig (4 * GiB) (20 * GiB) "/js")
            {["A" := 1%positive]} 0 (10 * GiB)).
  split; [vm_compute; reflexivity|].
  assert (Hsum : limitsSum MaxMemory
            (jsas (final (runOps (C := simCollaborators)
                     [OpEnable "A" (Some (mkLimits (-1) (10 * GiB) (-1) (-1)))]
                     (sim_server (4 * GiB) (20 * GiB)))))
            {["A" := 1%positive]} = -1) by (vm_compute; reflexivity).
  split; [reflexivity|]. split; [exact Hsum|].
  cbn [memReserved accounts]. rewrite Hsum. discriminate.
Qed.

(** With sums beyond the [int64] range the counter wraps: after an account
    of one byte, the sufficiency check lets an account of [MaxInt64] bytes
    in, and the counter ends at [MinInt64]. *)
Example ledger_overflow_run :
  let r := runOps (C := simCollaborators)
             [OpEnable "A" (Some (mkLimits 1 1 (-1) (-1)));
              OpEnable "B" (Some (mkLimits MaxInt64 1 (-1) (-1)))]
             (sim_server 1000 1000) in
  result r = [None; None] ∧
  (memReserved <$> js (final r)) = Some MinInt64.
Proof. vm_compute. done. Qed.

(* ===================================================================== *)
(** * Further properties of the ledger, the names and the reports *)
(* ===================================================================== *)

(** ** The ledger's arithmetic *)

(** Reserving and releasing the same limits cancel out. *)
Lemma reserve_release_id (j : jetStream) (l : option JetStreamAccountLimits) :
  is_int64 (memReserved j) → is_int64 (storeReserved j) →
  releaseResources (reserveResources j l) l = j ∧
  reserveResources (releaseResources j l) l = j.
Proof.
  intros Hm Hs. destruct j as [cfg accts mem sto], l as [l|]; [|done].
  simpl in Hm, Hs. unfold releaseResources, reserveResources. simpl.
  destruct (MaxMemory l >? 0), (MaxStore l >? 0); split; f_equal;
    unfold add64, sub64;
    rewrite ?wrap64_sub_l, ?wrap64_add_l;
    try (replace (mem + MaxMemory l - MaxMemory l) with mem by lia);
    try (replace (mem - MaxMemory l + MaxMemory l) with mem by lia);
    try (replace (sto + MaxStore l - MaxStore l) with sto by lia);
    try (replace (sto - MaxStore l + MaxStore l) with sto by lia);
    by rewrite ?wrap64_id.
Qed.

(** X1. Reserving limits and then releasing them, or releasing and then
    reserving them, gives back the ledger it started from, whatever the
    limits are and even when the counter wraps around in between, as long
    as the two counters are [int64] values to begin with. *)
Theorem reserve_release_roundtrip (j : jetStream)
    (l : option JetStreamAccountLimits) :
  is_int64 (memReserved j) → is_int64 (storeReserved j) →
  releaseResources (reserveResources j l) l = j ∧
  reserveResources (releaseResources j l) l = j.
Proof. exact (reserve_release_id j l). Qed.

Lemma reserve_release_roundtrip_witness :
  let j := mkJetStream (mkJetStreamConfig 10 10 "/js") ∅ 5 MaxInt64 in
  let l := Some (mkLimits 3 7 0 0) in
  is_int64 (memReserved j) ∧ is_int64 (storeReserved j) ∧
  releaseResources (reserveResources j l) l = j.
Proof.
  cbv zeta.
  assert (Hm : is_int64 5) by (unfold is_int64, MinInt64, MaxInt64; lia).
  assert (Hs : is_int64 MaxInt64) by (unfold is_int64, MinInt64, MaxInt64; lia).
  split; [exact Hm|]. split; [exact Hs|].
  exact (proj1 (reserve_release_roundtrip
                  (mkJetStream (mkJetStreamConfig 10 10 "/js") ∅ 5 MaxInt64)
                  (Some (mkLimits 3 7 0 0)) Hm Hs)).
Defined.

(** X2. Limits left to the server ([nil]) are the whole configured quota:
    on a ledger whose counters are not negative and whose sums with the
    quota fit in an [int64], such limits pass the sufficiency check exactly
    when nothing at all is reserved. *)
Theorem dynamicAccountLimits_exclusive (j : jetStream) :
  0 <= memReserved j → 0 <= storeReserved j →
  is_int64 (memReserved j + cfgMaxMemory (config j)) →
  is_int64 (storeReserved j + cfgMaxStore (config j)) →
  sufficientResources j (Some (dynamicAccountLimits j)) = None
  ↔ memReserved j = 0 ∧ storeReserved j = 0.
Proof.
  intros Hm Hs Hfm Hfs. unfold sufficientResources, dynamicAccountLimits, add64.
  simpl. rewrite !wrap64_id by done.
  destruct (Z.gtb_spec (memReserved j + cfgMaxMemory (config j))
              (cfgMaxMemory (config j))) as [Hgt|Hle].
  - split; [done|]. lia.
  - destruct (Z.gtb_spec (storeReserved j + cfgMaxStore (config j))
                (cfgMaxStore (config j))) as [Hgt'|Hle'].
    + split; [done|]. lia.
    + split; [lia|done].
Qed.

Lemma dynamicAccountLimits_exclusive_witness :
  let j := mkJetStream (mkJetStreamConfig (4 * GiB) (20 * GiB) "/js") ∅ 0 0 in
  sufficientResources j (Some (dynamicAccountLimits j)) = None.
Proof.
  cbv zeta.
  apply (dynamicAccountLimits_exclusive
           (mkJetStream (mkJetStreamConfig (4 * GiB) (20 * GiB) "/js") ∅ 0 0)).
  - simpl. lia.
  - simpl. lia.
  - vm_compute. split; discriminate.
  - vm_compute. split; discriminate.
  - split; reflexivity.
Defined.

(** ** Names *)

Lemma ReplaceAll_idem (s : string) (old new : ascii) :
  old ≠ new → ReplaceAll (ReplaceAll s old new) old new = ReplaceAll s old new.
Proof.
  intros Hne. induction s as [|c s IH]; simpl; [done|].
  destruct (Ascii.eqb_spec c old) as [->|Hc]; simpl.
  - destruct (Ascii.eqb_spec new old) as [Heq|_]; [congruence|]. by rewrite IH.
  - destruct (Ascii.eqb_spec c old) as [Heq|_]; [congruence|]. by rewrite IH.
Qed.

Lemma ReplaceAll_length (s : string) (old new : ascii) :
  String.length (ReplaceAll s old new) = String.length s.
Proof. induction s as [|c s IH]; simpl; [done|]. destruct (Ascii.eqb c old); simpl; by rewrite IH. Qed.

(** The characters [ContainsAny] looks for, one by one. *)
Lemma ContainsAny_false (s chars : string) :
  ContainsAny s chars = false
  ↔ ∀ c, In c (list_ascii_of_string s) → IndexByte chars c = false.
Proof.
  induction s as [|c s IH]; simpl.
  - split; [intros _ c []|done].
  - rewrite orb_false_iff, IH. split.
    + intros [Hc Hs] c' [<-|Hin]; auto.
    + intros H. split; [apply H; by left|]. intros c' Hin. apply H. by right.
Qed.

Lemma In_ReplaceAll (s : string) (old new c : ascii) :
  c ≠ old → c ≠ new →
  In c (list_ascii_of_string (ReplaceAll s old new)) ↔ In c (list_ascii_of_string s).
Proof.
  intros Ho Hn. induction s as [|x s IH]; simpl; [done|].
  destruct (Ascii.eqb_spec x old) as [->|Hx]; simpl; rewrite IH.
  - split; intros [Heq|Hin]; auto; congruence.
  - done.
Qed.

(** X3. [CanonicalName] keeps the length, applying it twice is the same as
    once, and its result is a valid name exactly when the string is not
    empty and holds neither ['*'] nor ['>']. *)
Theorem CanonicalName_valid_iff (s : string) :
  CanonicalName (CanonicalName s) = CanonicalName s ∧
  String.length (CanonicalName s) = String.length s ∧
  (isValidName (CanonicalName s) = true
   ↔ s ≠ "" ∧ ¬ In "*"%char (list_ascii_of_string s)
            ∧ ¬ In ">"%char (list_ascii_of_string s)).
Proof.
  unfold CanonicalName. split; [by apply ReplaceAll_idem|].
  split; [apply ReplaceAll_length|].
  unfold isValidName.
  destruct s as [|c s].
  - simpl. split; [discriminate|]. by intros [? _].
  - set (r := ReplaceAll (String c s) "." "_").
    assert (Heqb : String.eqb r "" = false) by (subst r; simpl; done).
    rewrite Heqb. subst r. rewrite negb_true_iff, ContainsAny_false.
    split.
    + intros H. split; [done|]. split.
      * intros Hin.
        apply (proj2 (In_ReplaceAll (String c s) "." "_" "*"
                        ltac:(discriminate) ltac:(discriminate))) in Hin.
        specialize (H _ Hin). discriminate H.
      * intros Hin.
        apply (proj2 (In_ReplaceAll (String c s) "." "_" ">"
                        ltac:(discriminate) ltac:(discriminate))) in Hin.
        specialize (H _ Hin). discriminate H.
    + intros (_ & Hstar & Hgt) x Hin.
      destruct (Ascii.eqb_spec x ".") as [->|Hdot].
      { exfalso. revert Hin. apply ReplaceAll_no_old. discriminate. }
      destruct (Ascii.eqb_spec x "_") as [->|Hus]; [reflexivity|].
      apply (proj1 (In_ReplaceAll (String c s) "." "_" x Hdot Hus)) in Hin.
      assert (Hs : x ≠ "*"%char) by (intros ->; contradiction).
      assert (Hg : x ≠ ">"%char) by (intros ->; contradiction).
      apply Ascii.eqb_neq in Hdot, Hs, Hg.
      cbn [IndexByte]. by rewrite Hdot, Hs, Hg.
Qed.

(** ** The server's configuration *)

Section ServerConfigProperties.
Context {SC : ServerCollaborators}.

(** X4. The dynamic configuration takes three times a quarter of the
    system memory, rounded down: never more than the system memory, and zero
    on a machine that reports less than four bytes; it falls back to 256 MiB
    when the system memory is unknown.  A positive [maxStore] is kept,
    anything else is replaced by the free disk space of the chosen
    directory. *)
Theorem dynJetStreamConfig_quota (storeDir : string) (maxStore : Z) :
  is_int64 sysmem_Memory →
  let c := dynJetStreamConfig storeDir maxStore in
  (0 < sysmem_Memory →
     cfgMaxMemory c = 3 * (sysmem_Memory / 4) ∧
     0 <= cfgMaxMemory c <= sysmem_Memory ∧
     (cfgMaxMemory c = 0 ↔ sysmem_Memory < 4)) ∧
  (sysmem_Memory <= 0 → cfgMaxMemory c = JetStreamMaxMemDefault) ∧
  (0 < maxStore → cfgMaxStore c = maxStore) ∧
  (maxStore <= 0 → cfgMaxStore c = diskAvailable (StoreDir c)).
Proof.
  intros Hint c. subst c. unfold dynJetStreamConfig. cbv zeta. simpl.
  assert (Hq : 0 < sysmem_Memory →
            mul64 (Z.quot sysmem_Memory 4) 3 = 3 * (sysmem_Memory / 4) ∧
            0 <= sysmem_Memory / 4 ∧ 4 * (sysmem_Memory / 4) <= sysmem_Memory).
  { intros Hpos. unfold mul64. rewrite Z.quot_div_nonneg by lia.
    assert (4 * (sysmem_Memory / 4) <= sysmem_Memory) by (apply Z.mul_div_le; lia).
    assert (0 <= sysmem_Memory / 4) by (apply Z.div_pos; lia).
    rewrite wrap64_id; [lia|].
    unfold is_int64, MinInt64, MaxInt64 in *. lia. }
  split; [|split; [|split]].
  - intros Hpos. destruct (Hq Hpos) as (Heq & H0 & H4).
    destruct (Z.gtb_spec sysmem_Memory 0); [|lia]. rewrite Heq.
    split; [done|]. split; [lia|]. split.
    + intros Hz. assert (sysmem_Memory / 4 = 0) as Hd by lia.
      apply Z.div_small_iff in Hd; lia.
    + intros Hlt. rewrite Z.div_small by lia. reflexivity.
  - intros Hle. destruct (Z.gtb_spec sysmem_Memory 0); [lia|done].
  - intros Hpos. destruct (Z.gtb_spec maxStore 0); [done|lia].
  - intros Hle. destruct (Z.gtb_spec maxStore 0); [lia|done].
Qed.

(** X5. What start-up makes of the caller's configuration: the caller's
    memory quota is used only when the caller's storage quota is positive
    too, otherwise the machine's memory decides as if no configuration had
    been given; a positive storage quota of the caller is always kept. *)
Theorem startupConfig_caller (c : JetStreamConfig) :
  cfgMaxMemory (startupConfig (Some c)) =
    (if (0 <? cfgMaxMemory c)%Z && (0 <? cfgMaxStore c)%Z then cfgMaxMemory c
     else cfgMaxMemory (startupConfig None)) ∧
  (0 < cfgMaxStore c → cfgMaxStore (startupConfig (Some c)) = cfgMaxStore c) ∧
  (0 < cfgMaxMemory c → 0 < cfgMaxStore c → StoreDir c ≠ "" →
   startupConfig (Some c) = c).
Proof.
  unfold startupConfig.
  destruct (Z.leb_spec (cfgMaxMemory c) 0) as [Hm|Hm];
    destruct (Z.leb_spec (cfgMaxStore c) 0) as [Hs|Hs]; simpl orb; cbv zeta.
  - replace (0 <? cfgMaxMemory c)%Z with false by (symmetry; apply Z.ltb_ge; lia).
    simpl andb. repeat split; try lia.
    by destruct (String.eqb _ ""), (String.eqb _ "").
  - replace (0 <? cfgMaxMemory c)%Z with false by (symmetry; apply Z.ltb_ge; lia).
    simpl andb. repeat split; try lia.
    + by destruct (String.eqb _ ""), (String.eqb _ "").
    + intros _. destruct (String.eqb _ ""); simpl;
        by destruct (Z.gtb_spec (cfgMaxStore c) 0); [|lia].
  - replace (0 <? cfgMaxStore c)%Z with false by (symmetry; apply Z.ltb_ge; lia).
    rewrite andb_false_r. repeat split; try lia.
    by destruct (String.eqb _ ""), (String.eqb _ "").
  - replace (0 <? cfgMaxMemory c)%Z with true by (symmetry; apply Z.ltb_lt; lia).
    replace (0 <? cfgMaxStore c)%Z with true by (symmetry; apply Z.ltb_lt; lia).
    simpl andb. repeat split.
    + by destruct (String.eqb _ "").
    + by destruct (String.eqb _ "").
    + intros _ _ Hdir. destruct (String.eqb_spec (StoreDir c) ""); done.
Qed.

End ServerConfigProperties.

Lemma dynJetStreamConfig_quota_witness :
  let c := dynJetStreamConfig (SC := simServer 1000 5000) "/data" 0 in
  cfgMaxMemory c = 750 ∧ cfgMaxStore c = 5000.
Proof.
  cbv zeta.
  assert (Hint : is_int64 (sysmem_Memory (ServerCollaborators := simServer 1000 5000)))
    by (vm_compute; split; discriminate).
  pose proof (dynJetStreamConfig_quota (SC := simServer 1000 5000) "/data" 0 Hint)
    as (Hmem & _ & _ & Hsto).
  split.
  - destruct (Hmem ltac:(simpl; lia)) as [-> _]. reflexivity.
  - rewrite (Hsto ltac:(lia)). reflexivity.
Defined.

(** ** Reports *)

Section ReportProperties.
Context {SC : ServerCollaborators}.

Lemma filter_true {A} (l : list A) : List.filter (λ _, true) l = l.
Proof. induction l as [|x l IH]; simpl; [done|]. by rewrite IH. Qed.

(** X6. The reports on an account's streams agree: [Streams] has
    [NumStreams] entries, which is also the count [JetStreamUsage] reports;
    every stream a filter lets through is among them; and a stream is
    among them exactly when [LookupStream] finds it under some name. *)
Theorem Streams_coherent (s : Server) (a : AccId) :
  Z.of_nat (length (Account_Streams s a)) = NumStreams s a ∧
  statStreams (JetStreamUsage s a) = NumStreams s a ∧
  (∀ filter mset, In mset (filteredStreams s a filter) →
                  In mset (Account_Streams s a)) ∧
  (∀ mset, In mset (Account_Streams s a)
           ↔ ∃ name, LookupStream s a name = inr mset).
Proof.
  unfold Account_Streams, filteredStreams, NumStreams, JetStreamUsage, LookupStream,
    jsa_at.
  destruct (acc_js s !! a) as [p|]; simpl.
  - rewrite filter_true. repeat split.
    + by rewrite length_fmap, length_map_to_list.
    + intros filter mset Hin. by apply filter_In in Hin as [Hin _].
    + intros Hin. apply list_elem_of_In, list_elem_of_fmap in Hin
        as ([name m] & -> & Hin).
      apply elem_of_map_to_list in Hin. exists name. simpl. by rewrite Hin.
    + intros [name Hl].
      destruct (streams (jsas s !!! p) !! name) as [m|] eqn:Hm; [|done].
      injection Hl as <-. apply list_elem_of_In, list_elem_of_fmap.
      exists (name, m). split; [done|]. by apply elem_of_map_to_list.
  - repeat split; try done. by intros [name Hl].
Qed.

End ReportProperties.

(** ** Usage *)

(** X7. Usage deltas add up: two updates are one update by the sum, and
    an update followed by the opposite one gives the account back, also
    when the counter wraps in between.  Every storage type other than
    memory is counted as file storage. *)
Theorem updateUsage_deltas (jsa : jsAccount) (st : StorageType) (d1 d2 : Z) :
  is_int64 (memUsed jsa) → is_int64 (storeUsed jsa) →
  updateUsage (updateUsage jsa st d1) st d2 = updateUsage jsa st (d1 + d2) ∧
  updateUsage (updateUsage jsa st d1) st (- d1) = jsa ∧
  (st ≠ MemoryStorage → updateUsage jsa st d1 = updateUsage jsa FileStorage d1).
Proof.
  intros Hm Hs. destruct jsa as [acc lim mr mu sr su sd str tm sto].
  simpl in Hm, Hs. unfold updateUsage.
  destruct (decide (st = MemoryStorage)) as [->|Hne]; simpl.
  - repeat split; try done.
    + f_equal. unfold add64. rewrite wrap64_add_l. f_equal. lia.
    + f_equal. unfold add64. rewrite wrap64_add_l.
      replace (mu + d1 + - d1) with mu by lia. by apply wrap64_id.
  - repeat split; try done.
    + f_equal. unfold add64. rewrite wrap64_add_l. f_equal. lia.
    + f_equal. unfold add64. rewrite wrap64_add_l.
      replace (su + d1 + - d1) with su by lia. by apply wrap64_id.
Qed.

Lemma updateUsage_deltas_witness :
  let jsa := mkJsAccount "A" (mkLimits 10 10 0 0) 0 MaxInt64 0 0 "/js/A" ∅ None None in
  updateUsage (updateUsage jsa MemoryStorage 5) MemoryStorage (-5) = jsa.
Proof.
  cbv zeta.
  assert (Hm : is_int64 MaxInt64) by (vm_compute; split; discriminate).
  assert (Hs : is_int64 0) by (vm_compute; split; discriminate).
  exact (proj1 (proj2 (updateUsage_deltas
    (mkJsAccount "A" (mkLimits 10 10 0 0) 0 MaxInt64 0 0 "/js/A" ∅ None None)
    MemoryStorage 5 0 Hm Hs))).
Defined.

(* ===================================================================== *)
(** * Enabling and disabling an account, step by step *)
(* ===================================================================== *)

Lemma result_orReturn (c k : M (option error)) (s : Server) :
  result (orReturn c k s) =
    match result (c s) with
    | Some err => Some err
    | None => result (k (final (c s)))
    end.
Proof.
  unfold orReturn. rewrite result_bind. by destruct (result (c s)).
Qed.

Section AccountSteps.
Context {C : Collaborators}.

Lemma late_recoverTemplates (a : AccId) (tdir : string) (s : Server) :
  In (result (recoverTemplates a tdir s)) late_outcomes.
Proof.
  unfold recoverTemplates. rewrite result_bind.
  change (result (get s)) with s. change (final (get s)) with s. cbv beta.
  destruct (os_Stat (fs s) tdir) as [stat|]; [|by left].
  destruct (IsDir stat); [|by left].
  destruct (highwayhash_New64 _); [|by right; right; right; left].
  rewrite result_bind. by left.
Qed.

Lemma late_recoverStream (a : AccId) (p : JsaPtr) (sdir fi : string) (s : Server) :
  result (recoverStream a p sdir fi s) = None ∨
  result (recoverStream a p sdir fi s) = Some ErrHashKey.
Proof.
  destruct (decide (String.length (sha256_Sum256 fi) = 32%nat)) as [Hlen|Hlen].
  - left. by apply recoverStream_continues.
  - right. unfold recoverStream, highwayhash_New64.
    apply Nat.eqb_neq in Hlen. by rewrite Hlen.
Qed.

Lemma late_forM_err (l : list string) (body : string → M (option error))
    (s : Server) :
  (∀ x s, result (body x s) = None ∨ result (body x s) = Some ErrHashKey) →
  In (result (forM_err l body s)) late_outcomes.
Proof.
  intros Hbody. revert s. induction l as [|x l IH]; intros s; simpl; [by left|].
  rewrite result_bind. destruct (Hbody x s) as [->| ->].
  - apply IH.
  - by right; right; right; left.
Qed.

Lemma late_recoverStreams (a : AccId) (p : JsaPtr) (sdir : string) (s : Server) :
  In (result (recoverStreams a p sdir s)) late_outcomes.
Proof.
  unfold recoverStreams. rewrite result_bind.
  apply late_forM_err. intros. apply late_recoverStream.
Qed.


Lemma admissible_unique (a : AccId) (l : option JetStreamAccountLimits)
    (s : Server) (j j' : jetStream) :
  admissible a l s j → admissible a l s j' → j = j'.
Proof. intros (_ & Hj & _) (_ & Hj' & _). congruence. Qed.

End AccountSteps.

Section AccountStepsFrame.
Context {C : Collaborators} {F : CollaboratorsFrame}.

(** Once the checks have passed, the account is registered and the rest
    of [EnableJetStream] keeps away from the ledger, whatever it returns. *)
Lemma EnableJetStream_late (a : AccId) (l : option JetStreamAccountLimits)
    (s : Server) (j : jetStream) :
  admissible a l s j →
  ledger_frame (registered a l s j) (final (EnableJetStream a l s)) ∧
  In (result (EnableJetStream a l s)) late_outcomes.
Proof.
  intros (Hreg & Hj & Hsys & Hacc & Hsuf).
  unfold EnableJetStream. rewrite final_bind, result_bind.
  change (result (get s)) with s. change (final (get s)) with s. cbv beta.
  rewrite decide_True by done. rewrite Hj. rewrite decide_False by done.
  cbv zeta. fold (effective_limits j l). rewrite Hacc, Hsuf.
  rewrite final_bind, result_bind.
  match goal with |- context [final (put ?st s)] =>
    change (final (put st s)) with st; change st with (registered a l s j) end.
  cbv beta.
  set (s1 := registered a l s j).
  assert (Hreg1 : a ∈ acc_srv s1) by done.
  clearbody s1. split.
  - match goal with |- ledger_frame s1 (final (?tail s1)) =>
      assert (Htail : frames tail) end.
    { frames_auto;
        first [ apply frames_enableAllJetStreamServiceImports
              | apply frames_recoverTemplates | apply frames_recoverStreams ]. }
    apply Htail.
  - rewrite result_orReturn.
    unfold enableAllJetStreamServiceImports at 1. rewrite result_bind.
    change (result (get s1)) with s1. change (final (get s1)) with s1. cbv beta.
    rewrite decide_True by done.
    destruct (AddServiceImports a s1); [by right; left|].
    change (result ((mret None : M (option error)) s1)) with (@None error).
    cbv iota. rewrite result_bind. cbv beta.
    rewrite result_orReturn.
    match goal with |- context [result (?m ?st)] =>
      assert (Hmk : result (m st) = None ∨ result (m st) = Some ErrMkdirStreams) end.
    { destruct (os_Stat _ _); [by left|].
      rewrite result_bind. destruct (result (call _ _)); [by right|by left]. }
    destruct Hmk as [-> | ->]; [|by right; right; left].
    rewrite result_orReturn.
    match goal with |- context [recoverTemplates ?x ?d ?st] =>
      pose proof (late_recoverTemplates x d st) as Ht;
      destruct (result (recoverTemplates x d st)) as [e|]; [exact Ht|] end.
    rewrite result_orReturn.
    match goal with |- context [recoverStreams ?x ?q ?d ?st] =>
      pose proof (late_recoverStreams x q d st) as Hs;
      destruct (result (recoverStreams x q d st)) as [e|]; [exact Hs|] end.
    rewrite result_bind. by left.
Qed.

End AccountStepsFrame.


Section AccountOutcomes.
Context {C : Collaborators} {F : CollaboratorsFrame}.


(** What holds of the state after [EnableJetStream] passed its checks. *)
Lemma EnableJetStream_registered (a : AccId) (l : option JetStreamAccountLimits)
    (s : Server) (j : jetStream) :
  admissible a l s j →
  let s' := final (EnableJetStream a l s) in
  let p := fresh (dom (jsas s)) in
  js s' = Some (reserveResources
                  (mkJetStream (config j) (<[a := p]> (accounts j))
                     (memReserved j) (storeReserved j))
                  (Some (effective_limits j l))) ∧
  acc_js s' = <[a := p]> (acc_js s) ∧
  acc_srv s' = acc_srv s ∧
  account (jsas s' !!! p) = a ∧
  limits (jsas s' !!! p) = effective_limits j l ∧
  (∀ q, is_Some (jsas s !! q) → limits (jsas s' !!! q) = limits (jsas s !!! q)).
Proof.
  intros Hadm s' p.
  destruct (EnableJetStream_late a l s j Hadm) as [[Hjs Hsrv Hacc Halloc Hview] _].
  fold s' in Hjs, Hsrv, Hacc, Halloc, Hview.
  assert (Hp : ∀ q, acctView (jsas s' !!! q)
                    = acctView (jsas (registered a l s j) !!! q)) by done.
  split; [by rewrite Hjs|]. split; [by rewrite Hacc|]. split; [by rewrite Hsrv|].
  pose proof (Hp p) as Hvp. unfold registered in Hvp. simpl in Hvp.
  fold p in Hvp. rewrite lookup_total_insert_eq in Hvp.
  unfold acctView in Hvp. simpl in Hvp.
  split; [congruence|]. split; [congruence|].
  intros q [x Hq]. pose proof (Hp q) as Hvq. unfold registered in Hvq.
  simpl in Hvq. fold p in Hvq.
  rewrite lookup_total_insert_ne in Hvq.
  - unfold acctView in Hvq. congruence.
  - intros <-. pose proof (is_fresh (dom (jsas s))) as Hf. fold p in Hf.
    apply Hf. apply elem_of_dom. eauto.
Qed.


(** Disabling an account of the ledger's table. *)
Lemma DisableJetStream_run (a : AccId) (s : Server) (j : jetStream) (p : JsaPtr) :
  a ∈ acc_srv s → js s = Some j → accounts j !! a = Some p →
  account (jsas s !!! p) = a →
  result (DisableJetStream a s) = None ∧
  ledger_frame (unregistered a p s j) (final (DisableJetStream a s)).
Proof.
  intros Hreg Hj Hp Hown.
  unfold DisableJetStream. rewrite final_bind, result_bind.
  change (result (get s)) with s. change (final (get s)) with s. cbv beta.
  rewrite final_bind, result_bind.
  match goal with |- context [final (put ?st s)] =>
    change (final (put st s)) with st; set (s1 := st) end.
  cbv beta. rewrite decide_True by done. rewrite Hj.
  unfold lookupAccount. rewrite Hp.
  unfold disableJetStream. rewrite final_bind, result_bind.
  change (result (get s1)) with s1. change (final (get s1)) with s1. cbv beta zeta.
  rewrite final_bind, result_bind.
  match goal with |- context [final (put ?st s1)] =>
    change (final (put st s1)) with st; set (s2 := st) end.
  cbv beta. rewrite final_bind, result_bind. cbv beta.
  assert (Hs2 : s2 = unregistered a p s j).
  { subst s2 s1. unfold unregistered, jsa_at. simpl. by rewrite Hown. }
  rewrite Hs2. split; [done|].
  apply (ledger_frame_trans _ (final (jsAccount_delete p (unregistered a p s j))));
    [apply frames_jsAccount_delete|apply ledger_frame_refl].
Qed.

(** X10. Disabling an account right after it was enabled gives back the
    ledger and the accounts' pointers as they were before, when the
    ledger's counters are [int64] values and the account had no JetStream
    pointer: the reservation is released in full, whether or not the
    enabling call went on to fail. *)
Theorem Enable_Disable_roundtrip (a : AccId) (l : option JetStreamAccountLimits)
    (s : Server) (j : jetStream) :
  admissible a l s j →
  is_int64 (memReserved j) → is_int64 (storeReserved j) →
  acc_js s !! a = None →
  let r := DisableJetStream a (final (EnableJetStream a l s)) in
  result r = None ∧ js (final r) = Some j ∧ acc_js (final r) = acc_js s.
Proof.
  intros Hadm Hm Hs Hnone r.
  destruct (EnableJetStream_registered a l s j Hadm)
    as (Hjs & Hacc & Hsrv & Hown & Hlim & _).
  destruct Hadm as (Hreg & _ & _ & Htab & _).
  set (s1 := final (EnableJetStream a l s)) in *.
  set (p := fresh (dom (jsas s))) in *.
  destruct (DisableJetStream_run a s1 _ p ltac:(by rewrite Hsrv) Hjs
              ltac:(simpl; by rewrite lookup_insert_eq) Hown)
    as [Hres [Hfjs _ Hfacc _ _]].
  fold r in Hres, Hfjs, Hfacc.
  split; [done|]. split.
  - rewrite Hfjs. unfold unregistered. simpl. rewrite Hlim.
    rewrite delete_insert_id by done. f_equal.
    pose proof (reserve_release_id j (Some (effective_limits j l)) Hm Hs)
      as [Hrt _].
    destruct j as [cfg accts mem sto]. exact Hrt.
  - rewrite Hfacc. unfold unregistered. simpl. rewrite Hacc.
    by rewrite delete_insert_id.
Qed.

(** X11. Disabling an account of the ledger's table succeeds, clears the
    account's JetStream pointer, drops it from the table and releases its
    limits; disabling it again is refused as not enabled for the account
    and changes nothing: the limits are released once. *)
Theorem DisableJetStream_twice (a : AccId) (s : Server) (j : jetStream)
    (p : JsaPtr) :
  a ∈ acc_srv s → js s = Some j → accounts j !! a = Some p →
  account (jsas s !!! p) = a →
  let r := DisableJetStream a s in
  result r = None ∧
  acc_js (final r) = delete a (acc_js s) ∧
  js (final r) = Some (releaseResources
                         (mkJetStream (config j) (delete a (accounts j))
                            (memReserved j) (storeReserved j))
                         (Some (limits (jsas s !!! p)))) ∧
  DisableJetStream a (final r)
    = (Some ErrJetStreamNotEnabledForAccount, final r, []).
Proof.
  intros Hreg Hj Hp Hown r.
  destruct (DisableJetStream_run a s j p Hreg Hj Hp Hown)
    as [Hres [Hfjs Hfsrv Hfacc _ _]].
  fold r in Hres, Hfjs, Hfsrv, Hfacc.
  unfold unregistered in Hfjs, Hfsrv, Hfacc. simpl in Hfjs, Hfsrv, Hfacc.
  split; [done|]. split; [done|]. split; [done|].
  unfold DisableJetStream. munfold.
  rewrite Hfsrv, decide_True by done. rewrite Hfjs. unfold lookupAccount.
  simpl accounts. rewrite lookup_delete_eq.
  unfold disableJetStream. munfold. simpl. do 2 f_equal.
  rewrite Hfacc, delete_delete_eq, <- Hfacc. by destruct (final r).
Qed.

End AccountOutcomes.


Lemma sim_admissible :
  admissible "A" (Some (mkLimits GiB (10 * GiB) (-1) (-1)))
    (sim_server (4 * GiB) (20 * GiB))
    (mkJetStream (mkJetStreamConfig (4 * GiB) (20 * GiB) "/js") ∅ 0 0).
Proof.
  split; [|split; [|split; [|split]]].
  - vm_compute. set_solver.
  - reflexivity.
  - discriminate.
  - reflexivity.
  - vm_compute. reflexivity.
Qed.


Lemma Enable_Disable_roundtrip_witness :
  let r := DisableJetStream (C := simCollaborators) "A" sim_enabled in
  result r = None ∧
  js (final r) = js (sim_server (4 * GiB) (20 * GiB)) ∧
  acc_js (final r) = acc_js (sim_server (4 * GiB) (20 * GiB)).
Proof.
  assert (Hm : is_int64 0) by (vm_compute; split; discriminate).
  exact (Enable_Disable_roundtrip (C := simCollaborators)
           (F := simCollaborators_frame) "A"
           (Some (mkLimits GiB (10 * GiB) (-1) (-1)))
           (sim_server (4 * GiB) (20 * GiB)) _ sim_admissible Hm Hm eq_refl).
Defined.

Lemma DisableJetStream_twice_witness :
  let r := DisableJetStream (C := simCollaborators) "A" sim_enabled in
  DisableJetStream (C := simCollaborators) "A" (final r)
    = (Some ErrJetStreamNotEnabledForAccount, final r, []).
Proof.
  assert (Hreg : "A" ∈ acc_srv sim_enabled) by (vm_compute; set_solver).
  assert (Hj : js sim_enabled =
            Some (mkJetStream (mkJetStreamConfig (4 * GiB) (20 * GiB) "/js")
                    {["A" := 1%positive]} GiB (10 * GiB)))
    by (vm_compute; reflexivity).
  assert (Hp : accounts (mkJetStream (mkJetStreamConfig (4 * GiB) (20 * GiB) "/js")
                           {["A" := 1%positive]} GiB (10 * GiB)) !! "A"
               = Some 1%positive) by reflexivity.
  assert (Hown : account (jsas sim_enabled !!! 1%positive) = "A")
    by (vm_compute; reflexivity).
  exact (proj2 (proj2 (proj2 (DisableJetStream_twice (C := simCollaborators)
           (F := simCollaborators_frame) "A" sim_enabled _ 1%positive
           Hreg Hj Hp Hown)))).
Defined.

(* ===================================================================== *)
(** * The ledger stays within the server's quota *)
(* ===================================================================== *)

(** The counters of a ledger within its quota are the sums themselves. *)
Lemma within_quota_counters (s : Server) (j : jetStream) :
  within_quota s j →
  memReserved j = reservedSum MaxMemory (jsas s) (accounts j) ∧
  storeReserved j = reservedSum MaxStore (jsas s) (accounts j).
Proof.
  intros [[_ _ _ Im Is] Hcm Hcs Hm Hs _].
  pose proof (reservedSum_nonneg MaxMemory (jsas s) (accounts j)).
  pose proof (reservedSum_nonneg MaxStore (jsas s) (accounts j)).
  rewrite Im, Is. split; apply wrap64_id; unfold is_int64, MinInt64, MaxInt64; lia.
Qed.

Lemma UpdateJetStreamLimits_run (a : AccId) (l : option JetStreamAccountLimits)
    (s : Server) :
  (∃ err, UpdateJetStreamLimits a l s = (Some err, s, [])) ∨
  (∃ j p, a ∈ acc_srv s ∧ js s = Some j ∧ acc_js s !! a = Some p ∧
     sufficientResources j
       (Some (diffCheckedLimits (limits (jsas s !!! p)) (effective_limits j l)))
       = None ∧
     UpdateJetStreamLimits a l s =
       (None,
        set_jsas (<[p := set_limits (effective_limits j l) (jsas s !!! p)]> (jsas s))
          (set_js (Some (reserveResources
                           (releaseResources j (Some (limits (jsas s !!! p))))
                           (Some (effective_limits j l)))) s),
        [])).
Proof.
  unfold UpdateJetStreamLimits. munfold.
  destruct (decide (a ∈ acc_srv s)) as [Hreg|]; [|left; eauto].
  destruct (js s) as [j|] eqn:Hj; [|left; eauto].
  destruct (acc_js s !! a) as [p|] eqn:Hp; [|left; eauto].
  cbv zeta. fold (effective_limits j l). unfold jsa_at.
  destruct (sufficientResources j _) as [err|] eqn:Hsuf; [left; eauto|].
  right. exists j, p. repeat split; try done.
Qed.

Section Quota.
Context {C : Collaborators} {F : CollaboratorsFrame}.






End Quota.


(* ===================================================================== *)
(** * Templates *)
(* ===================================================================== *)

Lemma template_frame_refl (s : Server) : template_frame s s.
Proof. by split. Qed.

Lemma template_frame_trans (s1 s2 s3 : Server) :
  template_frame s1 s2 → template_frame s2 s3 → template_frame s1 s3.
Proof.
  intros [? ? ? H1] [? ? ? H2]. split; [congruence..|].
  intros q. by rewrite H2.
Qed.

Lemma existsb_snoc (f : string → bool) (l : list string) (x : string) :
  existsb f (l ++ [x]) = existsb f l || f x.
Proof. rewrite existsb_app. simpl. by rewrite orb_false_r. Qed.

Section TemplateNames.
Context {C : Collaborators}.

(** X13. Entering a stream name in a template makes the template own
    that stream and keeps what it owned: the name is appended to the list,
    whatever the template's cap.  When the account has no template of
    that name the call returns template-not-found and changes nothing, and
    no stream is owned under that template name. *)
Theorem addStreamNameToTemplate_owns (p : JsaPtr) (tname mname : string)
    (s : Server) :
  let r := addStreamNameToTemplate p tname mname s in
  match result r with
  | None =>
      checkTemplateOwnership (final r) p tname mname = true ∧
      (∀ n, checkTemplateOwnership s p tname n = true →
            checkTemplateOwnership (final r) p tname n = true) ∧
      ∃ m tp, templates (jsa_at s p) = Some m ∧ m !! tname = Some tp ∧
        t_streams (tmpl_at (final r) tp) = t_streams (tmpl_at s tp) ++ [mname]
  | Some err =>
      err = ErrTemplateNotFound ∧ r = (Some err, s, []) ∧
      ∀ n, checkTemplateOwnership s p tname n = false
  end.
Proof.
  unfold addStreamNameToTemplate, checkTemplateOwnership, result, final.
  munfold. unfold jsa_at, tmpl_at.
  destruct (templates (jsas s !!! p)) as [m|] eqn:Hm; [|simpl; by repeat split].
  destruct (m !! tname) as [tp|] eqn:Htp; [|simpl; by repeat split].
  simpl. rewrite ?Hm, ?Htp, lookup_total_insert_eq. simpl.
  split; [|split].
  - rewrite existsb_snoc, String.eqb_refl. apply orb_true_r.
  - intros n Hn. rewrite existsb_snoc, Hn. done.
  - exists m, tp. by rewrite lookup_total_insert_eq.
Qed.


End TemplateNames.

Section TemplateCap.
Context {C : Collaborators} {T : CollaboratorsTemplates}.

Lemma processInboundTemplateMsg_cap (tp : TmplPtr) (subject reply msg : string)
    (s : Server) :
  let s' := final (processInboundTemplateMsg tp subject reply msg s) in
  let n := Z.of_nat (length (t_streams (tmpl_at s tp))) in
  let n' := Z.of_nat (length (t_streams (tmpl_at s' tp))) in
  t_config (tmpl_at s' tp) = t_config (tmpl_at s tp) ∧
  (n' <= n ∨ n' <= tcMaxStreams (t_config (tmpl_at s tp))).
Proof.
  intros s' n n'. subst s' n n'.
  destruct (t_jsa (tmpl_at s tp)) as [p|] eqn:Hjsa.
  2:{ unfold processInboundTemplateMsg, final. munfold. rewrite Hjsa. simpl.
      split; [done|]. left. lia. }
  pose proof (processInboundTemplateMsg_run tp subject reply msg s p) as Hrun.
  cbv zeta in Hrun. specialize (Hrun Hjsa).
  destruct (streams (jsa_at s p) !! CanonicalName subject).
  { rewrite Hrun. unfold final. simpl. split; [done|]. left. lia. }
  destruct (decide (Z.of_nat (length (t_streams (tmpl_at s tp)))
                    >= tcMaxStreams (t_config (tmpl_at s tp)))) as [Hge|Hlt].
  { rewrite Hrun. unfold final. simpl. split; [done|]. left. lia. }
  destruct Hrun as (Hs1 & _ & _ & _ & Hrun).
  set (t := tmpl_at s tp) in *.
  set (s1 := set_tmpls (<[tp := set_t_streams
                           (t_streams t ++ [CanonicalName subject]) t]> (tmpls s)) s) in *.
  assert (Hc1 : t_config (tmpl_at s1 tp) = t_config t).
  { unfold tmpl_at, s1. simpl. by rewrite lookup_total_insert_eq. }
  assert (Hn1 : Z.of_nat (length (t_streams (tmpl_at s1 tp)))
                <= tcMaxStreams (t_config t)).
  { rewrite Hs1, length_app. simpl. lia. }
  pose proof (tframe_AddStream (account (jsa_at s p)) (materialized t subject) s1)
    as [_ _ Htm _].
  destruct (AddStream (account (jsa_at s p)) (materialized t subject) s1)
    as [[err|mset] s2]; simpl in Htm; rewrite Hrun; unfold final; cbn [fst snd].
  - unfold validateStreams. munfold. simpl. unfold tmpl_at. simpl.
    rewrite lookup_total_insert_eq. simpl. unfold tmpl_at in Hc1, Hn1.
    rewrite Htm. split; [done|]. right.
    etransitivity; [|exact Hn1]. apply Nat2Z.inj_le.
    apply List.filter_length_le.
  - pose proof (tframe_Stream_processInbound mset subject reply msg s2)
      as [_ _ Htm2 _].
    unfold tmpl_at in *. rewrite Htm2, Htm. split; [done|]. by right.
Qed.

(** X15. A template never holds more names than its cap allows: whatever
    messages arrive, the length of its list stays below the larger of the
    cap and the length it started with, and its configuration stays the
    same. *)
Theorem template_cap (tp : TmplPtr) (msgs : list InboundMsg) (s : Server) :
  let s' := final (forM msgs (deliver tp) s) in
  t_config (tmpl_at s' tp) = t_config (tmpl_at s tp) ∧
  Z.of_nat (length (t_streams (tmpl_at s' tp)))
    <= Z.max (Z.of_nat (length (t_streams (tmpl_at s tp))))
             (tcMaxStreams (t_config (tmpl_at s tp))).
Proof.
  cbv zeta.
  assert (Hgen : ∀ s1, t_config (tmpl_at s1 tp) = t_config (tmpl_at s tp) →
            Z.of_nat (length (t_streams (tmpl_at s1 tp)))
              <= Z.max (Z.of_nat (length (t_streams (tmpl_at s tp))))
                       (tcMaxStreams (t_config (tmpl_at s tp))) →
            t_config (tmpl_at (final (forM msgs (deliver tp) s1)) tp)
              = t_config (tmpl_at s tp) ∧
            Z.of_nat (length (t_streams (tmpl_at (final (forM msgs (deliver tp) s1)) tp)))
              <= Z.max (Z.of_nat (length (t_streams (tmpl_at s tp))))
                       (tcMaxStreams (t_config (tmpl_at s tp)))).
  { induction msgs as [|[[subject reply] msg] msgs IH]; intros s1 Hc Hn.
    - done.
    - simpl forM. rewrite final_bind.
      destruct (processInboundTemplateMsg_cap tp subject reply msg s1) as [Hc' Hn'].
      apply IH.
      + unfold deliver. simpl. congruence.
      + unfold deliver. simpl. rewrite Hc in Hn'. lia. }
  apply Hgen; [done|lia].
Qed.

End TemplateCap.

Lemma simCollaborators_templates : CollaboratorsTemplates (C := simCollaborators).
Proof.
  split; intros; simpl; try apply template_frame_refl.
  unfold sim_AddStream. destruct (acc_js s !! a) as [p|]; [|apply template_frame_refl].
  destruct (checkLimits _ cfg); [apply template_frame_refl|].
  simpl. split; try done. simpl. intros q.
  destruct (decide (p = q)) as [->|Hne].
  - by rewrite lookup_total_insert_eq.
  - by rewrite lookup_total_insert_ne.
Qed.

Lemma template_cap_witness :
  let s' := final (forM sim_orders (deliver (C := simCollaborators) 1) (sim_template 2)) in
  Z.of_nat (length (t_streams (tmpl_at s' 1)))
    <= Z.max (Z.of_nat (length (t_streams (tmpl_at (sim_template 2) 1))))
             (tcMaxStreams (t_config (tmpl_at (sim_template 2) 1))).
Proof.
  exact (proj2 (template_cap (C := simCollaborators) (T := simCollaborators_templates)
                  1 sim_orders (sim_template 2))).
Defined.

Section TemplateRoundTrip.
Context {C : Collaborators}.

Lemma subscribeAll_ok (tp : TmplPtr) (acc name : string) (subjects : list string)
    (sid : nat) (s : Server) :
  result (subscribeAll tp acc name subjects sid s) = None →
  subscribeAll tp acc name subjects sid s = (None, s, []).
Proof.
  revert sid. induction subjects as [|subject rest IH]; intros sid; simpl.
  - done.
  - unfold result. munfold.
    destruct (processSub tp subject sid s).
    + destruct (DeleteStreamTemplate acc name s) as [[? ?] ?]. done.
    + specialize (IH (S sid)).
      destruct (subscribeAll tp acc name rest (S sid) s) as [[y s2] e2].
      unfold result in IH. simpl in IH |- *. intros ->.
      specialize (IH eq_refl). by injection IH as -> ->.
Qed.

Lemma createTemplateSubscriptions_ok (tp : TmplPtr) (s : Server) :
  result (createTemplateSubscriptions tp s) = None →
  createTemplateSubscriptions tp s = (None, s, []).
Proof.
  unfold createTemplateSubscriptions, result. munfold.
  destruct (t_client (tmpl_at s tp)) as [acc|]; [|done].
  destruct (eventsEnabled s); simpl; [|done].
  match goal with |- context [subscribeAll ?t ?a ?n ?l ?i s] =>
    pose proof (subscribeAll_ok t a n l i s) as Hok;
    destruct (subscribeAll t a n l i s) as [[y s2] e2] end.
  unfold result in Hok. simpl in Hok |- *. intros ->.
  specialize (Hok eq_refl). by injection Hok as -> ->.
Qed.


(** What [AddStreamTemplate] does once the template is in the account's
    table: [s2] is the state with the template object and the table
    entry. *)
Lemma AddStreamTemplate_run (a : AccId) (tc : StreamTemplateConfig) (s : Server) :
  match result (AddStreamTemplate a tc s) with
  | inl err => True
  | inr tp =>
      ∃ p cfg m st,
        checkForJetStream s a = inr p ∧
        checkStreamCfg (with_scName "_" (tcConfig tc)) = inr cfg ∧
        tp = fresh (dom (tmpls s)) ∧
        match templates (jsa_at s p) with
        | None => m = ∅
        | Some m0 => m = m0 ∧ m0 !! tcName tc = None
        end ∧
        let t := mkStreamTemplate (Some a) (Some p) (with_tcConfig cfg tc) [] in
        let s1 := set_tmpls (<[tp := t]> (tmpls s)) s in
        let s2 := set_jsas (<[p := set_templates (Some (<[tcName tc := tp]> m)) st
                                     (jsa_at s1 p)]> (jsas s1)) s1 in
        final (AddStreamTemplate a tc s) =
          match st with
          | Some st => (TemplateStore_Store st tp s2).2
          | None => s2
          end
  end.
Proof.
  unfold AddStreamTemplate, result, final. munfold.
  destruct (checkForJetStream s a) as [err|p] eqn:Hchk; [done|].
  destruct (negb _); [done|]. destruct (_ <? _)%nat; [done|].
  destruct (checkStreamCfg _) as [err|cfg] eqn:Hcfg; [done|].
  cbv zeta. simpl.
  set (tp := fresh (dom (tmpls s))).
  set (t := mkStreamTemplate (Some a) (Some p) (with_tcConfig cfg tc) []).
  set (s1 := set_tmpls (<[tp := t]> (tmpls s)) s).
  change (jsa_at s1 p) with (jsa_at s p).
  destruct (templates (jsa_at s p)) as [m0|] eqn:Hm.
  - destruct (m0 !! tcName tc) eqn:Hfree; [done|].
    destruct (store (jsa_at s p)) as [st|] eqn:Hst; simpl.
    + match goal with |- context [createTemplateSubscriptions tp ?st] =>
        set (s2 := st);
        pose proof (createTemplateSubscriptions_ok tp s2) as Hok;
        destruct (createTemplateSubscriptions tp s2) as [[r s3] e3] end.
      unfold result in Hok. simpl in Hok.
      destruct r as [err|]; [done|]. specialize (Hok eq_refl).
      injection Hok as -> ->.
      unfold call. destruct (TemplateStore_Store st tp _) as [[err|] s4] eqn:Hs4.
      * by destruct (StreamTemplate_Delete tp s4) as [[? ?] ?].
      * simpl. exists p, cfg, m0, (Some st).
        split; [done|]. split; [done|]. split; [done|]. split; [by rewrite Hm|].
        cbv zeta. change (jsa_at (set_tmpls ?h s) p) with (jsa_at s p).
        fold tp t s1. fold s2. by rewrite Hs4.
    + match goal with |- context [createTemplateSubscriptions tp ?st] =>
        set (s2 := st);
        pose proof (createTemplateSubscriptions_ok tp s2) as Hok;
        destruct (createTemplateSubscriptions tp s2) as [[r s3] e3] end.
      unfold result in Hok. simpl in Hok.
      destruct r as [err|]; [done|]. specialize (Hok eq_refl).
      injection Hok as -> ->.
      simpl. exists p, cfg, m0, None.
      split; [done|]. split; [done|]. split; [done|]. split; [by rewrite Hm|].
      cbv zeta. change (jsa_at (set_tmpls ?h s) p) with (jsa_at s p). done.
  - simpl.
    match goal with |- context [createTemplateSubscriptions tp ?st] =>
      set (s2 := st);
      pose proof (createTemplateSubscriptions_ok tp s2) as Hok;
      destruct (createTemplateSubscriptions tp s2) as [[r s3] e3] end.
    unfold result in Hok. simpl in Hok.
    destruct r as [err|]; [done|]. specialize (Hok eq_refl).
    injection Hok as -> ->.
    unfold call.
    match goal with |- context [TemplateStore_Store ?st tp _] =>
      destruct (TemplateStore_Store st tp _) as [[err|] s4] eqn:Hs4;
      [by destruct (StreamTemplate_Delete tp s4) as [[? ?] ?]|];
      simpl; exists p, cfg, ∅, (Some st) end.
    split; [done|]. split; [done|]. split; [done|]. split; [by rewrite Hm|].
    cbv zeta. change (jsa_at (set_tmpls ?h s) p) with (jsa_at s p).
    fold tp t s1. fold s2. by rewrite Hs4.
Qed.

End TemplateRoundTrip.

Section TemplateLookup.
Context {C : Collaborators} {T : CollaboratorsTemplates}.

(** X16. A template that [AddStreamTemplate] returns can be looked up:
    after the call [LookupStreamTemplate] finds it under its name and
    [Templates] lists it; it carries the given name and cap and no stream
    names yet; and before the call the account had no template of that
    name. *)
Theorem AddStreamTemplate_lookup (a : AccId) (tc : StreamTemplateConfig)
    (s : Server) (tp : TmplPtr) :
  result (AddStreamTemplate a tc s) = inr tp →
  let s' := final (AddStreamTemplate a tc s) in
  LookupStreamTemplate s' a (tcName tc) = inr tp ∧
  In tp (Account_Templates s' a) ∧
  tcName (t_config (tmpl_at s' tp)) = tcName tc ∧
  tcMaxStreams (t_config (tmpl_at s' tp)) = tcMaxStreams tc ∧
  t_streams (tmpl_at s' tp) = [] ∧
  LookupStreamTemplate s a (tcName tc) = inl ErrTemplateNotFound.
Proof.
  intros Hr s'. pose proof (AddStreamTemplate_run a tc s) as Hrun.
  rewrite Hr in Hrun. destruct Hrun as (p & cfg & m & st & Hchk & Hcfg & Htp & Hm & Hfin).
  cbv zeta in Hfin. fold s' in Hfin.
  set (t := mkStreamTemplate (Some a) (Some p) (with_tcConfig cfg tc) []) in *.
  set (s1 := set_tmpls (<[tp := t]> (tmpls s)) s) in *.
  set (s2 := set_jsas (<[p := set_templates (Some (<[tcName tc := tp]> m)) st
                                (jsa_at s1 p)]> (jsas s1)) s1) in *.
  assert (Hframe : template_frame s2 s').
  { rewrite Hfin. destruct st as [st|]; [apply tframe_TemplateStore_Store|].
    apply template_frame_refl. }
  destruct Hframe as [Hsrv Hacc Htm Htpl].
  assert (Hchk' : checkForJetStream s' a = inr p).
  { unfold checkForJetStream in *. by rewrite Hsrv, Hacc. }
  assert (Htab : templates (jsa_at s' p) = Some (<[tcName tc := tp]> m)).
  { unfold jsa_at. rewrite Htpl. unfold s2. simpl. by rewrite lookup_total_insert_eq. }
  assert (Hobj : tmpl_at s' tp = t).
  { unfold tmpl_at. rewrite Htm. unfold s2, s1. simpl.
    by rewrite lookup_total_insert_eq. }
  split; [|split; [|split; [|split; [|split]]]].
  - unfold LookupStreamTemplate. by rewrite Hchk', Htab, lookup_insert_eq.
  - unfold Account_Templates. rewrite Hchk'. fold (jsa_at s' p). rewrite Htab.
    apply list_elem_of_In, list_elem_of_fmap. exists (tcName tc, tp).
    split; [done|]. apply elem_of_map_to_list. by rewrite lookup_insert_eq.
  - by rewrite Hobj.
  - by rewrite Hobj.
  - by rewrite Hobj.
  - unfold LookupStreamTemplate. rewrite Hchk.
    destruct (templates (jsa_at s p)) as [m0|]; [|done].
    destruct Hm as [-> Hfree]. by rewrite Hfree.
Qed.

Lemma template_frame_foldM_Delete (msets : list Stream) (e : option error)
    (s : Server) :
  template_frame s
    (final (foldM msets e (λ lastErr mset,
              r ← call (Stream_Delete mset);
              mret (match r with Some err => Some err | None => lastErr end)) s)).
Proof.
  revert e s. induction msets as [|mset msets IH]; intros e s; simpl.
  - apply template_frame_refl.
  - rewrite final_bind.
    eapply template_frame_trans; [|apply IH].
    unfold final, call. munfold.
    pose proof (tframe_Stream_Delete mset s) as Hf.
    by destruct (Stream_Delete mset s) as [r s'].
Qed.

(** X17. Deleting a template by name takes it out of the account's table
    and disables it, whatever the call returns: afterwards the lookup of
    the name fails with template-not-found and the template has no client
    left.  The template must be one the account's table holds under its
    own name. *)
Theorem DeleteStreamTemplate_lookup (a : AccId) (name : string) (s : Server)
    (tp : TmplPtr) :
  LookupStreamTemplate s a name = inr tp →
  t_jsa (tmpl_at s tp) = acc_js s !! a →
  tcName (t_config (tmpl_at s tp)) = name →
  let s' := final (DeleteStreamTemplate a name s) in
  LookupStreamTemplate s' a name = inl ErrTemplateNotFound ∧
  t_client (tmpl_at s' tp) = None.
Proof.
  intros Hlk Hjsa Hname s'.
  assert (∃ p m, checkForJetStream s a = inr p ∧ acc_js s !! a = Some p ∧
                 templates (jsa_at s p) = Some m ∧ m !! name = Some tp)
    as (p & m & Hchk & Hp & Hm & Hin).
  { unfold LookupStreamTemplate in Hlk.
    destruct (checkForJetStream s a) as [|p] eqn:Hchk; [done|].
    destruct (templates (jsa_at s p)) as [m|] eqn:Hm; [|done].
    destruct (m !! name) as [tq|] eqn:Hin; [|done].
    injection Hlk as ->. exists p, m. repeat split; try done.
    unfold checkForJetStream in Hchk. destruct (decide _); [|done].
    destruct (acc_js s !! a); [|done]. congruence. }
  rewrite Hp in Hjsa.
  set (t := tmpl_at s tp) in *.
  set (s1 := set_tmpls (<[tp := set_t_client None t]> (tmpls s)) s).
  set (s2 := set_jsas (<[p := set_templates (Some (delete name m))
                                (store (jsa_at s p)) (jsa_at s p)]> (jsas s)) s1).
  assert (Hframe : template_frame s2 s').
  { subst s'. unfold DeleteStreamTemplate. rewrite final_bind.
    change (result (get s)) with s. change (final (get s)) with s. cbv beta.
    rewrite Hlk. unfold StreamTemplate_Delete. rewrite final_bind.
    change (result (get s)) with s. change (final (get s)) with s. cbv beta zeta.
    fold t. rewrite final_bind.
    change (final (store_tmpl tp (set_t_client None t) s)) with s1. cbv beta.
    rewrite Hjsa. rewrite final_bind.
    change (result (get s1)) with s1. change (final (get s1)) with s1. cbv beta zeta.
    change (jsa_at s1 p) with (jsa_at s p). rewrite Hm, Hname, Hin.
    rewrite final_bind.
    match goal with |- context [final (store_jsa p ?j s1)] =>
      change (final (store_jsa p j s1)) with s2 end.
    cbv beta. rewrite final_bind.
    change (result (get s2)) with s2. change (final (get s2)) with s2. cbv beta zeta.
    rewrite final_bind.
    match goal with |- context [match ?o with Some st => call _ | None => mret None end s2] =>
      set (m1 := match o with Some st => call (TemplateStore_Delete st tp)
                            | None => mret None end s2);
      assert (Hm1 : template_frame s2 (final m1)) end.
    { subst m1. destruct (store (jsa_at s2 p)) as [st|].
      - unfold final, call. pose proof (tframe_TemplateStore_Delete st tp s2) as Hf.
        by destruct (TemplateStore_Delete st tp s2).
      - apply template_frame_refl. }
    destruct (result m1).
    - exact Hm1.
    - eapply template_frame_trans; [exact Hm1|]. apply template_frame_foldM_Delete. }
  destruct Hframe as [Hsrv Hacc Htm Htpl].
  split.
  - unfold LookupStreamTemplate.
    assert (Hchk' : checkForJetStream s' a = inr p).
    { unfold checkForJetStream in *. by rewrite Hsrv, Hacc. }
    rewrite Hchk'. unfold jsa_at. rewrite Htpl. unfold s2. simpl.
    rewrite lookup_total_insert_eq. simpl. by rewrite lookup_delete_eq.
  - unfold tmpl_at. rewrite Htm. unfold s2, s1. simpl.
    by rewrite lookup_total_insert_eq.
Qed.

End TemplateLookup.

Section TemplateNoEvents.
Context {C : Collaborators}.

(** X18. On a server whose events are not enabled [AddStreamTemplate]
    fails with the no-system-account error only after it has entered the
    template in the account's table: the template can then be looked up
    under its name, and adding it again is refused as already existing. *)
Theorem AddStreamTemplate_no_events (a : AccId) (tc : StreamTemplateConfig)
    (s : Server) (p : JsaPtr) (cfg : StreamConfig) :
  (∀ s, eventsEnabled s = false) →
  checkForJetStream s a = inr p →
  scName (tcConfig tc) = "" →
  (String.length (tcName tc) <= JSMaxNameLen)%nat →
  checkStreamCfg (with_scName "_" (tcConfig tc)) = inr cfg →
  LookupStreamTemplate s a (tcName tc) = inl ErrTemplateNotFound →
  let r := AddStreamTemplate a tc s in
  result r = inl ErrNoSysAccount ∧
  LookupStreamTemplate (final r) a (tcName tc) = inr (fresh (dom (tmpls s))) ∧
  result (AddStreamTemplate a tc (final r)) = inl ErrTemplateExists.
Proof.
  intros Hev Hchk Hcn Hlen Hcfg Hfree r.
  assert (Hlenb : (JSMaxNameLen <? String.length (tcName tc))%nat = false)
    by (apply Nat.ltb_ge; lia).
  assert (Hrun : ∃ m st,
    r = (inl ErrNoSysAccount,
         set_jsas (<[p := set_templates (Some (<[tcName tc := fresh (dom (tmpls s))]> m))
                            st (jsa_at s p)]> (jsas s))
           (set_tmpls (<[fresh (dom (tmpls s)) :=
                          mkStreamTemplate (Some a) (Some p) (with_tcConfig cfg tc) []]>
                         (tmpls s)) s), [])).
  { subst r. unfold AddStreamTemplate. munfold. rewrite Hchk, Hcn. simpl negb.
    cbv iota. rewrite Hlenb, Hcfg. cbv zeta. simpl.
    unfold LookupStreamTemplate in Hfree. rewrite Hchk in Hfree.
    change (jsa_at (set_tmpls ?h s) p) with (jsa_at s p).
    destruct (templates (jsa_at s p)) as [m|] eqn:Hm.
    - destruct (m !! tcName tc) eqn:Hin; [done|]. simpl.
      unfold createTemplateSubscriptions. munfold. unfold tmpl_at. simpl.
      rewrite lookup_total_insert_eq. simpl. rewrite Hev. simpl. eauto.
    - simpl. unfold createTemplateSubscriptions. munfold. unfold tmpl_at. simpl.
      rewrite lookup_total_insert_eq. simpl. rewrite Hev. simpl. eauto. }
  destruct Hrun as (m & st & Hrun). rewrite Hrun. unfold result, final. simpl.
  assert (Hchk' : ∀ h1 h2, checkForJetStream (set_jsas h1 (set_tmpls h2 s)) a = inr p)
    by (intros; exact Hchk).
  split; [done|]. split.
  - unfold LookupStreamTemplate. rewrite Hchk'. unfold jsa_at. simpl.
    rewrite lookup_total_insert_eq. simpl. by rewrite lookup_insert_eq.
  - unfold AddStreamTemplate. munfold. rewrite Hchk', Hcn. simpl negb.
    cbv iota. rewrite Hlenb, Hcfg. cbv zeta. simpl. unfold jsa_at. simpl.
    rewrite lookup_total_insert_eq. simpl. by rewrite lookup_insert_eq.
Qed.

End TemplateNoEvents.

Lemma AddStreamTemplate_lookup_witness :
  LookupStreamTemplate (sim_template 2) "A" "T" = inr 1%positive.
Proof.
  assert (Hr : result (AddStreamTemplate (C := simCollaborators) "A" (sim_tc 2)
                         sim_enabled) = inr 1%positive) by (vm_compute; reflexivity).
  exact (proj1 (AddStreamTemplate_lookup (C := simCollaborators)
                  (T := simCollaborators_templates) "A" (sim_tc 2) sim_enabled 1 Hr)).
Defined.

Lemma DeleteStreamTemplate_lookup_witness :
  LookupStreamTemplate
    (final (DeleteStreamTemplate (C := simCollaborators) "A" "T" (sim_template 2)))
    "A" "T" = inl ErrTemplateNotFound.
Proof.
  assert (Hlk : LookupStreamTemplate (sim_template 2) "A" "T" = inr 1%positive)
    by (vm_compute; reflexivity).
  assert (Hjsa : t_jsa (tmpl_at (sim_template 2) 1) = acc_js (sim_template 2) !! "A")
    by (vm_compute; reflexivity).
  assert (Hname : tcName (t_config (tmpl_at (sim_template 2) 1)) = "T")
    by (vm_compute; reflexivity).
  exact (proj1 (DeleteStreamTemplate_lookup (C := simCollaborators)
                  (T := simCollaborators_templates) "A" "T" (sim_template 2) 1
                  Hlk Hjsa Hname)).
Defined.

Lemma AddStreamTemplate_no_events_witness :
  let r := AddStreamTemplate (C := simNoEvents) "A" (sim_tc 2) sim_enabled in
  result r = inl ErrNoSysAccount ∧
  LookupStreamTemplate (final r) "A" "T" = inr 1%positive ∧
  result (AddStreamTemplate (C := simNoEvents) "A" (sim_tc 2) (final r))
    = inl ErrTemplateExists.
Proof.
  assert (Hchk : checkForJetStream sim_enabled "A" = inr 1%positive)
    by (vm_compute; reflexivity).
  assert (Hlen : (String.length (tcName (sim_tc 2))
                  <= JSMaxNameLen (Collaborators := simNoEvents))%nat)
    by (vm_compute; lia).
  assert (Hfree : LookupStreamTemplate sim_enabled "A" (tcName (sim_tc 2))
                  = inl ErrTemplateNotFound) by (vm_compute; reflexivity).
  exact (AddStreamTemplate_no_events (C := simNoEvents) "A" (sim_tc 2) sim_enabled
           1 (with_scName "_" (tcConfig (sim_tc 2)))
           (λ _, eq_refl) Hchk eq_refl Hlen eq_refl Hfree).
Defined.

(* ===================================================================== *)
(** * The server: shutdown, start-up and the configured accounts *)
(* ===================================================================== *)

Lemma final_ret {A} (x : A) (s : Server) : final (mret (M := M) x s) = s.
Proof. done. Qed.

Lemma result_ret {A} (x : A) (s : Server) : result (mret (M := M) x s) = x.
Proof. done. Qed.

Lemma final_seq_ret {A B} (m : M A) (v : B) (s : Server) :
  final ((m ≫= λ _, mret v) s) = final (m s).
Proof. by rewrite final_bind. Qed.

Section Shutdown.
Context {C : Collaborators} {F : CollaboratorsFrame}.
Context {SC : ServerCollaborators} {SF : ServerCollaboratorsFrame}.

(** The loop of [shutdownJetStream] changes the ledger only. *)
Lemma shutdown_loop (ps : list JsaPtr) (s : Server) :
  let s' := final (forM ps (λ jsa,
                      s ← get;
                      match js s with
                      | Some j => disableJetStream j (Some jsa);; mret tt
                      | None => mret tt
                      end) s) in
  acc_srv s' = acc_srv s ∧ acc_js s' = acc_js s ∧
  (∀ q, acctView (jsas s' !!! q) = acctView (jsas s !!! q)).
Proof.
  revert s. induction ps as [|p ps IH]; intros s; cbn [forM].
  - done.
  - rewrite final_bind.
    match goal with |- context [final (?body s)] => set (s1 := final (body s)) end.
    assert (H1 : acc_srv s1 = acc_srv s ∧ acc_js s1 = acc_js s ∧
                 (∀ q, acctView (jsas s1 !!! q) = acctView (jsas s !!! q))).
    { subst s1. rewrite final_bind.
      change (result (get s)) with s. change (final (get s)) with s. cbv beta.
      destruct (js s) as [j|]; [|done].
      rewrite final_seq_ret. unfold disableJetStream. rewrite final_bind.
      change (result (get s)) with s. change (final (get s)) with s. cbv beta zeta.
      rewrite final_bind.
      match goal with |- context [final (put ?st s)] =>
        change (final (put st s)) with st; set (s2 := st) end.
      cbv beta. rewrite final_seq_ret.
      destruct (frames_jsAccount_delete p s2) as [_ Hsrv Hacc _ Hview].
      rewrite Hsrv, Hacc. split; [done|]. split; [done|].
      intros q. by rewrite Hview. }
    destruct H1 as (Hsrv & Hacc & Hview).
    destruct (IH s1) as (Hsrv' & Hacc' & Hview'). cbv beta zeta.
    rewrite Hsrv', Hacc'. split; [done|]. split; [done|].
    intros q. by rewrite Hview'.
Qed.

Lemma shutdownJetStream_run (s : Server) :
  let s' := final (shutdownJetStream s) in
  js s' = None ∧ acc_srv s' = acc_srv s ∧ acc_js s' = acc_js s ∧
  (∀ q, acctView (jsas s' !!! q) = acctView (jsas s !!! q)).
Proof.
  unfold shutdownJetStream. rewrite final_bind.
  change (result (get s)) with s. change (final (get s)) with s. cbv beta.
  destruct (js s) as [j|] eqn:Hj; [|done].
  cbv zeta. rewrite final_bind.
  match goal with |- context [final (forM ?ps ?body s)] =>
    pose proof (shutdown_loop ps s) as Hloop; cbv zeta in Hloop;
    set (s1 := final (forM ps body s)) in * end.
  cbv beta. rewrite final_bind.
  change (result (get s1)) with s1. change (final (get s1)) with s1. cbv beta.
  rewrite final_bind.
  change (final (put (set_js None s1) s1)) with (set_js None s1). cbv beta.
  destruct (frame_stopCluster (set_js None s1)) as [Hjs Hsrv Hacc _ Hview].
  change (final (exec stopCluster (set_js None s1)))
    with (stopCluster (set_js None s1)).
  destruct Hloop as (Hsrv1 & Hacc1 & Hview1).
  rewrite Hjs, Hsrv, Hacc. split; [done|]. split; [done|]. split; [done|].
  intros q. rewrite Hview. simpl. apply Hview1.
Qed.

(** X19. Shutting JetStream down on the server disables the server and
    nothing else: afterwards the server reports JetStream off, no accounts
    and no reservations, and an account's update or enable call is refused
    as not enabled; but every account keeps its JetStream pointer, so the
    accounts that were enabled still report JetStream enabled, with their
    limits. *)
Theorem shutdownJetStream_spec (s : Server) :
  let s' := final (shutdownJetStream s) in
  Server_JetStreamEnabled s' = false ∧
  JetStreamNumAccounts s' = 0 ∧
  JetStreamReservedResources s' = (-1, -1, Some ErrJetStreamNotEnabled) ∧
  (∀ a, Account_JetStreamEnabled s' a = Account_JetStreamEnabled s a) ∧
  (∀ a, statLimits (JetStreamUsage s' a) = statLimits (JetStreamUsage s a)) ∧
  (∀ a l, a ∈ acc_srv s →
     UpdateJetStreamLimits a l s' = (Some ErrJetStreamNotEnabled, s', []) ∧
     EnableJetStream a l s' = (Some ErrJetStreamNotEnabled, s', [])).
Proof.
  intros s'. destruct (shutdownJetStream_run s) as (Hjs & Hsrv & Hacc & Hview).
  fold s' in Hjs, Hsrv, Hacc, Hview.
  unfold Server_JetStreamEnabled, JetStreamNumAccounts, JetStreamReservedResources,
    getJetStream, Account_JetStreamEnabled, JetStreamUsage.
  rewrite Hjs, Hacc. repeat split; try done.
  - intros a. destruct (acc_js s !! a) as [p|]; [|done]. simpl.
    specialize (Hview p). unfold acctView in Hview. congruence.
  - unfold UpdateJetStreamLimits. munfold. rewrite Hsrv, decide_True by done.
    by rewrite Hjs.
  - unfold EnableJetStream. munfold. rewrite Hsrv, decide_True by done.
    by rewrite Hjs.
Qed.

End Shutdown.

Lemma simServer_frame (sysMem disk : Z) :
  ServerCollaboratorsFrame (SC := simServer sysMem disk).
Proof. split; intros; apply ledger_frame_refl. Qed.

Lemma shutdownJetStream_spec_witness :
  let s' := final (shutdownJetStream (C := simCollaborators)
                     (SC := simServer GiB GiB) sim_two) in
  Server_JetStreamEnabled s' = false ∧
  Account_JetStreamEnabled s' "B" = Account_JetStreamEnabled sim_two "B".
Proof.
  pose proof (shutdownJetStream_spec (C := simCollaborators)
                (F := simCollaborators_frame) (SC := simServer GiB GiB)
                (SF := simServer_frame GiB GiB) sim_two) as (H1 & _ & _ & H4 & _).
  exact (conj H1 (H4 "B")).
Defined.

Section ConfiguredAccounts.
Context {C : Collaborators} {F : CollaboratorsFrame}.
Context {SC : ServerCollaborators}.

Lemma enableAllJetStreamServiceImports_state (a : AccId) (s : Server) :
  final (enableAllJetStreamServiceImports a s) = s.
Proof.
  unfold enableAllJetStreamServiceImports, final. munfold.
  destruct (decide _); [|done]. by destruct (AddServiceImports a s).
Qed.

Lemma enableJetStreamInfoServiceImportOnly_state (a : AccId) (s : Server) :
  final (enableJetStreamInfoServiceImportOnly a s) = s.
Proof.
  unfold enableJetStreamInfoServiceImportOnly, final. munfold.
  destruct (decide _); [|done]. by destruct (AddServiceImport_JSApiAccountInfo a s).
Qed.

(** What [configJetStream] does to the state and to the account's
    configured limits. *)
Lemma configJetStream_run (acc : AccId) (lim : option JetStreamAccountLimits)
    (s : Server) :
  let r := configJetStream acc lim s in
  (final r = s ∨
   (∃ l, final r = final (UpdateJetStreamLimits acc l s)) ∨
   (∃ l, final r = final (EnableJetStream acc l s)) ∨
   final r = final (DisableJetStream acc s)) ∧
  ((result r).1 = None → (result r).2 = None) ∧
  ((result r).2 = None ∨ (result r).2 = lim).
Proof.
  unfold configJetStream. destruct lim as [l|].
  - rewrite final_bind, result_bind.
    change (result (get s)) with s. change (final (get s)) with s. cbv beta.
    destruct (Account_JetStreamEnabled s acc).
    + rewrite final_bind, result_bind.
      rewrite enableAllJetStreamServiceImports_state.
      destruct (result (enableAllJetStreamServiceImports acc s)) as [err|].
      * split; [by left|]. split; [done|by right].
      * rewrite final_bind, result_bind.
        destruct (result (UpdateJetStreamLimits acc (Some l) s)) as [err|].
        -- split; [right; left; eauto|]. split; [done|by right].
        -- split; [right; left; eauto|]. split; [done|by left].
    + rewrite final_bind, result_bind.
      destruct (result (EnableJetStream acc (Some l) s)) as [err|].
      * split; [right; right; left; eauto|]. split; [done|by right].
      * split; [right; right; left; eauto|]. split; [done|by left].
  - rewrite final_bind, result_bind.
    change (result (get s)) with s. change (final (get s)) with s. cbv beta.
    destruct (decide (sysAccount s = Some acc)).
    + split; [by left|]. split; [done|by left].
    + rewrite final_bind, result_bind.
      destruct (Account_JetStreamEnabled s acc).
      * rewrite final_seq_ret. cbv beta.
        rewrite final_bind, result_bind.
        rewrite enableJetStreamInfoServiceImportOnly_state.
        split; [by right; right; right|]. split; [done|by left].
      * change (final ((mret tt : M unit) s)) with s. cbv beta.
        rewrite final_bind, result_bind.
        rewrite enableJetStreamInfoServiceImportOnly_state.
        split; [by left|]. split; [done|by left].
Qed.

Lemma configJetStream_inv (acc : AccId) (lim : option JetStreamAccountLimits)
    (s : Server) (j : jetStream) :
  ledger_inv s j → ∃ j', ledger_inv (final (configJetStream acc lim s)) j'.
Proof.
  intros Hinv.
  destruct (configJetStream_run acc lim s) as [[->|[[l ->]|[[l ->]| ->]]] _].
  - by exists j.
  - by apply (UpdateJetStreamLimits_inv acc l s j).
  - by apply (EnableJetStream_inv acc l s j).
  - by apply (DisableJetStream_inv acc s j).
Qed.

Lemma configAccounts_inv (accs : list AccId)
    (lims : gmap AccId JetStreamAccountLimits) (s : Server) (j : jetStream) :
  ledger_inv s j → ∃ j', ledger_inv (final (configAccounts accs lims s)) j'.
Proof.
  revert lims s j. induction accs as [|acc rest IH]; intros lims s j Hinv;
    cbn [configAccounts].
  - by exists j.
  - rewrite final_bind.
    destruct (configJetStream_inv acc (lims !! acc) s j Hinv) as [j1 Hinv1].
    destruct ((result (configJetStream acc (lims !! acc) s)).1); [by exists j1|].
    by eapply IH.
Qed.

(** X20. Walking the configured accounts keeps the ledger invariant.
    When the walk succeeds, every account it visited has its configured
    limits consumed; the limits of the accounts it did not visit are as
    they were. *)
Theorem configAccounts_spec (accs : list AccId)
    (lims : gmap AccId JetStreamAccountLimits) (s : Server) (j : jetStream) :
  ledger_inv s j →
  let r := configAccounts accs lims s in
  (∃ j', ledger_inv (final r) j') ∧
  ((result r).1 = None → ∀ a, In a accs → (result r).2 !! a = None) ∧
  (∀ a, ¬ In a accs → (result r).2 !! a = lims !! a).
Proof.
  revert lims s j. induction accs as [|acc rest IH]; intros lims s j Hinv; cbn [configAccounts].
  - cbv zeta. split; [by exists j|]. split; [by intros _ a []|done].
  - cbv zeta. rewrite final_bind, result_bind.
    destruct (configJetStream_inv acc (lims !! acc) s j Hinv) as [j1 Hinv1].
    destruct (configJetStream_run acc (lims !! acc) s) as (_ & Hnone & Hlim).
    set (r1 := configJetStream acc (lims !! acc) s) in *.
    set (lims' := match (result r1).2 with
                  | Some l => <[acc := l]> lims
                  | None => delete acc lims
                  end).
    assert (Hother : ∀ a, a ≠ acc → lims' !! a = lims !! a).
    { intros a Hne. subst lims'. destruct ((result r1).2).
      - by rewrite lookup_insert_ne.
      - by rewrite lookup_delete_ne. }
    destruct ((result r1).1) as [err|] eqn:Herr.
    + split; [by exists j1|]. split; [done|].
      intros a Hnin. apply Hother. intros ->. apply Hnin. by left.
    + destruct (IH lims' (final r1) j1 Hinv1) as (Hinv2 & Hdone & Hkeep).
      split; [exact Hinv2|]. split.
      * intros Hok a [<-|Hin]; [|by apply Hdone].
        destruct (in_dec string_dec acc rest) as [Hin|Hnin]; [by apply Hdone|].
        rewrite (Hkeep acc Hnin). subst lims'. rewrite (Hnone eq_refl).
        by rewrite lookup_delete_eq.
      * intros a Hnin. rewrite Hkeep by (intros Hin; apply Hnin; by right).
        apply Hother. intros ->. apply Hnin. by left.
Qed.

Lemma DisableJetStream_clears (a : AccId) (s : Server) :
  acc_js (final (DisableJetStream a s)) = delete a (acc_js s).
Proof.
  unfold DisableJetStream. rewrite final_bind.
  change (result (get s)) with s. change (final (get s)) with s. cbv beta.
  rewrite final_bind.
  match goal with |- context [final (put ?st s)] =>
    change (final (put st s)) with st; set (s1 := st) end.
  cbv beta. destruct (decide (a ∈ acc_srv s)); [|done].
  destruct (js s) as [j|]; [|done].
  unfold disableJetStream. destruct (lookupAccount j a) as [p|]; [|done].
  rewrite final_bind.
  change (result (get s1)) with s1. change (final (get s1)) with s1. cbv beta zeta.
  rewrite final_bind.
  match goal with |- context [final (put ?st s1)] =>
    change (final (put st s1)) with st; set (s2 := st) end.
  cbv beta. rewrite final_seq_ret.
  destruct (frames_jsAccount_delete p s2) as [_ _ Hacc _ _]. by rewrite Hacc.
Qed.

(** X21. Configuring an account that has no configured limits switches
    JetStream off for it, whatever the outcome: afterwards the account
    reports JetStream disabled.  The system account is the exception: for
    it the call does nothing at all. *)
Theorem configJetStream_unconfigured (acc : AccId) (s : Server) :
  let r := configJetStream acc None s in
  (sysAccount s = Some acc → r = ((None, None), s, [])) ∧
  (sysAccount s ≠ Some acc →
     Account_JetStreamEnabled (final r) acc = false ∧
     (∀ b, b ≠ acc →
        Account_JetStreamEnabled (final r) b = Account_JetStreamEnabled s b) ∧
     (result r).2 = None).
Proof.
  cbv zeta. split.
  - intros Hsys. unfold configJetStream. munfold. by rewrite decide_True.
  - intros Hsys. unfold configJetStream.
    rewrite final_bind, result_bind.
    change (result (get s)) with s. change (final (get s)) with s. cbv beta.
    rewrite decide_False by done. rewrite final_bind, result_bind.
    destruct (Account_JetStreamEnabled s acc) eqn:Hen.
    + rewrite final_seq_ret. cbv beta. rewrite final_bind, result_bind.
      rewrite enableJetStreamInfoServiceImportOnly_state.
      rewrite !final_ret, result_ret.
      unfold Account_JetStreamEnabled. rewrite DisableJetStream_clears.
      rewrite lookup_delete_eq. split; [done|]. split; [|done].
      intros b Hne. by rewrite lookup_delete_ne.
    + rewrite final_ret. cbv beta.
      rewrite final_bind, result_bind.
      rewrite enableJetStreamInfoServiceImportOnly_state.
      rewrite !final_ret, result_ret. done.
Qed.

End ConfiguredAccounts.

Lemma ledger_inv_fresh (s : Server) (cfg : JetStreamConfig) :
  js s = Some (mkJetStream cfg ∅ 0 0) → acc_js s = ∅ →
  ledger_inv s (mkJetStream cfg ∅ 0 0).
Proof. intros Hjs Hacc. split; simpl; done. Qed.

Lemma configAccounts_spec_witness :
  let r := configAccounts (C := simCollaborators) (SC := simServer GiB GiB)
             ["A"; "B"] {["A" := mkLimits GiB GiB (-1) (-1)]}
             (sim_server (4 * GiB) (20 * GiB)) in
  (∃ j', ledger_inv (final r) j') ∧
  ((result r).1 = None → ∀ a, In a ["A"; "B"] → (result r).2 !! a = None) ∧
  (∀ a, ¬ In a ["A"; "B"] →
        (result r).2 !! a
        = ({["A" := mkLimits GiB GiB (-1) (-1)]} : gmap AccId _) !! a).
Proof.
  exact (configAccounts_spec (C := simCollaborators) (F := simCollaborators_frame)
           (SC := simServer GiB GiB) ["A"; "B"] {["A" := mkLimits GiB GiB (-1) (-1)]}
           (sim_server (4 * GiB) (20 * GiB)) _
           (ledger_inv_fresh (sim_server (4 * GiB) (20 * GiB))
              (mkJetStreamConfig (4 * GiB) (20 * GiB) "/js") eq_refl eq_refl)).
Defined.

Lemma configJetStream_unconfigured_witness :
  Account_JetStreamEnabled
    (final (configJetStream (C := simCollaborators) (SC := simServer GiB GiB)
              "A" None sim_enabled)) "A" = false.
Proof.
  assert (Hsys : sysAccount sim_enabled ≠ Some "A") by (vm_compute; discriminate).
  exact (proj1 (proj2 (configJetStream_unconfigured (C := simCollaborators)
                         (F := simCollaborators_frame) (SC := simServer GiB GiB)
                         "A" sim_enabled) Hsys)).
Defined.


Section StartUp.
Context {C : Collaborators} {SC : ServerCollaborators}.

(** X22. When the store directory exists and is not a directory,
    [EnableJetStream] of the server fails, but only after it has installed
    the new ledger: the server is left with JetStream enabled, an empty
    table and nothing reserved, and a second call is refused as already
    enabled. *)
Theorem Server_EnableJetStream_not_directory (config : option JetStreamConfig)
    (accs : list AccId) (lims : gmap AccId JetStreamAccountLimits) (s : Server)
    (stat : Node) :
  js s = None →
  os_Stat (fs s) (StoreDir (startupConfig config)) = Some stat →
  IsDir stat = false →
  let r := Server_EnableJetStream config accs lims s in
  r = ((Some SErrNotDirectory, lims),
       set_js (Some (mkJetStream (startupConfig config) ∅ 0 0)) s, []) ∧
  Server_JetStreamEnabled (final r) = true ∧
  Server_JetStreamConfig (final r) = Some (startupConfig config) ∧
  Server_StoreDir (final r) = StoreDir (startupConfig config) ∧
  ∀ config' accs' lims',
    Server_EnableJetStream config' accs' lims' (final r)
    = ((Some SErrAlreadyEnabled, lims'), final r, []).
Proof.
  intros Hjs Hstat Hdir r.
  assert (Hr : r = ((Some SErrNotDirectory, lims),
                    set_js (Some (mkJetStream (startupConfig config) ∅ 0 0)) s, [])).
  { subst r. unfold Server_EnableJetStream, orStop. munfold. rewrite Hjs.
    cbv zeta. simpl. rewrite Hstat, Hdir. done. }
  rewrite Hr. unfold final. simpl. split; [done|]. split; [done|].
  split; [done|]. split; [done|].
  intros config' accs' lims'. unfold Server_EnableJetStream. munfold. done.
Qed.

End StartUp.

Lemma result_orStop {A} (c : M (option server_error)) (x : A)
    (k : M (option server_error * A)) (s : Server) :
  result (orStop c x k s) =
    match result (c s) with
    | Some err => (Some err, x)
    | None => result (k (final (c s)))
    end.
Proof. unfold orStop. rewrite result_bind. by destruct (result (c s)). Qed.

Lemma final_orStop {A} (c : M (option server_error)) (x : A)
    (k : M (option server_error * A)) (s : Server) :
  final (orStop c x k s) =
    match result (c s) with
    | Some err => final (c s)
    | None => final (k (final (c s)))
    end.
Proof. unfold orStop. rewrite final_bind. by destruct (result (c s)). Qed.

Section StartUpRun.
Context {C : Collaborators} {F : CollaboratorsFrame}.
Context {SC : ServerCollaborators} {SF : ServerCollaboratorsFrame}.

Lemma startup_outcome_orStop (accs : list AccId)
    (lims : gmap AccId JetStreamAccountLimits) (s0 s1 : Server)
    (c : M (option server_error))
    (k : M (option server_error * gmap AccId JetStreamAccountLimits)) :
  ledger_frame s0 s1 →
  ledger_frame s1 (final (c s1)) →
  (∀ s2, ledger_frame s0 s2 → startup_outcome accs lims s0 (k s2)) →
  startup_outcome accs lims s0 (orStop c lims k s1).
Proof.
  intros H01 Hc Hk. unfold startup_outcome.
  rewrite result_orStop, final_orStop.
  destruct (result (c s1)) as [err|].
  - exists (final (c s1)). split; [by eapply ledger_frame_trans|]. left.
    split; [done|]. by exists err.
  - apply Hk. by eapply ledger_frame_trans.
Qed.

Lemma Server_EnableJetStream_run (config : option JetStreamConfig)
    (accs : list AccId) (lims : gmap AccId JetStreamAccountLimits) (s : Server) :
  js s = None →
  startup_outcome accs lims
    (set_js (Some (mkJetStream (startupConfig config) ∅ 0 0)) s)
    (Server_EnableJetStream config accs lims s).
Proof.
  intros Hjs. unfold Server_EnableJetStream.
  set (cfg := startupConfig config).
  set (s0 := set_js (Some (mkJetStream cfg ∅ 0 0)) s).
  assert (Hstart : ∀ k : M (option server_error * gmap AccId JetStreamAccountLimits),
            startup_outcome accs lims s0 (k s0) →
            startup_outcome accs lims s0
              ((s ← get;
                match js s with
                | Some _ => mret (Some SErrAlreadyEnabled, lims)
                | None => put (set_js (Some (mkJetStream cfg ∅ 0 0)) s);; k
                end) s)).
  { intros k Hk. unfold startup_outcome in *.
    rewrite final_bind, result_bind.
    change (result (get s)) with s. change (final (get s)) with s. cbv beta.
    rewrite Hjs. rewrite final_bind, result_bind. exact Hk. }
  apply Hstart. clear Hstart.
  assert (Hjs0 : is_Some (js s0)) by (unfold s0; simpl; eauto).
  clearbody s0.
  assert (Hget : ∀ (s1 : Server)
                   (k : Server → M (option server_error * gmap AccId JetStreamAccountLimits)),
            startup_outcome accs lims s0 (k s1 s1) →
            startup_outcome accs lims s0 ((get ≫= k) s1)).
  { intros s1 k Hk. unfold startup_outcome in *.
    rewrite final_bind, result_bind. exact Hk. }
  apply Hget. apply startup_outcome_orStop; [apply ledger_frame_refl| |].
  { destruct (os_Stat (fs s0) (StoreDir cfg)) as [stat|].
    - destruct (negb (IsDir stat)); [apply ledger_frame_refl|].
      destruct (ioutil_TempFile _ _); apply ledger_frame_refl.
    - rewrite final_bind. rewrite final_ret.
      unfold final, call. pose proof (frame_os_MkdirAll (StoreDir cfg) s0) as Hf.
      by destruct (os_MkdirAll (StoreDir cfg) s0). }
  intros s2 H2. apply Hget.
  assert (Hseq : ∀ (m : M unit) (s1 : Server)
                   (k : M (option server_error * gmap AccId JetStreamAccountLimits)),
            ledger_frame s0 (final (m s1)) →
            (∀ s3, ledger_frame s0 s3 → startup_outcome accs lims s0 (k s3)) →
            startup_outcome accs lims s0 ((m ;; k) s1)).
  { intros m s1 k Hm Hk. unfold startup_outcome in *.
    rewrite final_bind, result_bind. by apply Hk. }
  apply Hseq.
  { eapply ledger_frame_trans; [exact H2|].
    destruct (sysAccount s2); [apply ledger_frame_refl|].
    apply frame_SetDefaultSystemAccount. }
  intros s3 H3. apply startup_outcome_orStop; [done| |].
  { rewrite final_bind, final_ret. unfold final, call.
    pose proof (frame_setJetStreamExportSubs s3) as Hf.
    by destruct (setJetStreamExportSubs s3). }
  intros s4 H4. apply Hget. apply startup_outcome_orStop; [done| |].
  { rewrite final_bind, final_ret. unfold final, call.
    pose proof (frame_AddServiceExports (sysAccount s4) s4) as Hf.
    by destruct (AddServiceExports (sysAccount s4) s4). }
  intros s5 H5. apply Hget. apply startup_outcome_orStop; [done| |].
  { destruct (negb (standAloneMode s5)); [|apply ledger_frame_refl].
    rewrite final_bind, final_ret. unfold final, call.
    pose proof (frame_enableJetStreamClustering s5) as Hf.
    by destruct (enableJetStreamClustering s5). }
  intros s6 H6. apply Hget.
  destruct (globalAccountOnly s6) eqn:Hglobal.
  - exists s6. split; [done|]. right. left. split; [done|].
    rewrite final_bind, result_bind, final_ret, result_ret. split; [done|].
    simpl. by destruct (result (EnableJetStream (GlobalAccount s6) None s6)).
  - (* the configured accounts *)
    unfold startup_outcome. rewrite final_bind, result_bind, final_ret, result_ret.
    unfold configAllJetStreamAccounts.
    rewrite final_bind, result_bind.
    change (result (get s6)) with s6. change (final (get s6)) with s6. cbv beta.
    rewrite final_bind, result_bind.
    match goal with |- context [result (?m s6)] =>
      set (m1 := m s6);
      assert (Hm1 : ledger_frame s6 (final m1)) end.
    { subst m1. destruct (sysAccount s6) as [sacc|]; [|apply ledger_frame_refl].
      destruct (negb _); [|apply ledger_frame_refl].
      unfold final, call. pose proof (frame_AddServiceExports (Some sacc) s6) as Hf.
      by destruct (AddServiceExports (Some sacc) s6). }
    set (s7 := final m1) in *.
    assert (H7 : ledger_frame s0 s7) by (by eapply ledger_frame_trans).
    assert (Hjs7 : is_Some (js s7)).
    { destruct H7 as [Hj _ _ _ _]. by rewrite Hj. }
    destruct (result m1) as [err|].
    + exists s7. split; [done|]. left. rewrite final_ret, result_ret.
      split; [done|]. simpl. eauto.
    + rewrite final_bind, result_bind.
      change (result (get s7)) with s7. change (final (get s7)) with s7. cbv beta.
      destruct Hjs7 as [j7 Hj7]. rewrite Hj7.
      rewrite final_bind, result_bind, final_ret, result_ret.
      exists s7. split; [done|]. right. right.
      split; [by rewrite Hj7|]. split; [done|].
      simpl. by destruct ((result (configAccounts accs lims s7)).1).
Qed.

(** X23. Start-up establishes the ledger invariant.  On a server with
    JetStream off and no account holding a JetStream pointer,
    [EnableJetStream] of the server leaves JetStream enabled with a ledger
    whose counters are the sums of the enabled accounts' positive limits
    and whose table is the set of accounts with a pointer, whether it
    returns nil or an error. *)
Theorem Server_EnableJetStream_inv (config : option JetStreamConfig)
    (accs : list AccId) (lims : gmap AccId JetStreamAccountLimits) (s : Server) :
  js s = None → acc_js s = ∅ →
  let r := Server_EnableJetStream config accs lims s in
  Server_JetStreamEnabled (final r) = true ∧
  ∃ j, ledger_inv (final r) j.
Proof.
  intros Hjs Hacc r.
  assert (Hinv : ∃ j, ledger_inv (final r) j).
  { destruct (Server_EnableJetStream_run config accs lims s Hjs)
      as (s' & Hframe & Hout).
    fold r in Hout.
    assert (Hinv' : ledger_inv s' (mkJetStream (startupConfig config) ∅ 0 0)).
    { eapply ledger_inv_frame; [exact Hframe|]. by apply ledger_inv_fresh. }
    destruct Hout as [[-> _]|[(_ & -> & _)|(_ & -> & _)]].
    - eauto.
    - by eapply EnableJetStream_inv.
    - by eapply configAccounts_inv. }
  split; [|done]. destruct Hinv as [j [Hj _ _ _ _]].
  unfold Server_JetStreamEnabled. by rewrite Hj.
Qed.

End StartUpRun.

Section Restart.
Context {C : Collaborators} {F : CollaboratorsFrame}.
Context {SC : ServerCollaborators} {SF : ServerCollaboratorsFrame}.

(** [configJetStream] with limits on an account that holds a pointer
    updates the limits; the server's table is not touched. *)
Lemma configJetStream_update_path (acc : AccId) (l : JetStreamAccountLimits)
    (s : Server) (jx : jetStream) :
  js s = Some jx → is_Some (acc_js s !! acc) →
  let r := configJetStream acc (Some l) s in
  (result r).1 = None →
  (result r).2 = None ∧
  acc_js (final r) = acc_js s ∧
  ∃ jx', js (final r) = Some jx' ∧ accounts jx' = accounts jx.
Proof.
  intros Hjs [p Hp] r Hok. subst r. revert Hok. unfold configJetStream.
  rewrite !final_bind, !result_bind.
  change (result (get s)) with s. change (final (get s)) with s. cbv beta.
  unfold Account_JetStreamEnabled. rewrite Hp.
  rewrite !final_bind, !result_bind. rewrite enableAllJetStreamServiceImports_state.
  destruct (result (enableAllJetStreamServiceImports acc s)); [done|].
  rewrite !final_bind, !result_bind.
  destruct (UpdateJetStreamLimits_run acc (Some l) s)
    as [[err ->]|(j0 & p0 & _ & Hj0 & _ & _ & ->)]; [done|].
  unfold result, final. simpl. intros _.
  split; [done|]. split; [done|].
  assert (j0 = jx) as -> by congruence. eexists. split; [reflexivity|].
  unfold reserveResources, releaseResources. done.
Qed.

Lemma configAccounts_stale (accs : list AccId)
    (lims : gmap AccId JetStreamAccountLimits) (s : Server) (jx : jetStream) :
  NoDup accs →
  js s = Some jx →
  (∀ a, In a accs → is_Some (acc_js s !! a) ∧ is_Some (lims !! a)) →
  let r := configAccounts accs lims s in
  (result r).1 = None →
  acc_js (final r) = acc_js s ∧
  ∃ jx', js (final r) = Some jx' ∧ accounts jx' = accounts jx.
Proof.
  revert lims s jx. induction accs as [|acc rest IH];
    intros lims s jx Hnd Hjs Hall; cbn [configAccounts].
  - cbv zeta. intros _. split; [done|]. by exists jx.
  - cbv zeta. rewrite final_bind, result_bind.
    destruct (Hall acc ltac:(by left)) as [Hacc [l Hl]].
    rewrite Hl.
    pose proof (configJetStream_update_path acc l s jx Hjs Hacc) as Hstep.
    cbv zeta in Hstep.
    destruct ((result (configJetStream acc (Some l) s)).1) eqn:Hr1; [done|].
    destruct (Hstep eq_refl) as (Hlim & Hacc1 & jx1 & Hjs1 & Htab1).
    rewrite Hlim. intros Hok.
    apply NoDup_cons in Hnd as [Hnin Hnd].
    destruct (IH (delete acc lims) _ jx1 Hnd Hjs1) as (Hacc2 & jx2 & Hjs2 & Htab2).
    + intros a Hin. destruct (Hall a ltac:(by right)) as [Ha Hla].
      split; [by rewrite Hacc1|]. rewrite lookup_delete_ne; [done|].
      intros ->. apply Hnin. by apply list_elem_of_In.
    + exact Hok.
    + split; [congruence|]. exists jx2. split; [done|congruence].
Qed.

(** X24. A restart does not enable again the accounts that were enabled
    when the server shut JetStream down.  After [shutdownJetStream], when
    [EnableJetStream] of the server walks configured accounts that all
    still hold their old pointer and returns nil, every one of them reports
    JetStream enabled, yet the server's new table is empty: their limits
    were updated, not registered. *)
Theorem restart_keeps_table_empty (config : option JetStreamConfig)
    (accs : list AccId) (lims : gmap AccId JetStreamAccountLimits) (s : Server) :
  NoDup accs →
  (∀ a, In a accs → is_Some (acc_js s !! a) ∧ is_Some (lims !! a)) →
  (∀ s, globalAccountOnly s = false) →
  let r := Server_EnableJetStream config accs lims (final (shutdownJetStream s)) in
  (result r).1 = None →
  Server_JetStreamEnabled (final r) = true ∧
  JetStreamNumAccounts (final r) = 0 ∧
  ∀ a, In a accs → Account_JetStreamEnabled (final r) a = true.
Proof.
  intros Hnd Hall Hglobal r Hok.
  destruct (shutdownJetStream_run s) as (Hjs1 & _ & Hacc1 & _).
  set (s1 := final (shutdownJetStream s)) in *.
  destruct (Server_EnableJetStream_run config accs lims s1 Hjs1)
    as (s' & [Hfjs _ Hfacc _ _] & Hout).
  fold r in Hout. simpl in Hfjs, Hfacc.
  destruct Hout as [[_ [e He]]|[(Hg & _)|(_ & Hfin & Hiff)]].
  - congruence.
  - rewrite Hglobal in Hg. discriminate.
  - apply Hiff in Hok.
    destruct (configAccounts_stale accs lims s' _ Hnd Hfjs) as (Hacc2 & jx & Hjs2 & Htab).
    + intros a Hin. rewrite Hfacc, Hacc1. by apply Hall.
    + exact Hok.
    + rewrite Hfin.
      unfold Server_JetStreamEnabled, JetStreamNumAccounts, getJetStream,
        Account_JetStreamEnabled.
      rewrite Hjs2, Htab, Hacc2, Hfacc, Hacc1. simpl.
      split; [done|]. split; [done|].
      intros a Hin. by destruct (Hall a Hin) as [[p ->] _].
Qed.

End Restart.

Lemma Server_EnableJetStream_not_directory_witness :
  let s := mkServer None (Some "SYS") {["SYS"; "A"; "B"]} ∅ ∅ ∅
             {["/tmp/nats/jetstream" := File None]} in
  let r := Server_EnableJetStream (C := simCollaborators) (SC := simServer GiB GiB)
             None ["A"] ∅ s in
  (result r).1 = Some SErrNotDirectory ∧
  Server_JetStreamEnabled (final r) = true.
Proof.
  cbv zeta.
  pose proof (Server_EnableJetStream_not_directory (C := simCollaborators)
                (SC := simServer GiB GiB) None ["A"] ∅
                (mkServer None (Some "SYS") {["SYS"; "A"; "B"]} ∅ ∅ ∅
                   {["/tmp/nats/jetstream" := File None]})
                (File None) eq_refl eq_refl eq_refl) as [Hr [Hen _]].
  split; [|exact Hen]. exact (f_equal (λ x, x.1.1.1) Hr).
Defined.

Lemma Server_EnableJetStream_inv_witness :
  let r := Server_EnableJetStream (C := simCollaborators) (SC := simServer GiB GiB)
             (Some (mkJetStreamConfig (4 * GiB) (20 * GiB) "/js")) ["A"; "B"]
             {["A" := mkLimits GiB (10 * GiB) (-1) (-1)]} sim_off in
  Server_JetStreamEnabled (final r) = true ∧ ∃ j, ledger_inv (final r) j.
Proof.
  exact (Server_EnableJetStream_inv (C := simCollaborators)
           (F := simCollaborators_frame) (SC := simServer GiB GiB)
           (SF := simServer_frame GiB GiB)
           (Some (mkJetStreamConfig (4 * GiB) (20 * GiB) "/js")) ["A"; "B"]
           {["A" := mkLimits GiB (10 * GiB) (-1) (-1)]} sim_off eq_refl eq_refl).
Defined.

Lemma restart_keeps_table_empty_witness :
  let lims : gmap AccId JetStreamAccountLimits :=
    {["A" := mkLimits (2 * GiB) (10 * GiB) (-1) (-1);
      "B" := mkLimits GiB (5 * GiB) (-1) (-1)]} in
  let r := Server_EnableJetStream (C := simCollaborators) (SC := simServer GiB GiB)
             (Some (mkJetStreamConfig (4 * GiB) (20 * GiB) "/js")) ["A"; "B"] lims
             (final (shutdownJetStream (C := simCollaborators)
                       (SC := simServer GiB GiB) sim_two)) in
  (result r).1 = None ∧
  JetStreamNumAccounts (final r) = 0 ∧
  Account_JetStreamEnabled (final r) "A" = true.
Proof.
  cbv zeta.
  assert (Hnd : NoDup ["A"; "B"]).
  { apply (bool_decide_unpack _). by vm_compute. }
  assert (Hall : ∀ a, In a ["A"; "B"] →
            is_Some (acc_js sim_two !! a) ∧
            is_Some (({["A" := mkLimits (2 * GiB) (10 * GiB) (-1) (-1);
                        "B" := mkLimits GiB (5 * GiB) (-1) (-1)]}
                      : gmap AccId JetStreamAccountLimits) !! a)).
  { intros a [<-|[<-|[]]]; split; vm_compute; eexists; reflexivity. }
  assert (Hok : (result (Server_EnableJetStream (C := simCollaborators)
                           (SC := simServer GiB GiB)
                           (Some (mkJetStreamConfig (4 * GiB) (20 * GiB) "/js"))
                           ["A"; "B"]
                           {["A" := mkLimits (2 * GiB) (10 * GiB) (-1) (-1);
                             "B" := mkLimits GiB (5 * GiB) (-1) (-1)]}
                           (final (shutdownJetStream (C := simCollaborators)
                                     (SC := simServer GiB GiB) sim_two)))).1 = None)
    by (vm_compute; reflexivity).
  split; [exact Hok|].
  pose proof (restart_keeps_table_empty (C := simCollaborators)
                (F := simCollaborators_frame) (SC := simServer GiB GiB)
                (SF := simServer_frame GiB GiB)
                (Some (mkJetStreamConfig (4 * GiB) (20 * GiB) "/js")) ["A"; "B"]
                {["A" := mkLimits (2 * GiB) (10 * GiB) (-1) (-1);
                  "B" := mkLimits GiB (5 * GiB) (-1) (-1)]}
                sim_two Hnd Hall (λ _, eq_refl) Hok) as (_ & Hnum & Hen).
  split; [exact Hnum|]. apply Hen. by left.
Defined.

(* ===================================================================== *)
(** * Recovery hands intact streams on *)
(* ===================================================================== *)

Lemma events_bind {A B} (m : M A) (k : A → M B) (s : Server) :
  events ((m ≫= k) s) = events (m s) ++ events (k (result (m s)) (final (m s))).
Proof.
  unfold events, result, final. munfold.
  destruct (m s) as [[x s1] e1]. simpl. by destruct (k x s1) as [[? ?] ?].
Qed.

Section RecoveryIntact.
Context {C : Collaborators}.

(** X25. The streams pass of recovery hands an intact entry on: when the
    entry's [meta.inf] can be read and decoded and its [meta.sum] holds the
    lowercase hex of the keyed hash of those bytes, under the key
    SHA-256(directory name), the loop body calls [AddStream] for the account
    with the decoded configuration, after at most one warning (about the
    template the stream names), and does not leave the loop. *)
Theorem recoverStream_intact (a : AccId) (p : JsaPtr) (sdir fi : string)
    (s : Server) (buf : string) (cfg : FileStreamInfo) :
  String.length (sha256_Sum256 fi) = 32%nat →
  ioutil_ReadFile (fs s) (path_Join [path_Join [sdir; fi]; JetStreamMetaFile])
    = Some buf →
  ioutil_ReadFile (fs s) (path_Join [path_Join [sdir; fi]; JetStreamMetaFileSum])
    = Some (hex_EncodeToString (highwayhash_Sum64 (sha256_Sum256 fi) buf)) →
  json_Unmarshal_stream buf = Some cfg →
  let r := recoverStream a p sdir fi s in
  result r = None ∧
  ∃ pre post,
    events r = pre ++ CallAddStream a (fsiConfig cfg) :: post ∧
    (pre = [] ∨
     pre = [Warnf (WStreamAddToTemplate (scName (fsiConfig cfg))
                     (scTemplate (fsiConfig cfg)))]) ∧
    (scTemplate (fsiConfig cfg) = "" → pre = []).
Proof.
  intros Hlen Hbuf Hsum Hjson r.
  split; [by apply recoverStream_continues|].
  subst r. unfold recoverStream, highwayhash_New64.
  rewrite Hlen, Nat.eqb_refl. rewrite events_bind.
  change (result (get s)) with s. change (final (get s)) with s.
  change (events (get s)) with (@nil Event). cbv beta.
  destruct (ReadFile_Stat _ _ _ Hbuf) as [n ->]. rewrite Hbuf.
  destruct (ReadFile_Stat _ _ _ Hsum) as [n' ->]. rewrite Hsum.
  cbv zeta. unfold hh_Sum, hh_Write. simpl hh_key. simpl hh_data.
  rewrite append_nil_l, String.eqb_refl. simpl negb. cbv iota.
  rewrite Hjson. change (negb true) with false. cbv beta iota zeta.
  rewrite app_nil_l, events_bind.
  match goal with |- context [events (?m s)] =>
    set (m1 := m s);
    assert (Hpre : (events m1 = [] ∨
                    events m1 = [Warnf (WStreamAddToTemplate (scName (fsiConfig cfg))
                                          (scTemplate (fsiConfig cfg)))]) ∧
                   (scTemplate (fsiConfig cfg) = "" → events m1 = [])) end.
  { subst m1. destruct (String.eqb_spec (scTemplate (fsiConfig cfg)) "") as [Heq|Hne].
    - simpl. by split; [left|].
    - simpl. split; [|done]. rewrite events_bind.
      assert (Hadd : events (addStreamNameToTemplate p (scTemplate (fsiConfig cfg))
                               (scName (fsiConfig cfg)) s) = []).
      { unfold addStreamNameToTemplate, events. munfold.
        destruct (templates (jsa_at s p)) as [m|]; [|done].
        by destruct (m !! scTemplate (fsiConfig cfg)). }
      rewrite Hadd. simpl.
      destruct (result (addStreamNameToTemplate _ _ _ s)); [by right|by left]. }
  destruct Hpre as [Hpre Hnil].
  exists (events m1).
  rewrite events_bind. unfold callAddStream at 1. rewrite events_bind.
  change (events (emit (CallAddStream a (fsiConfig cfg)) (final m1)))
    with [CallAddStream a (fsiConfig cfg)].
  eexists. split; [|by split].
  cbn [app]. reflexivity.
Qed.

End RecoveryIntact.

Lemma recoverStream_intact_witness :
  let r := recoverStream (C := simCollaborators) "A" 1 "/js/A/streams" "S1"
             sim_disk_enabled in
  result r = None ∧
  ∃ pre post,
    events r = pre ++ CallAddStream "A"
                        (mkStreamConfig "S1" ["S1"] 0 0 1 FileStorage "") :: post.
Proof.
  cbv zeta.
  pose proof (recoverStream_intact (C := simCollaborators) "A" 1 "/js/A/streams" "S1"
                sim_disk_enabled "S1"
                (mkFileStreamInfo None (mkStreamConfig "S1" ["S1"] 0 0 1 FileStorage ""))
                eq_refl eq_refl eq_refl eq_refl) as [Hr (pre & post & He & _)].
  split; [exact Hr|]. exists pre, post. exact He.
Defined.

(* ===================================================================== *)
(** * Admission against the quota *)
(* ===================================================================== *)

(** X26. Lowering limits always works: on a ledger within its quota, an
    update of an enabled, registered account to limits that raise neither
    the memory nor the storage limit passes the check and returns nil. *)
Theorem UpdateJetStreamLimits_lowering (a : AccId) (l : JetStreamAccountLimits)
    (s : Server) (j : jetStream) (p : JsaPtr) :
  within_quota s j →
  acc_js s !! a = Some p →
  small_limits l →
  MaxMemory l <= MaxMemory (limits (jsas s !!! p)) →
  MaxStore l <= MaxStore (limits (jsas s !!! p)) →
  result (UpdateJetStreamLimits a (Some l) s) = None.
Proof.
  intros Hwq Hp [Hlm Hls] Hm Hs.
  destruct (within_quota_counters s j Hwq) as [Hcm Hcs].
  destruct Hwq as [Hinv Hqm Hqs Hsm Hss Hsmall].
  pose proof Hinv as [Ij Ia Ie _ _].
  rewrite Ia in Hp. destruct (Ie a p Hp) as (_ & _ & Hreg).
  destruct (Hsmall a p Hp) as [Hom Hos].
  pose proof (reservedSum_nonneg MaxMemory (jsas s) (accounts j)).
  pose proof (reservedSum_nonneg MaxStore (jsas s) (accounts j)).
  assert (Hsuf : sufficientResources j
            (Some (diffCheckedLimits (limits (jsas s !!! p)) l)) = None).
  { apply sufficientResources_exact.
    - rewrite Hcm. unfold diffCheckedLimits, sub64. simpl.
      rewrite wrap64_id by (unfold is_int64, MinInt64, MaxInt64; lia).
      unfold is_int64, MinInt64, MaxInt64. lia.
    - rewrite Hcs. unfold diffCheckedLimits, sub64. simpl.
      rewrite wrap64_id by (unfold is_int64, MinInt64, MaxInt64; lia).
      unfold is_int64, MinInt64, MaxInt64. lia.
    - unfold diffCheckedLimits, sub64. simpl.
      rewrite !wrap64_id by (unfold is_int64, MinInt64, MaxInt64; lia).
      rewrite Hcm, Hcs. lia. }
  unfold UpdateJetStreamLimits, result. munfold.
  rewrite decide_True by done. rewrite Ij, Ia, Hp. cbv zeta.
  unfold jsa_at. by rewrite Hsuf.
Qed.

Section Exclusive.
Context {C : Collaborators} {F : CollaboratorsFrame}.


End Exclusive.

Lemma sim_within_quota :
  within_quota sim_enabled
    (mkJetStream (mkJetStreamConfig (4 * GiB) (20 * GiB) "/js")
       {["A" := 1%positive]} GiB (10 * GiB)).
Proof.
  split.
  - split; try (vm_compute; reflexivity).
    intros a p Hp. simpl in Hp. apply lookup_singleton_Some in Hp as [<- <-].
    split; [|split]; [vm_compute; eauto|vm_compute; reflexivity|vm_compute; set_solver].
  - vm_compute. split; discriminate.
  - vm_compute. split; discriminate.
  - vm_compute. discriminate.
  - vm_compute. discriminate.
  - intros a p Hp. simpl in Hp. apply lookup_singleton_Some in Hp as [<- <-].
    vm_compute. repeat split; discriminate.
Qed.

Lemma UpdateJetStreamLimits_lowering_witness :
  result (UpdateJetStreamLimits "A" (Some (mkLimits 0 GiB (-1) (-1))) sim_enabled)
  = None.
Proof.
  assert (Hp : acc_js sim_enabled !! "A" = Some 1%positive) by (vm_compute; reflexivity).
  assert (Hl : small_limits (mkLimits 0 GiB (-1) (-1)))
    by (vm_compute; repeat split; discriminate).
  assert (Hm : MaxMemory (mkLimits 0 GiB (-1) (-1))
               <= MaxMemory (limits (jsas sim_enabled !!! 1%positive)))
    by (vm_compute; discriminate).
  assert (Hs : MaxStore (mkLimits 0 GiB (-1) (-1))
               <= MaxStore (limits (jsas sim_enabled !!! 1%positive)))
    by (vm_compute; discriminate).
  exact (UpdateJetStreamLimits_lowering "A" (mkLimits 0 GiB (-1) (-1)) sim_enabled
           _ 1 sim_within_quota Hp Hl Hm Hs).
Defined.


